(** * train.py: the training loop of DeepLab v2, embedded and verified

    The development follows [src/train.py]: the parameter grouper
    [get_params], the polynomial learning-rate scheduler
    [poly_lr_scheduler] and the gradient-accumulation loop of [main].

    Python objects that are mutated in place (the optimizer's
    [param_groups], the [.grad] buffers, the loader iterator, the two
    timing lists, the files on disk) live in an explicit state that every
    operation returns together with its outcome, so that what was mutated
    before an exception is still visible after it. *)

From Stdlib Require Import ZArith QArith Qpower Lia Ascii.
From Stdlib Require PrimFloat FloatOps SpecFloat.
From stdpp Require Import gmap strings list fin_maps pretty.

Open Scope Z_scope.

(** ** Python outcomes *)

(** The exceptions the script can meet.  [DataError] and [ModelError] stand
    for whatever the dataset, the network or the loss collaborator raise (a
    corrupt image, a shape mismatch, ...). *)
Inductive exn : Type :=
  | StopIteration
  | ZeroDivisionError
  | IndexError
  | AttributeError
  | UnboundLocalError
  | ValueError
  | TypeError
  | KeyError
  | DataError (msg : string)
  | ModelError (msg : string).

Inductive outcome (A : Type) : Type :=
  | Return (a : A)
  | Raise (e : exn).
Arguments Return {A} a.
Arguments Raise {A} e.

(** A computation over a mutable store [S]: the store is returned whether
    the computation returns or raises. *)
Definition M (S A : Type) : Type := S -> outcome A * S.

Definition ret {S A} (a : A) : M S A := fun s => (Return a, s).

Definition raise {S A} (e : exn) : M S A := fun s => (Raise e, s).

Definition bind {S A B} (m : M S A) (k : A -> M S B) : M S B :=
  fun s => match m s with
           | (Return a, s') => k a s'
           | (Raise e, s') => (Raise e, s')
           end.

Definition get {S} : M S S := fun s => (Return s, s).

Definition modify {S} (f : S -> S) : M S unit := fun s => (Return tt, f s).

(** [try: m except: h], with the bare [except:] of the script, which
    catches every exception. *)
Definition try_except {S A} (m : M S A) (h : M S A) : M S A :=
  fun s => match m s with
           | (Return a, s') => (Return a, s')
           | (Raise _, s') => h s'
           end.

Notation "'let!' x ':=' m 'in' k" := (bind m (fun x => k))
  (at level 10, x pattern, m at level 100, k at level 200).
Notation "'run!' m 'in' k" := (bind m (fun _ => k))
  (at level 10, m at level 100, k at level 200).

(** [for x in xs: body x] *)
Fixpoint for_each {S A} (xs : list A) (body : A -> M S unit) : M S unit :=
  match xs with
  | [] => ret tt
  | x :: xs' => bind (body x) (fun _ => for_each xs' body)
  end.

(** A property of the store that every step keeps is kept by the whole
    computation, whatever its outcome. *)
Definition keeps {S A} (R : S -> S -> Prop) (m : M S A) : Prop :=
  forall s, R s (m s).2.

(** [range(1, n + 1)] *)
Definition range1 (n : Z) : list Z :=
  map (fun k => Z.of_nat k + 1) (seq 0 (Z.to_nat n)).

(** ** Strings *)

(** [sub in s] on Python strings. *)
Fixpoint str_in (sub s : string) : bool :=
  String.prefix sub s ||
  match s with
  | EmptyString => false
  | String _ s' => str_in sub s'
  end.

(** ** The parameter grouper *)

(** A parameter tensor is known by its identity (Python compares
    parameters by reference). *)
Definition tensor : Type := positive.

(** What [isinstance(m, nn.Conv2d)] needs to know of a module: a
    convolution has a weight and a bias, the latter [None] when it was
    built with [bias=False]. *)
Inductive module : Type :=
  | Conv2d (weight : tensor) (bias : option tensor)
  | OtherModule.

(** [model.named_modules()]: the qualified names with their modules, in
    the enumeration order of the model. *)
Definition model : Type := list (string * module).

Definition is_conv2d (m : module) : bool :=
  match m with Conv2d _ _ => true | OtherModule => false end.

(** [m.parameters()] of a convolution: the weight, then the bias when
    there is one. *)
Definition parameters (m : module) : list (option tensor) :=
  match m with
  | Conv2d w (Some b) => [Some w; Some b]
  | Conv2d w None => [Some w]
  | OtherModule => []
  end.

Definition weight_of (m : module) : list (option tensor) :=
  match m with Conv2d w _ => [Some w] | OtherModule => [] end.

(** [m.bias], which is [None] (and is yielded all the same) for a
    convolution without bias. *)
Definition bias_of (m : module) : list (option tensor) :=
  match m with Conv2d _ b => [b] | OtherModule => [] end.

(** One of the three loops of [get_params]: the modules whose name
    contains [tag] and that are convolutions yield [pick]. *)
Definition yield_from (tag : string) (pick : module -> list (option tensor))
    (mdl : model) : list (option tensor) :=
  flat_map (fun m => if str_in tag m.1 && is_conv2d m.2 then pick m.2 else [])
           mdl.

(** [get_params(model, key)], the generator run to its end.  The three
    [if key == ...] follow one another (none is an [elif]). *)
Definition get_params (mdl : model) (key : string) : list (option tensor) :=
  (if String.eqb key "1x" then yield_from "layer" parameters mdl else []) ++
  (if String.eqb key "10x" then yield_from "aspp" weight_of mdl else []) ++
  (if String.eqb key "20x" then yield_from "aspp" bias_of mdl else []).

(** All parameter tensors of the convolutions of a model, module by
    module. *)
Definition conv_tensors (mdl : model) : list (option tensor) :=
  flat_map (fun m => parameters m.2) mdl.

(** No convolution is named as a backbone layer and as an ASPP layer
    at once. *)
Definition names_apart (mdl : model) : Prop :=
  forall name m, (name, m) ∈ mdl -> is_conv2d m = true ->
    str_in "layer" name = true -> str_in "aspp" name = true -> False.

(** The biases of the ASPP convolutions. *)
Definition aspp_bias (mdl : model) (b : tensor) : Prop :=
  exists name w, (name, Conv2d w (Some b)) ∈ mdl /\ str_in "aspp" name = true.

(** No convolution carries [tag] in its name. *)
Definition no_match (tag : string) (mdl : model) : Prop :=
  forall name m, (name, m) ∈ mdl -> str_in tag name = true ->
    is_conv2d m = false.

(** ** Python floats *)

(** The float operations the script uses.  Nothing is assumed of them
    here: every statement proved over a bare [PyFloat] holds for IEEE
    doubles as for exact arithmetic.  [float_of_Z n] is [float(n)] and the
    coercion of an int operand of a mixed operation; [fdiv] is [/] for a
    divisor that is not zero (the zero test is made where the script
    divides); [fpow] is [**], which raises on [0.0 ** -1.0] and on
    overflow; [flt] is [<]. *)
Class PyFloat (F : Type) : Type := {
  float_of_Z : Z -> F;
  fadd : F -> F -> F;
  fsub : F -> F -> F;
  fmul : F -> F -> F;
  fdiv : F -> F -> F;
  fpow : F -> F -> outcome F;
  flt : F -> F -> bool
}.

(** ** The optimizer's parameter groups *)

(** The values stored in a parameter group, a Python dict with string
    keys. *)
Inductive pyval (F : Type) : Type :=
  | VFloat (x : F)
  | VParams (ps : list (option tensor)).
Arguments VFloat {F} x.
Arguments VParams {F} ps.

Abbreviation param_group F := (gmap string (pyval F)).

Record optimizer (F : Type) : Type := Optimizer {
  param_groups : list (param_group F)
}.
Arguments Optimizer {F} _.
Arguments param_groups {F} _.

Section Scheduler.
Context {F : Type} `{PyFloat F}.

(** [d.setdefault(k, v)] *)
Definition setdefault (k : string) (v : pyval F) (g : param_group F)
    : param_group F :=
  match g !! k with
  | Some _ => g
  | None => <[k := v]> g
  end.

(** [g["params"]], the parameters a group holds. *)
Definition group_params (g : param_group F) : list (option tensor) :=
  match g !! "params" with
  | Some (VParams ps) => ps
  | _ => []
  end.

(** [Optimizer.add_param_group(g)], with [added] the groups the optimizer
    has already: a parameter that is not a tensor ([None]) is a
    [TypeError]; the group receives the optimizer-wide defaults it does
    not set itself (of these the script gives [momentum]); a parameter
    that a group added before holds already is a [ValueError] ("some
    parameters appear in more than one parameter group"); a parameter
    twice in the same group is a warning only.  The parameters of a
    convolution are leaves that require a gradient, so that the other
    tests of the method pass. *)
Definition add_param_group (momentum : F) (added : list (param_group F))
    (g : param_group F) : outcome (list (param_group F)) :=
  match g !! "params" with
  | None => Raise KeyError
  | Some (VFloat _) => Raise TypeError
  | Some (VParams ps) =>
      if bool_decide (None ∈ ps) then Raise TypeError
      else if bool_decide
                (Exists (fun p => p ∈ flat_map group_params added) ps)
      then Raise ValueError
      else Return (added ++ [setdefault "momentum" (VFloat momentum) g])
  end.

Fixpoint add_param_groups (momentum : F) (added todo : list (param_group F))
    : outcome (list (param_group F)) :=
  match todo with
  | [] => Return added
  | g :: rest =>
      match add_param_group momentum added g with
      | Raise e => Raise e
      | Return added' => add_param_groups momentum added' rest
      end
  end.

(** [torch.optim.SGD(params=groups, momentum=momentum)]: a negative
    momentum and an empty list of groups are a [ValueError]; the groups
    are then added one by one, in order. *)
Definition SGD (groups : list (param_group F)) (momentum : F)
    : outcome (optimizer F) :=
  if flt momentum (float_of_Z 0) then Raise ValueError
  else
    match groups with
    | [] => Raise ValueError
    | _ =>
        match add_param_groups momentum [] groups with
        | Raise e => Raise e
        | Return gs => Return (Optimizer gs)
        end
    end.

(** [optimizer.param_groups[i]["lr"] = x]; a missing group is an
    [IndexError]. *)
Definition set_lr (i : nat) (x : F) : M (optimizer F) unit :=
  fun opt =>
    match param_groups opt !! i with
    | Some g =>
        (Return tt,
         Optimizer (<[i := <["lr" := VFloat x]> g]> (param_groups opt)))
    | None => (Raise IndexError, opt)
    end.

(** [init_lr * (1 - float(iter) / max_iter) ** power] *)
Definition poly_lr (init_lr : F) (iter max_iter : Z) (power : F)
    : outcome F :=
  if max_iter =? 0 then Raise ZeroDivisionError
  else
    match fpow (fsub (float_of_Z 1)
                     (fdiv (float_of_Z iter) (float_of_Z max_iter)))
               power with
    | Return p => Return (fmul init_lr p)
    | Raise e => Raise e
    end.

(** The guard [iter % lr_decay_iter or iter > max_iter], for a
    [lr_decay_iter] that is not zero. *)
Definition skips (iter lr_decay_iter max_iter : Z) : bool :=
  negb (iter mod lr_decay_iter =? 0) || (iter >? max_iter).

Definition poly_lr_scheduler (init_lr : F)
    (iter lr_decay_iter max_iter : Z) (power : F) : M (optimizer F) unit :=
  if lr_decay_iter =? 0 then raise ZeroDivisionError
  else if skips iter lr_decay_iter max_iter then ret tt
  else
    match poly_lr init_lr iter max_iter power with
    | Raise e => raise e
    | Return new_lr =>
        run! set_lr 0 new_lr in
        run! set_lr 1 (fmul (float_of_Z 10) new_lr) in
        set_lr 2 (fmul (float_of_Z 20) new_lr)
    end.

(** The learning rate of group [i], when the group exists and has one. *)
Definition lr_of (opt : optimizer F) (i : nat) : option (pyval F) :=
  g ← param_groups opt !! i; g !! "lr".

(** A call fired: it passed the guard, computed a rate and assigned it
    to the three groups. *)
Definition fired (init_lr : F) (iter lr_decay_iter max_iter : Z) (power : F)
    (opt opt' : optimizer F) (new_lr : F) : Prop :=
  lr_decay_iter ≠ 0 ∧
  skips iter lr_decay_iter max_iter = false ∧
  poly_lr init_lr iter max_iter power = Return new_lr ∧
  poly_lr_scheduler init_lr iter lr_decay_iter max_iter power opt
    = (Return tt, opt').

(** Two groups that differ in their learning rate at most. *)
Definition same_but_lr (g g' : param_group F) : Prop :=
  forall k : string, k ≠ "lr" -> g' !! k = g !! k.

Definition lr_only (opt opt' : optimizer F) : Prop :=
  Forall2 same_but_lr (param_groups opt) (param_groups opt').

(** The base of the power. *)
Definition base (iter m : Z) : F :=
  fsub (float_of_Z 1) (fdiv (float_of_Z iter) (float_of_Z m)).
End Scheduler.

(** ** Losses with their gradients *)

(** A scalar loss tensor: its value and the gradient that [backward()]
    adds to the [.grad] buffers, one entry for every parameter the loss
    depends on.  Sums and quotients act on both (differentiation is
    linear). *)
Record dual (F : Type) : Type := Dual {
  val : F;
  dgrad : gmap tensor F
}.
Arguments Dual {F} _ _.
Arguments val {F} _.
Arguments dgrad {F} _.

(** The variable [loss] of the script: the int [0] it starts from, or a
    tensor once a loss has been added. *)
Inductive pyloss (F : Type) : Type :=
  | LInt (n : Z)
  | LTensor (d : dual F).
Arguments LInt {F} n.
Arguments LTensor {F} d.

Section Losses.
Context {F : Type} `{PyFloat F}.

Definition gadd (a b : gmap tensor F) : gmap tensor F :=
  union_with (fun x y => Some (fadd x y)) a b.

Definition gdiv (a : gmap tensor F) (n : F) : gmap tensor F :=
  (fun x => fdiv x n) <$> a.

(** [p.grad += g] on the buffer of one parameter: a buffer that is still
    [None] takes [g], and a parameter the loss does not depend on keeps
    its buffer. *)
Definition grad_add (a g : option F) : option F :=
  match a, g with
  | Some x, Some y => Some (fadd x y)
  | Some x, None => Some x
  | None, _ => g
  end.

Definition dadd (a b : dual F) : dual F :=
  Dual (fadd (val a) (val b)) (gadd (dgrad a) (dgrad b)).

Definition ddiv (a : dual F) (n : F) : dual F :=
  Dual (fdiv (val a) n) (gdiv (dgrad a) n).

(** [loss += t] *)
Definition loss_add (loss : pyloss F) (t : dual F) : pyloss F :=
  match loss with
  | LInt n => LTensor (Dual (fadd (float_of_Z n) (val t)) (dgrad t))
  | LTensor d => LTensor (dadd d t)
  end.

Definition dzero : dual F := Dual (float_of_Z 0) ∅.

(** The sum of losses, as Python's [sum] adds them: from [0], left to
    right. *)
Definition dsum (Ls : list (dual F)) : dual F := fold_left dadd Ls dzero.

Definition py_sum (xs : list F) : F := fold_left fadd xs (float_of_Z 0).

(** The mean of the losses of [n] sub-iterations. *)
Definition dmean (Ls : list (dual F)) (n : Z) : dual F :=
  ddiv (dsum Ls) (float_of_Z n).
End Losses.

(** ** The collaborators *)

(** The dataset, the network, the loss, the optimizer step, the wall clock
    and the loss meter are given from outside.  [loader k] is what the
    [k]-th iterator made from the loader delivers, one [next] at a time (a
    batch, or the exception the fetch raises), before it is exhausted;
    [forward] is the transfer of the batch to the device and
    [model(images)]; [criterion] resamples the labels to the scale of a
    logit and computes its cross-entropy; [autograd L] is [None] when
    [L.backward()] runs through, and otherwise the exception it raises
    with the gradients it had added to the buffers by then; [sgd_step] is
    [optimizer.step()], which reads the groups and the gradients and
    updates the weights. *)
Class World (F : Type) : Type := {
  Weights : Type;
  Batch : Type;
  Logit : Type;
  loader : nat -> list (outcome Batch);
  forward : Weights -> Batch -> outcome (list Logit);
  criterion : Logit -> Batch -> outcome (dual F);
  autograd : dual F -> option (exn * gmap tensor F);
  sgd_step : list (param_group F) -> Weights -> gmap tensor F
             -> outcome Weights;
  clock : nat -> F;
  meter_value : list F -> F
}.

(** ** Configuration, files and state *)

Record config (F : Type) : Type := Config {
  LR : F;
  WEIGHT_DECAY : F;
  MOMENTUM : F;
  POLY_POWER : F;
  LR_DECAY : Z;
  ITER_MAX : Z;
  ITER_SIZE : Z;
  ITER_TB : Z;
  ITER_SAVE : Z;
  SAVE_DIR : string
}.
Arguments Config {F} _ _ _ _ _ _ _ _ _ _.
Arguments LR {F} _.
Arguments WEIGHT_DECAY {F} _.
Arguments MOMENTUM {F} _.
Arguments POLY_POWER {F} _.
Arguments LR_DECAY {F} _.
Arguments ITER_MAX {F} _.
Arguments ITER_SIZE {F} _.
Arguments ITER_TB {F} _.
Arguments ITER_SAVE {F} _.
Arguments SAVE_DIR {F} _.

(** [posixpath.join(a, b)] *)
Fixpoint ends_with_slash (a : string) : bool :=
  match a with
  | EmptyString => false
  | String c a' =>
      match a' with
      | EmptyString => Ascii.eqb c "/"%char
      | String _ _ => ends_with_slash a'
      end
  end.

Definition osp_join (a b : string) : string :=
  if String.prefix "/" b then b
  else if String.eqb a "" || ends_with_slash a then a +:+ b
  else a +:+ "/" +:+ b.

(** What [posixpath.join] puts before a relative name. *)
Definition dir_prefix (a : string) : string :=
  if String.eqb a "" || ends_with_slash a then a else a +:+ "/".

(** A decimal digit, as [pretty] prints it. *)
Definition is_digit (c : ascii) : Prop := exists n : N, c = pretty_N_char n.

(** ["checkpoint_{}.pth".format(iteration)] *)
Definition checkpoint_name (iteration : Z) : string :=
  "checkpoint_" +:+ pretty iteration +:+ ".pth".

(** ** The training state *)

Section Training.
Context {F : Type} `{PyFloat F} `{World F}.

(** What [torch.save] and the [csv] writer leave on disk. *)
Inductive file : Type :=
  | Checkpoint (w : Weights)
  | Table (rows : list (F * F)).

(** Everything the loop of [main] mutates.  [writes] is the sequence of
    files written, oldest first; [start], [data_times] and
    [compute_times] are local variables, [None] while unbound; [grads]
    has no entry for a parameter whose [.grad] is still [None]. *)
Record state : Type := State {
  loader_iter : list (outcome Batch);
  epochs : nat;
  optim : optimizer F;
  weights : Weights;
  grads : gmap tensor F;
  ticks : nat;
  start : option F;
  data_times : option (list F);
  compute_times : option (list F);
  iter_loss : F;
  loss_meter : list F;
  tensorboard : list (string * pyval F * Z);
  writes : list (string * file)
}.

Definition set_loader (it : list (outcome Batch)) (e : nat) (s : state) :=
  State it e (optim s) (weights s) (grads s) (ticks s) (start s)
        (data_times s) (compute_times s) (iter_loss s) (loss_meter s)
        (tensorboard s) (writes s).

Definition set_optim (o : optimizer F) (s : state) :=
  State (loader_iter s) (epochs s) o (weights s) (grads s) (ticks s)
        (start s) (data_times s) (compute_times s) (iter_loss s)
        (loss_meter s) (tensorboard s) (writes s).

Definition set_weights (w : Weights) (s : state) :=
  State (loader_iter s) (epochs s) (optim s) w (grads s) (ticks s)
        (start s) (data_times s) (compute_times s) (iter_loss s)
        (loss_meter s) (tensorboard s) (writes s).

Definition set_grads (g : gmap tensor F) (s : state) :=
  State (loader_iter s) (epochs s) (optim s) (weights s) g (ticks s)
        (start s) (data_times s) (compute_times s) (iter_loss s)
        (loss_meter s) (tensorboard s) (writes s).

Definition set_ticks (n : nat) (s : state) :=
  State (loader_iter s) (epochs s) (optim s) (weights s) (grads s) n
        (start s) (data_times s) (compute_times s) (iter_loss s)
        (loss_meter s) (tensorboard s) (writes s).

Definition set_start (t : option F) (s : state) :=
  State (loader_iter s) (epochs s) (optim s) (weights s) (grads s)
        (ticks s) t (data_times s) (compute_times s) (iter_loss s)
        (loss_meter s) (tensorboard s) (writes s).

Definition set_data_times (l : option (list F)) (s : state) :=
  State (loader_iter s) (epochs s) (optim s) (weights s) (grads s)
        (ticks s) (start s) l (compute_times s) (iter_loss s)
        (loss_meter s) (tensorboard s) (writes s).

Definition set_compute_times (l : option (list F)) (s : state) :=
  State (loader_iter s) (epochs s) (optim s) (weights s) (grads s)
        (ticks s) (start s) (data_times s) l (iter_loss s)
        (loss_meter s) (tensorboard s) (writes s).

Definition set_iter_loss (x : F) (s : state) :=
  State (loader_iter s) (epochs s) (optim s) (weights s) (grads s)
        (ticks s) (start s) (data_times s) (compute_times s) x
        (loss_meter s) (tensorboard s) (writes s).

Definition set_loss_meter (l : list F) (s : state) :=
  State (loader_iter s) (epochs s) (optim s) (weights s) (grads s)
        (ticks s) (start s) (data_times s) (compute_times s) (iter_loss s)
        l (tensorboard s) (writes s).

Definition set_tensorboard (l : list (string * pyval F * Z)) (s : state) :=
  State (loader_iter s) (epochs s) (optim s) (weights s) (grads s)
        (ticks s) (start s) (data_times s) (compute_times s) (iter_loss s)
        (loss_meter s) l (writes s).

Definition set_writes (l : list (string * file)) (s : state) :=
  State (loader_iter s) (epochs s) (optim s) (weights s) (grads s)
        (ticks s) (start s) (data_times s) (compute_times s) (iter_loss s)
        (loss_meter s) (tensorboard s) l.

(** A pure outcome, and a computation on the optimizer alone, inside a
    computation on the whole state. *)
Definition lift {A} (o : outcome A) : M state A := fun s => (o, s).

Definition on_optim {A} (m : M (optimizer F) A) : M state A :=
  fun s => let (r, o) := m (optim s) in (r, set_optim o s).

(** ** The pieces of the loop *)

(** [time.time()] *)
Definition time_time : M state F :=
  fun s => (Return (clock (ticks s)), set_ticks (S (ticks s)) s).

(** [next(loader_iter)] *)
Definition next_batch : M state Batch :=
  fun s =>
    match loader_iter s with
    | [] => (Raise StopIteration, s)
    | Return b :: rest => (Return b, set_loader rest (epochs s) s)
    | Raise e :: rest => (Raise e, set_loader rest (epochs s) s)
    end.

(** [loader_iter = iter(loader)] *)
Definition restart : M state unit :=
  fun s => (Return tt, set_loader (loader (epochs s)) (S (epochs s)) s).

(** Lines 164-168: the pull, with its bare [except:] around the first
    [next] only. *)
Definition pull : M state Batch :=
  try_except next_batch (run! restart in next_batch).

(** Lines 180-186: [loss = 0], then one [loss += criterion(...)] for
    every logit. *)
Fixpoint sum_scales (loss : pyloss F) (logits : list Logit) (b : Batch)
    : outcome (pyloss F) :=
  match logits with
  | [] => Return loss
  | logit :: rest =>
      match criterion logit b with
      | Raise e => Raise e
      | Return t => sum_scales (loss_add loss t) rest b
      end
  end.

(** Lines 177-186: the forward pass and the loss summed over the
    scales. *)
Definition summed_loss (w : Weights) (b : Batch) : outcome (pyloss F) :=
  match forward w b with
  | Raise e => Raise e
  | Return logits => sum_scales (LInt 0) logits b
  end.

(** [loss.backward()]: the gradient of the loss is added to the
    [.grad] buffers; when it raises, the part it had reached is. *)
Definition backward (d : dual F) : M state unit :=
  fun s =>
    match autograd d with
    | None => (Return tt, set_grads (gadd (grads s) (dgrad d)) s)
    | Some (e, part) => (Raise e, set_grads (gadd (grads s) part) s)
    end.

(** [optimizer.zero_grad()] *)
Definition zero_grad : M state unit :=
  modify (fun s => set_grads ((fun _ => float_of_Z 0) <$> grads s) s).

(** [l.append(x)] on a local list. *)
Definition append_to (l : option (list F)) (x : F)
    : outcome (option (list F)) :=
  match l with
  | Some xs => Return (Some (xs ++ [x]))
  | None => Raise UnboundLocalError
  end.

Definition append_data_time (x : F) : M state unit :=
  fun s => match append_to (data_times s) x with
           | Return l => (Return tt, set_data_times l s)
           | Raise e => (Raise e, s)
           end.

Definition append_compute_time (x : F) : M state unit :=
  fun s => match append_to (compute_times s) x with
           | Return l => (Return tt, set_compute_times l s)
           | Raise e => (Raise e, s)
           end.

Definition read_start : M state F :=
  fun s => match start s with
           | Some t => (Return t, s)
           | None => (Raise UnboundLocalError, s)
           end.

(** Lines 163-192: one pass of the inner loop, for [ITER_SIZE = n]. *)
Definition sub_iteration (n : Z) : M state unit :=
  let! t0 := time_time in
  run! modify (set_start (Some t0)) in
  let! b := pull in
  let! t1 := time_time in
  run! append_data_time (fsub t1 t0) in
  let! t2 := time_time in
  run! modify (set_start (Some t2)) in
  let! w := (fun s => (Return (weights s), s)) in
  let! loss := lift (summed_loss w b) in
  match loss with
  | LInt _ => raise AttributeError
  | LTensor d =>
      let d' := ddiv d (float_of_Z n) in
      run! backward d' in
      modify (fun s => set_iter_loss (fadd (iter_loss s) (val d')) s)
  end.

(** The state once a new iterator has been made from the loader. *)
Definition restarted (s : state) : state :=
  set_loader (loader (epochs s)) (S (epochs s)) s.

(** The state a sub-iteration that returns leaves, given the batch it
    pulled and the loss it computed. *)
Definition after_sub_iteration (n : Z) (it : list (outcome Batch))
    (e : nat) (ds : list F) (L : dual F) (s : state) : state :=
  let L' := ddiv L (float_of_Z n) in
  set_iter_loss (fadd (iter_loss s) (val L'))
    (set_grads (gadd (grads s) (dgrad L'))
      (set_start (Some (clock (S (S (ticks s)))))
        (set_ticks (S (S (S (ticks s))))
          (set_data_times
             (Some (ds ++ [fsub (clock (S (ticks s))) (clock (ticks s))]))
             (set_loader it e s))))).

(** What the inner loop leaves alone. *)
Definition outside_inner_loop (s s' : state) : Prop :=
  weights s' = weights s /\ optim s' = optim s /\
  compute_times s' = compute_times s /\ loss_meter s' = loss_meter s /\
  tensorboard s' = tensorboard s /\ writes s' = writes s.

(** [zero_grad()] done. *)
Definition zeroed (s : state) : state :=
  set_grads ((fun _ => float_of_Z 0) <$> grads s) s.

(** The checkpoints of iteration [iteration], of weights [w]. *)
Definition saved (cfg : config F) (iteration : Z) (w : Weights)
    : list (string * file) :=
  (if iteration mod ITER_SAVE cfg =? 0
   then [(osp_join (SAVE_DIR cfg) (checkpoint_name iteration), Checkpoint w)]
   else []) ++
  (if iteration mod 100 =? 0
   then [(osp_join (SAVE_DIR cfg) "checkpoint_current.pth", Checkpoint w)]
   else []).

(** Lines 158-192: the accumulation of one outer iteration. *)
Definition accumulate (n : Z) : M state unit :=
  run! modify (set_iter_loss (float_of_Z 0)) in
  run! modify (set_data_times (Some [])) in
  run! modify (set_compute_times (Some [])) in
  for_each (range1 n) (fun _ => sub_iteration n).

(** [optimizer.step()] *)
Definition step : M state unit :=
  fun s => match sgd_step (param_groups (optim s)) (weights s) (grads s) with
           | Return w => (Return tt, set_weights w s)
           | Raise e => (Raise e, s)
           end.

(** [torch.save(model.module.state_dict(), path)] *)
Definition save (path : string) : M state unit :=
  modify (fun s => set_writes (writes s ++ [(path, Checkpoint (weights s))]) s).

(** Lines 204-205: the learning rate of every group, in order. *)
Fixpoint log_lrs (i : nat) (gs : list (param_group F)) (iteration : Z)
    : M state unit :=
  match gs with
  | [] => ret tt
  | g :: rest =>
      match g !! "lr" with
      | None => raise KeyError
      | Some v =>
          run! modify (fun s => set_tensorboard
                  (tensorboard s ++
                   [("train_lr_group" +:+ pretty i, v, iteration)]) s) in
          log_lrs (S i) rest iteration
      end
  end.

(** Lines 202-205 *)
Definition log_scalars (iteration : Z) : M state unit :=
  run! modify (fun s => set_tensorboard
          (tensorboard s ++
           [("train_loss", VFloat (meter_value (loss_meter s)), iteration)])
          s) in
  let! s := get in
  log_lrs 0 (param_groups (optim s)) iteration.

(** [if iteration % every == 0: body] *)
Definition every_n (iteration every : Z) (body : M state unit)
    : M state unit :=
  if every =? 0 then raise ZeroDivisionError
  else if iteration mod every =? 0 then body
  else ret tt.

(** Lines 145-227: one outer iteration. *)
Definition outer_iteration (cfg : config F) (iteration : Z)
    : M state unit :=
  run! on_optim (poly_lr_scheduler (LR cfg) (iteration - 1) (LR_DECAY cfg)
                                   (ITER_MAX cfg) (POLY_POWER cfg)) in
  run! zero_grad in
  run! accumulate (ITER_SIZE cfg) in
  run! modify (fun s => set_loss_meter (loss_meter s ++ [iter_loss s]) s) in
  run! step in
  let! t := time_time in
  let! t0 := read_start in
  run! append_compute_time (fsub t t0) in
  run! every_n iteration (ITER_TB cfg) (log_scalars iteration) in
  run! every_n iteration (ITER_SAVE cfg)
         (save (osp_join (SAVE_DIR cfg) (checkpoint_name iteration))) in
  every_n iteration 100
    (save (osp_join (SAVE_DIR cfg) "checkpoint_current.pth")).

(** Lines 229-233: the table of timings.  The file is opened (and so
    created) before the two lists are read. *)
Definition write_logs : M state unit :=
  fun s =>
    match data_times s, compute_times s with
    | Some ds, Some cs =>
        (Return tt,
         set_writes (writes s ++ [("logs.csv", Table (zip ds cs))]) s)
    | _, _ =>
        (Raise UnboundLocalError,
         set_writes (writes s ++ [("logs.csv", Table [])]) s)
    end.

(** ** What a run writes, by kind *)

Inductive write_kind : Type :=
  | History (iteration : Z)
  | Current
  | Logs
  | Final.

#[global] Instance write_kind_eq_dec : EqDecision write_kind.
Proof. solve_decision. Defined.

Definition path_of (cfg : config F) (k : write_kind) : string :=
  match k with
  | History i => osp_join (SAVE_DIR cfg) (checkpoint_name i)
  | Current => osp_join (SAVE_DIR cfg) "checkpoint_current.pth"
  | Logs => "logs.csv"
  | Final => osp_join (SAVE_DIR cfg) "checkpoint_final.pth"
  end.

Definition is_history (k : write_kind) : bool :=
  match k with History _ => true | _ => false end.

(** The files of one outer iteration, and of a whole run, in the
    order they are written. *)
Definition iteration_writes (cfg : config F) (iteration : Z)
    : list write_kind :=
  (if iteration mod ITER_SAVE cfg =? 0 then [History iteration] else []) ++
  (if iteration mod 100 =? 0 then [Current] else []).

Definition run_writes (cfg : config F) : list write_kind :=
  flat_map (iteration_writes cfg) (range1 (ITER_MAX cfg)) ++ [Logs; Final].

(** How often a path was written. *)
Definition times_written (p : string) (ws : list string) : nat :=
  length (filter (fun q => q = p) ws).

(** The rows of the table written to [logs.csv], when it was written. *)
Definition logged_rows (s : state) : option (list (F * F)) :=
  match filter (fun w => w.1 = "logs.csv") (writes s) with
  | (_, Table rows) :: _ => Some rows
  | _ => None
  end.

(** The weight decay of group [i]. *)
Definition weight_decay_of (opt : optimizer F) (i : nat)
    : option (pyval F) :=
  g ← param_groups opt !! i; g !! "weight_decay".

(** The parameters of group [i]. *)
Definition params_of (opt : optimizer F) (i : nat) : option (pyval F) :=
  g ← param_groups opt !! i; g !! "params".

(** Group [i] holds the tensor [p]. *)
Definition holds (opt : optimizer F) (i : nat) (p : tensor) : Prop :=
  exists ps, params_of opt i = Some (VParams ps) /\ Some p ∈ ps.

(** The optimizer does not decay [p]: every group that holds it has
    weight decay [0.0]. *)
Definition undecayed (opt : optimizer F) (p : tensor) : Prop :=
  forall i, holds opt i p ->
    weight_decay_of opt i = Some (VFloat (float_of_Z 0)).

(** The state when the inner loop is entered. *)
Definition reset (s : state) : state :=
  set_compute_times (Some [])
    (set_data_times (Some []) (set_iter_loss (float_of_Z 0) s)).

(** Between two states, the groups differ in their learning rates at
    most. *)
Definition groups_kept (s s' : state) : Prop := lr_only (optim s) (optim s').

(** Nothing was written between two states. *)
Definition same_writes (s s' : state) : Prop := writes s' = writes s.

(** The state when the pull of a sub-iteration begins: the clock has
    been read into [start]. *)
Definition ticked (s : state) : state :=
  set_start (Some (clock (ticks s))) (set_ticks (S (ticks s)) s).

(** Lines 138-237: the loop and what follows it. *)
Definition train (cfg : config F) : M state unit :=
  run! for_each (range1 (ITER_MAX cfg)) (outer_iteration cfg) in
  run! write_logs in
  save (osp_join (SAVE_DIR cfg) "checkpoint_final.pth").

(** Lines 105-125: the three parameter groups. *)
Definition group_1x (cfg : config F) (mdl : model) : param_group F :=
  <["params" := VParams (get_params mdl "1x")]>
    (<["lr" := VFloat (LR cfg)]>
       (<["weight_decay" := VFloat (WEIGHT_DECAY cfg)]> ∅)).

Definition group_10x (cfg : config F) (mdl : model) : param_group F :=
  <["params" := VParams (get_params mdl "10x")]>
    (<["lr" := VFloat (fmul (float_of_Z 10) (LR cfg))]>
       (<["weight_decay" := VFloat (WEIGHT_DECAY cfg)]> ∅)).

Definition group_20x (cfg : config F) (mdl : model) : param_group F :=
  <["params" := VParams (get_params mdl "20x")]>
    (<["lr" := VFloat (fmul (float_of_Z 20) (LR cfg))]>
       (<["weight_decay" := VFloat (float_of_Z 0)]> ∅)).

(** The three groups, with the default they receive. *)
Definition built_groups (cfg : config F) (mdl : model)
    : list (param_group F) :=
  map (setdefault "momentum" (VFloat (MOMENTUM cfg)))
      [group_1x cfg mdl; group_10x cfg mdl; group_20x cfg mdl].

Definition make_optimizer (cfg : config F) (mdl : model)
    : outcome (optimizer F) :=
  SGD [group_1x cfg mdl; group_10x cfg mdl; group_20x cfg mdl]
      (MOMENTUM cfg).

(** The state when the loop is entered with the optimizer [opt]: the
    first iterator has been made (line 95), the pretrained weights [w0]
    are loaded, nothing has been logged or written. *)
Definition init_state (opt : optimizer F) (w0 : Weights) : state :=
  State (loader 0) 1 opt w0 ∅ 0 None None None (float_of_Z 0) [] [] [].

(** Lines 95-237.  When the constructor of the optimizer raises, the
    script ends there: there is no optimizer (no group, in the state), and
    the loop is not entered. *)
Definition main (cfg : config F) (mdl : model) (w0 : Weights)
    : outcome unit * state :=
  match make_optimizer cfg mdl with
  | Raise e => (Raise e, init_state (Optimizer []) w0)
  | Return opt => train cfg (init_state opt w0)
  end.
End Training.

(** ** Laws of the arithmetic *)

(** Three facts about [1.0], true of IEEE doubles and of exact
    arithmetic: they make the scheduler's first call ([iter = 0])
    computable. *)
Class FloatUnit (F : Type) `{PyFloat F} : Prop := {
  fdiv_zero_l : forall m : Z, m ≠ 0 ->
    fdiv (float_of_Z 0) (float_of_Z m) = float_of_Z 0;
  fsub_zero_r : fsub (float_of_Z 1) (float_of_Z 0) = float_of_Z 1;
  fpow_one_l : forall p : F, fpow (float_of_Z 1) p = Return (float_of_Z 1)
}.

(** Exact arithmetic: sums associate and a quotient distributes over a
    sum.  IEEE doubles satisfy these up to rounding only. *)
Class ExactArith (F : Type) `{PyFloat F} : Prop := {
  fadd_assoc : forall a b c : F, fadd (fadd a b) c = fadd a (fadd b c);
  fdiv_fadd : forall a b n : F,
    fdiv (fadd a b) n = fadd (fdiv a n) (fdiv b n);
  fdiv_zero : forall n : F, fdiv (float_of_Z 0) n = float_of_Z 0
}.

(** The order on floats, [<=]. *)
Class FloatOrder (F : Type) : Type := fle : F -> F -> Prop.

(** The operations respect the order: rounding to nearest is monotone,
    and so is a power of a non-negative base with a positive exponent
    ([~ fle p 0] says [p > 0]). *)
Class OrderedFloat (F : Type) `{PyFloat F} `{FloatOrder F} : Prop := {
  float_of_Z_mono : forall a b : Z, a <= b ->
    fle (float_of_Z a) (float_of_Z b);
  fdiv_mono : forall (a b : F) (m : Z), 0 < m -> fle a b ->
    fle (fdiv a (float_of_Z m)) (fdiv b (float_of_Z m));
  fdiv_same : forall m : Z, 0 < m ->
    fdiv (float_of_Z m) (float_of_Z m) = float_of_Z 1;
  fsub_anti : forall a b c : F, fle a b -> fle (fsub c b) (fsub c a);
  fsub_same : fsub (float_of_Z 1) (float_of_Z 1) = float_of_Z 0;
  fpow_mono : forall x y p a b : F,
    fle (float_of_Z 0) x -> fle x y -> ~ fle p (float_of_Z 0) ->
    fpow x p = Return a -> fpow y p = Return b -> fle a b;
  fmul_mono : forall c a b : F,
    fle (float_of_Z 0) c -> fle a b -> fle (fmul c a) (fmul c b)
}.

(** ** A fixture: exact rationals, a two-sample dataset, one weight *)

Module Fixture.

(** [x ** p] on rationals kept in lowest terms.  An exponent that is
    not an integer has a rational result for the bases 1 and 0 only;
    elsewhere the fixture declines with [ValueError]. *)
Definition Qpow (x p : Q) : outcome Q :=
  if Qeq_bool x 1 then Return 1%Q
  else if (Qden (Qred p) =? 1)%positive then
    if Qeq_bool x 0 && (Qnum (Qred p) <? 0) then Raise ZeroDivisionError
    else Return (Qred (Qpower x (Qnum (Qred p))))
  else if Qeq_bool x 0 && Qle_bool 0 p then Return 0%Q
  else Raise ValueError.

#[export] Instance Q_float : PyFloat Q := {
  float_of_Z z := inject_Z z;
  fadd x y := Qred (x + y);
  fsub x y := Qred (x - y);
  fmul x y := Qred (x * y);
  fdiv x y := Qred (x / y);
  fpow := Qpow;
  flt x y := negb (Qle_bool y x)
}.

#[export] Instance Q_order : FloatOrder Q := Qle.

(** The mean of the last twenty values. *)
Definition mean_last20 (l : list Q) : Q :=
  let w := drop (length l - 20) l in
  match w with
  | [] => 0%Q
  | _ => Qred (fold_left Qplus w 0%Q / inject_Z (Z.of_nat (length w)))
  end.

(** A network with one weight [w] (tensor 1) and two output scales,
    [w] and [2 w], each with its derivative; the loss of a scale is the
    squared error against the label.  A label [0] stands for a batch the
    network rejects. *)
Definition world (ld : nat -> list (outcome Q)) : World Q := {|
  Weights := Q;
  Batch := Q;
  Logit := Q * Q;
  loader := ld;
  forward w b :=
    if Qeq_bool b 0 then Raise (ModelError "shape mismatch")
    else Return [(w, 1%Q); (Qred (2 * w), 2%Q)];
  criterion l b :=
    Return (Dual (Qred ((l.1 - b) * (l.1 - b)))
                 {[ 1%positive := Qred (2 * (l.1 - b) * l.2) ]});
  autograd L := None;
  sgd_step gs w g :=
    match gs !! 0%nat ≫= (fun grp => grp !! "lr"), g !! 1%positive with
    | Some (VFloat lr), Some d => Return (Qred (w - lr * d))
    | _, _ => Return w
    end;
  clock n := inject_Z (Z.of_nat n);
  meter_value := mean_last20
|}.

(** Two samples per epoch. *)
Definition two_samples : nat -> list (outcome Q) :=
  fun _ => [Return 1%Q; Return 3%Q].

(** A first iterator whose first fetch fails, then the two samples. *)
Definition corrupt_first : nat -> list (outcome Q) :=
  fun k => match k with
           | O => [Raise (DataError "corrupt image")]
           | S _ => [Return 1%Q; Return 3%Q]
           end.

(** A batch the network rejects, after a good one. *)
Definition bad_batch : nat -> list (outcome Q) :=
  fun _ => [Return 1%Q; Return 0%Q].

Definition net : model :=
  [ ("", OtherModule);
    ("scale", OtherModule);
    ("scale.layer1.conv1.conv", Conv2d 1%positive None);
    ("scale.layer1.conv1.bn", OtherModule);
    ("scale.aspp.stages.c0", Conv2d 2%positive (Some 3%positive)) ].

(** [ITER_MAX] and [ITER_SIZE] vary between the runs below. *)
Definition cfg (iter_max iter_size : Z) : config Q :=
  Config (1 # 10)%Q (5 # 10000)%Q (9 # 10)%Q 1%Q 1 iter_max iter_size
         1 1 "out".

Definition run (ld : nat -> list (outcome Q)) (iter_max iter_size : Z) :=
  @main Q Q_float (world ld) (cfg iter_max iter_size) net (1 # 2)%Q.

(** The optimizer of these runs, as it is built before the loop. *)
Definition sgd : optimizer Q :=
  match make_optimizer (cfg 2 2) net with
  | Return opt => opt
  | Raise _ => Optimizer []
  end.

(** A convolution named as a backbone layer and as an ASPP layer at
    once. *)
Definition overlapping : model :=
  [ ("layer5.aspp.c0", Conv2d 1%positive (Some 2%positive)) ].

(** A network without ASPP module. *)
Definition backbone : model :=
  [ ("", OtherModule);
    ("layer1.conv1.conv", Conv2d 1%positive None);
    ("layer1.conv1.bn", OtherModule) ].

(** The same network with an optimizer step that leaves the weights as
    they are, for a run of 2500 iterations with [ITER_SAVE = 1000]. *)
Definition frozen : World Q := {|
  Weights := Q;
  Batch := Q;
  Logit := Q * Q;
  loader := two_samples;
  forward := @forward Q (world two_samples);
  criterion := @criterion Q (world two_samples);
  autograd L := None;
  sgd_step gs w g := Return w;
  clock n := inject_Z (Z.of_nat n);
  meter_value := mean_last20
|}.

(** The same network with an optimizer step that fails, and with a
    backward pass that fails. *)
Definition failing_step : World Q := {|
  Weights := Q;
  Batch := Q;
  Logit := Q * Q;
  loader := two_samples;
  forward := @forward Q (world two_samples);
  criterion := @criterion Q (world two_samples);
  autograd L := None;
  sgd_step gs w g := Raise (ModelError "size mismatch in step");
  clock n := inject_Z (Z.of_nat n);
  meter_value := mean_last20
|}.

Definition failing_backward : World Q := {|
  Weights := Q;
  Batch := Q;
  Logit := Q * Q;
  loader := two_samples;
  forward := @forward Q (world two_samples);
  criterion := @criterion Q (world two_samples);
  autograd L := Some (ModelError "size mismatch in backward", ∅);
  sgd_step gs w g := Return w;
  clock n := inject_Z (Z.of_nat n);
  meter_value := mean_last20
|}.

Definition long_cfg : config Q :=
  Config (1 # 10)%Q (5 # 10000)%Q (9 # 10)%Q 1%Q 10 2500 1 1000 1000
         "out".

(** The first outer iteration of the run on two samples. *)
Definition s0 : @state Q (world two_samples) :=
  @init_state Q Q_float (world two_samples) sgd (1 # 2)%Q.

Definition s1 : @state Q (world two_samples) :=
  (@outer_iteration Q Q_float (world two_samples) (cfg 2 2) 1 s0).2.

Definition long_run :=
  @main Q Q_float frozen long_cfg net (1 # 2)%Q.

End Fixture.

(** ** A second fixture: IEEE binary64, three samples *)

Module Binary64.

(** [float(z)]: the double nearest to [z], ties to even (the script
    converts iteration counts, far inside the range of the doubles, where
    Python does not raise [OverflowError]). *)
Definition of_Z (z : Z) : PrimFloat.float :=
  FloatOps.SF2Prim
    (SpecFloat.binary_normalize FloatOps.prec FloatOps.emax z 0 false).

(** [x ** p] where it does not depend on the C library: an exponent that
    is zero and a base that is one give [1.0].  Elsewhere the fixture
    declines with [ValueError]. *)
Definition pow (x p : PrimFloat.float) : outcome PrimFloat.float :=
  if PrimFloat.eqb p (of_Z 0) then Return (of_Z 1)
  else if PrimFloat.eqb x (of_Z 1) then Return (of_Z 1)
  else Raise ValueError.

#[global] Instance double_float : PyFloat PrimFloat.float := {
  float_of_Z := of_Z;
  fadd := PrimFloat.add;
  fsub := PrimFloat.sub;
  fmul := PrimFloat.mul;
  fdiv := PrimFloat.div;
  fpow := pow;
  flt := PrimFloat.ltb
}.

(** [n / 10], as the literals [0.1], [0.2], ... are read. *)
Definition tenths (n : Z) : PrimFloat.float :=
  PrimFloat.div (of_Z n) (of_Z 10).

(** A network with one weight [w] (tensor 1) and one output scale,
    [w * b]; the loss of a batch is that output, whose derivative in [w]
    is [b].  The samples are [0.1], [0.2] and [0.3]; the optimizer step
    leaves the weight as it is. *)
Definition world : World PrimFloat.float := {|
  Weights := PrimFloat.float;
  Batch := PrimFloat.float;
  Logit := PrimFloat.float;
  loader k := [Return (tenths 1); Return (tenths 2); Return (tenths 3)];
  forward w b := Return [PrimFloat.mul w b];
  criterion l b := Return (Dual l {[ 1%positive := b ]});
  autograd L := None;
  sgd_step gs w g := Return w;
  clock n := of_Z (Z.of_nat n);
  meter_value l := List.last l (of_Z 0)
|}.

(** One outer iteration of three sub-iterations. *)
Definition cfg : config PrimFloat.float :=
  Config (tenths 1) (of_Z 0) (tenths 9) (tenths 9) 1 1 3 1 1 "out".

Definition sgd : optimizer PrimFloat.float :=
  match make_optimizer cfg Fixture.net with
  | Return opt => opt
  | Raise _ => Optimizer []
  end.

(** The state before and after the outer iteration, for the weight
    [1.0]. *)
Definition s0 : @state PrimFloat.float world :=
  @init_state PrimFloat.float double_float world sgd (of_Z 1).

Definition s1 : @state PrimFloat.float world :=
  (@outer_iteration PrimFloat.float double_float world cfg 1 s0).2.

(** The losses of the three sub-iterations, summed over the one scale,
    with their gradients. *)
Definition losses : list (dual PrimFloat.float) :=
  [ Dual (tenths 1) {[ 1%positive := tenths 1 ]};
    Dual (tenths 2) {[ 1%positive := tenths 2 ]};
    Dual (tenths 3) {[ 1%positive := tenths 3 ]} ].

End Binary64.

(** ** Fixtures for the further properties *)

Module Fixture2.
Import Fixture.

(** An optimizer with the base group alone. *)
Definition one_group : optimizer Q := Optimizer (take 1 (param_groups sgd)).

(** A network that returns no logits. *)
Definition silent : World Q := {|
  Weights := Q;
  Batch := Q;
  Logit := Q * Q;
  loader := two_samples;
  forward w b := Return [];
  criterion := @criterion Q (world two_samples);
  autograd L := None;
  sgd_step gs w g := Return w;
  clock n := inject_Z (Z.of_nat n);
  meter_value := mean_last20
|}.

(** The run on two samples, two outer iterations of two
    sub-iterations, from the state in which the loop is entered. *)
Definition whole : outcome unit * @state Q (world two_samples) :=
  @train Q Q_float (world two_samples) (cfg 2 2) s0.

End Fixture2.

(** ** Further definitions *)

Section MoreDefinitions.
Context {F : Type} `{PyFloat F} `{World F}.

(** The three assignments of lines 55-57. *)
Definition assign_rates (x : F) : M (optimizer F) unit :=
  run! set_lr 0 x in
  run! set_lr 1 (fmul (float_of_Z 10) x) in
  set_lr 2 (fmul (float_of_Z 20) x).

(** The optimizer is the same in both states. *)
Definition same_optim (s s' : state) : Prop := optim s' = optim s.

(** The three rates are in the ratio 1 : 10 : 20. *)
Definition rates_in_ratio (opt : optimizer F) : Prop :=
  length (param_groups opt) = 3%nat /\
  exists x : F,
    lr_of opt 0 = Some (VFloat x) /\
    lr_of opt 1 = Some (VFloat (fmul (float_of_Z 10) x)) /\
    lr_of opt 2 = Some (VFloat (fmul (float_of_Z 20) x)).

(** [n] pulls in a row, as [n] sub-iterations make them. *)
Fixpoint pulls (n : nat) : M state (list Batch) :=
  match n with
  | O => ret []
  | S n' => let! b := pull in let! bs := pulls n' in ret (b :: bs)
  end.

(** The four scalars of one logging step, for a base rate [x]. *)
Definition scalars (k : Z) (loss x : F) : list (string * pyval F * Z) :=
  [ ("train_loss", VFloat loss, k);
    ("train_lr_group0", VFloat x, k);
    ("train_lr_group1", VFloat (fmul (float_of_Z 10) x), k);
    ("train_lr_group2", VFloat (fmul (float_of_Z 20) x), k) ].

(** Collaborators that do not fail: every iterator of the loader has a
    batch and delivers batches only, the network returns at least one
    logit for every batch of the loader, and the loss, the backward pass
    and the optimizer step always return. *)
Definition well_behaved : Prop :=
  (forall k, loader k ≠ []) /\
  (forall k o, o ∈ loader k -> exists b, o = Return b) /\
  (forall k b w, Return b ∈ loader k ->
     exists l ls, forward w b = Return (l :: ls)) /\
  (forall l b, exists t, criterion l b = Return t) /\
  (forall L, autograd L = None) /\
  (forall gs w g, exists w', sgd_step gs w g = Return w').

(** What the constructor of the optimizer asks for: a momentum that is
    not negative, a bias for every ASPP convolution, and no tensor in two
    groups. *)
Definition groups_accepted (cfg : config F) (mdl : model) : Prop :=
  flt (MOMENTUM cfg) (float_of_Z 0) = false /\
  (None ∉ get_params mdl "20x") /\
  (forall p, p ∈ get_params mdl "10x" -> p ∉ get_params mdl "1x") /\
  (forall p, p ∈ get_params mdl "20x" ->
     (p ∉ get_params mdl "1x") /\ (p ∉ get_params mdl "10x")).

(** A configuration with which the loop can run. *)
Definition sane (cfg : config F) : Prop :=
  1 <= ITER_MAX cfg /\ 1 <= ITER_SIZE cfg /\
  LR_DECAY cfg ≠ 0 /\ ITER_TB cfg ≠ 0 /\ ITER_SAVE cfg ≠ 0.

(** The power of the scheduler is defined wherever the run evaluates
    it. *)
Definition powers_defined (cfg : config F) : Prop :=
  forall k, 1 <= k <= ITER_MAX cfg -> (LR_DECAY cfg | k - 1) ->
    exists q, fpow (base (k - 1) (ITER_MAX cfg)) (POLY_POWER cfg) = Return q.

(** What remains of the current iterator are batches of the loader. *)
Definition good_iter (s : state) : Prop :=
  Forall (fun o => exists k b, o = Return b /\ Return b ∈ loader k)
         (loader_iter s).

End MoreDefinitions.

(** * Theorems *)

Example str_in_layer : str_in "layer" "scale.layer2.block1.conv" = true.
Proof. reflexivity. Qed.

(** ** The parameter grouper *)

Section Grouper.
Implicit Types (mdl : model) (t : tensor) (x : option tensor).

Lemma elem_of_yield_from tag pick mdl x :
  x ∈ yield_from tag pick mdl <->
  exists i name m, mdl !! i = Some (name, m) /\ str_in tag name = true /\
                   is_conv2d m = true /\ x ∈ pick m.
Proof.
  unfold yield_from. induction mdl as [|[name m] mdl IH]; simpl.
  - split; [intros Hx; inversion Hx | intros (i & ? & ? & Hi & _); done].
  - rewrite elem_of_app, IH. split.
    + intros [Hx | (i & n' & m' & Hi & ?)].
      * exists 0%nat, name, m. simpl.
        destruct (str_in tag name), (is_conv2d m); simpl in Hx;
          try (by inversion Hx). done.
      * by exists (S i), n', m'.
    + intros ([|i] & n' & m' & Hi & Htag & Hconv & Hx); simpl in Hi.
      * injection Hi as <- <-. left. by rewrite Htag, Hconv.
      * right. by exists i, n', m'.
Qed.

Lemma elem_of_yield_from_name tag pick mdl x :
  x ∈ yield_from tag pick mdl <->
  exists name m, (name, m) ∈ mdl /\ str_in tag name = true /\
                 is_conv2d m = true /\ x ∈ pick m.
Proof.
  rewrite elem_of_yield_from. split.
  - intros (i & name & m & Hi & ?). exists name, m.
    split; [by eapply list_elem_of_lookup_2 | done].
  - intros (name & m & Hin & ?).
    apply list_elem_of_lookup_1 in Hin as [i Hi]. by exists i, name, m.
Qed.

(** The ASPP biases are the tensors of the ["20x"] sequence. *)
Lemma aspp_bias_20x mdl t :
  aspp_bias mdl t <-> Some t ∈ yield_from "aspp" bias_of mdl.
Proof.
  rewrite elem_of_yield_from_name. split.
  - intros (name & w & Hin & Ha). exists name, (Conv2d w (Some t)).
    repeat split; try done. simpl. by apply list_elem_of_singleton.
  - intros (name & [w b|] & Hin & Ha & _ & Hx); simpl in Hx.
    + apply list_elem_of_singleton in Hx as <-. by exists name, w.
    + by apply elem_of_nil in Hx.
Qed.

Lemma elem_of_conv_tensors mdl i name m x :
  mdl !! i = Some (name, m) -> x ∈ parameters m -> x ∈ conv_tensors mdl.
Proof.
  unfold conv_tensors. revert i. induction mdl as [|a mdl IH]; intros i Hi Hx.
  - done.
  - simpl. apply elem_of_app. destruct i as [|i]; simpl in Hi.
    + injection Hi as ->. by left.
    + right. by eapply IH.
Qed.

(** A tensor that no two modules share sits at one place of the
    enumeration. *)
Lemma conv_tensors_place mdl i j a b x :
  NoDup (conv_tensors mdl) ->
  mdl !! i = Some a -> mdl !! j = Some b ->
  x ∈ parameters a.2 -> x ∈ parameters b.2 -> i = j.
Proof.
  unfold conv_tensors. revert i j.
  induction mdl as [|c mdl IH]; intros i j Hnd Hi Hj Ha Hb; [done|].
  simpl in Hnd. apply NoDup_app in Hnd as (_ & Hdisj & Hnd).
  destruct i as [|i], j as [|j]; simpl in Hi, Hj.
  - done.
  - injection Hi as ->. exfalso. apply (Hdisj x Ha).
    destruct b as [nb mb]. by eapply elem_of_conv_tensors.
  - injection Hj as ->. exfalso. apply (Hdisj x Hb).
    destruct a as [na ma]. by eapply elem_of_conv_tensors.
  - f_equal. by eapply IH.
Qed.

Lemma weight_is_parameter m x : x ∈ weight_of m -> x ∈ parameters m.
Proof.
  destruct m as [w [b|]|]; simpl; intros Hx; [| done | done].
  apply list_elem_of_singleton in Hx as ->. by left.
Qed.

Lemma bias_is_parameter m t : Some t ∈ bias_of m -> Some t ∈ parameters m.
Proof.
  destruct m as [w [b|]|]; simpl; intros Hx.
  - apply list_elem_of_singleton in Hx as ->. right. by left.
  - by apply list_elem_of_singleton in Hx.
  - by apply elem_of_nil in Hx.
Qed.

Lemma weight_not_bias m t :
  NoDup (parameters m) -> Some t ∈ weight_of m -> Some t ∈ bias_of m -> False.
Proof.
  destruct m as [w [b|]|]; simpl; intros Hnd Hw Hb.
  - apply list_elem_of_singleton in Hw, Hb. simplify_eq.
    apply NoDup_cons in Hnd as [Hnd _]. apply Hnd. by left.
  - by apply list_elem_of_singleton in Hb.
  - by apply elem_of_nil in Hw.
Qed.

Lemma conv_tensors_module mdl i a :
  NoDup (conv_tensors mdl) -> mdl !! i = Some a -> NoDup (parameters a.2).
Proof.
  unfold conv_tensors. revert i. induction mdl as [|c mdl IH]; intros i Hnd Hi.
  - done.
  - simpl in Hnd. apply NoDup_app in Hnd as (Hc & _ & Hnd).
    destruct i as [|i]; simpl in Hi.
    + by injection Hi as ->.
    + by eapply IH.
Qed.

Lemma get_params_1x mdl :
  get_params mdl "1x" = yield_from "layer" parameters mdl.
Proof. unfold get_params. simpl. by rewrite app_nil_r. Qed.

Lemma get_params_10x mdl :
  get_params mdl "10x" = yield_from "aspp" weight_of mdl.
Proof. unfold get_params. simpl. by rewrite app_nil_r. Qed.

Lemma get_params_20x mdl :
  get_params mdl "20x" = yield_from "aspp" bias_of mdl.
Proof. unfold get_params. by simpl. Qed.

Lemma get_params_other mdl key :
  key ≠ "1x" -> key ≠ "10x" -> key ≠ "20x" -> get_params mdl key = [].
Proof.
  intros H1 H2 H3. unfold get_params.
  apply String.eqb_neq in H1, H2, H3. by rewrite H1, H2, H3.
Qed.

Lemma yield_from_nil tag pick mdl :
  (forall name m, (name, m) ∈ mdl -> str_in tag name = true ->
                  is_conv2d m = false) ->
  yield_from tag pick mdl = [].
Proof.
  unfold yield_from. induction mdl as [|[name m] mdl IH]; intros Hno; [done|].
  simpl. rewrite IH.
  - destruct (str_in tag name) eqn:Htag; [|done].
    rewrite (Hno name m); [done | by left | done].
  - intros n' m' Hin. apply Hno. by right.
Qed.

(** C8, amended.  For a model in which no convolution has both
    ["layer"] and ["aspp"] in its name and no two parameters are the
    same tensor, the sequences of the three keys are pairwise disjoint;
    and for any model in which no convolution matches a key the
    sequence of that key is empty ([get_params] is total: it never
    raises). *)
Theorem get_params_disjoint mdl :
  (names_apart mdl -> NoDup (conv_tensors mdl) ->
   forall t,
     ~ (Some t ∈ get_params mdl "1x" /\ Some t ∈ get_params mdl "10x") /\
     ~ (Some t ∈ get_params mdl "1x" /\ Some t ∈ get_params mdl "20x") /\
     ~ (Some t ∈ get_params mdl "10x" /\ Some t ∈ get_params mdl "20x")) /\
  (no_match "layer" mdl -> get_params mdl "1x" = []) /\
  (no_match "aspp" mdl ->
   get_params mdl "10x" = [] /\ get_params mdl "20x" = []).
Proof.
  split; [|split].
  - intros Hnames Hnd t.
    rewrite get_params_1x, get_params_10x, get_params_20x.
    repeat split.
    + intros [(i & n1 & m1 & Hi & Hl & Hc1 & H1)%elem_of_yield_from
              (j & n2 & m2 & Hj & Ha & Hc2 & H2)%elem_of_yield_from].
      apply weight_is_parameter in H2.
      assert (i = j) as ->
        by (eapply (conv_tensors_place mdl i j (n1, m1) (n2, m2)); eauto).
      rewrite Hi in Hj. injection Hj as <- <-.
      eapply (Hnames n1 m1); eauto. by eapply list_elem_of_lookup_2.
    + intros [(i & n1 & m1 & Hi & Hl & Hc1 & H1)%elem_of_yield_from
              (j & n2 & m2 & Hj & Ha & Hc2 & H2)%elem_of_yield_from].
      apply bias_is_parameter in H2.
      assert (i = j) as ->
        by (eapply (conv_tensors_place mdl i j (n1, m1) (n2, m2)); eauto).
      rewrite Hi in Hj. injection Hj as <- <-.
      eapply (Hnames n1 m1); eauto. by eapply list_elem_of_lookup_2.
    + intros [(i & n1 & m1 & Hi & _ & Hc1 & H1)%elem_of_yield_from
              (j & n2 & m2 & Hj & _ & Hc2 & H2)%elem_of_yield_from].
      assert (i = j) as ->.
      { eapply (conv_tensors_place mdl i j (n1, m1) (n2, m2)); eauto.
        - by apply weight_is_parameter.
        - by apply bias_is_parameter. }
      rewrite Hi in Hj. injection Hj as <- <-.
      eapply (weight_not_bias m1 t); eauto.
      by eapply (conv_tensors_module mdl j (n1, m1)).
  - intros Hno. rewrite get_params_1x. by apply yield_from_nil.
  - intros Hno. rewrite get_params_10x, get_params_20x.
    split; by apply yield_from_nil.
Qed.
End Grouper.

(** ** The scheduler *)

Section SchedulerFacts.
Context {F : Type} `{PyFloat F}.
Implicit Types (opt : optimizer F) (g : param_group F).

Lemma same_but_lr_refl g : same_but_lr g g.
Proof. by intros k _. Qed.

Lemma same_but_lr_trans g1 g2 g3 :
  same_but_lr g1 g2 -> same_but_lr g2 g3 -> same_but_lr g1 g3.
Proof. intros H12 H23 k Hk. by rewrite H23, H12. Qed.

Lemma lr_only_refl opt : lr_only opt opt.
Proof. apply Forall2_same_length_lookup. split; [done|].
  intros i g g' Hg Hg'. rewrite Hg in Hg'. injection Hg' as <-.
  apply same_but_lr_refl. Qed.

Lemma lr_only_trans opt1 opt2 opt3 :
  lr_only opt1 opt2 -> lr_only opt2 opt3 -> lr_only opt1 opt3.
Proof.
  unfold lr_only. intros H12 H23.
  eapply Forall2_trans; [| exact H12 | exact H23].
  apply same_but_lr_trans.
Qed.

Lemma set_lr_lr_only i x opt : lr_only opt (set_lr i x opt).2.
Proof.
  unfold set_lr, lr_only.
  destruct (param_groups opt !! i) as [g|] eqn:Hi; cbn [snd param_groups].
  - apply Forall2_same_length_lookup. split.
    + by rewrite length_insert.
    + intros j g1 g2 Hg1 Hg2.
      destruct (decide (i = j)) as [->|Hne].
      * rewrite list_lookup_insert_eq in Hg2
          by (by eapply lookup_lt_Some).
        simplify_eq. intros k Hk. by rewrite lookup_insert_ne.
      * rewrite list_lookup_insert_ne in Hg2 by done.
        simplify_eq. apply same_but_lr_refl.
  - apply lr_only_refl.
Qed.

Lemma set_lr_returns i x opt opt' :
  set_lr i x opt = (Return tt, opt') ->
  lr_of opt' i = Some (VFloat x) /\
  length (param_groups opt') = length (param_groups opt) /\
  forall j, j ≠ i -> param_groups opt' !! j = param_groups opt !! j.
Proof.
  unfold set_lr, lr_of.
  destruct (param_groups opt !! i) as [g|] eqn:Hi; [|done].
  intros [= <-]. simpl. split; [|split].
  - rewrite list_lookup_insert_eq by (by eapply lookup_lt_Some).
    simpl. by rewrite lookup_insert_eq.
  - by rewrite length_insert.
  - intros j Hj. by rewrite list_lookup_insert_ne.
Qed.

Lemma set_lr_total i x opt :
  (i < length (param_groups opt))%nat ->
  exists opt', set_lr i x opt = (Return tt, opt').
Proof.
  intros Hi. unfold set_lr.
  destruct (lookup_lt_is_Some_2 _ _ Hi) as [g ->]. eauto.
Qed.

Lemma skips_false iter d m :
  d ≠ 0 -> skips iter d m = false <-> (d | iter) /\ iter <= m.
Proof.
  intros Hd. unfold skips.
  rewrite orb_false_iff, negb_false_iff, Z.eqb_eq, Z.gtb_ltb, Z.ltb_ge.
  by rewrite Z.mod_divide.
Qed.

(** What the three assignments of a call that goes through leave. *)
Lemma three_assignments x opt opt' :
  (run! set_lr 0 x in
   run! set_lr 1 (fmul (float_of_Z 10) x) in
   set_lr 2 (fmul (float_of_Z 20) x)) opt = (Return tt, opt') ->
  lr_of opt' 0 = Some (VFloat x) /\
  lr_of opt' 1 = Some (VFloat (fmul (float_of_Z 10) x)) /\
  lr_of opt' 2 = Some (VFloat (fmul (float_of_Z 20) x)).
Proof.
  unfold bind.
  destruct (set_lr 0 x opt) as [[[]|e] o1] eqn:E1; [|done].
  destruct (set_lr 1 _ o1) as [[[]|e] o2] eqn:E2; [|done].
  intros E3.
  apply set_lr_returns in E1 as (L1 & _ & _).
  apply set_lr_returns in E2 as (L2 & _ & K2).
  apply set_lr_returns in E3 as (L3 & _ & K3).
  unfold lr_of in *. repeat split.
  - rewrite K3, K2 by done. exact L1.
  - rewrite K3 by done. exact L2.
  - exact L3.
Qed.

Lemma three_assignments_total x opt :
  (3 <= length (param_groups opt))%nat ->
  exists opt',
    (run! set_lr 0 x in
     run! set_lr 1 (fmul (float_of_Z 10) x) in
     set_lr 2 (fmul (float_of_Z 20) x)) opt = (Return tt, opt').
Proof.
  intros Hlen. unfold bind.
  destruct (set_lr_total 0 x opt) as [o1 E1]; [lia|]. rewrite E1.
  pose proof (set_lr_returns _ _ _ _ E1) as (_ & Hl1 & _).
  destruct (set_lr_total 1 (fmul (float_of_Z 10) x) o1) as [o2 E2]; [lia|].
  rewrite E2.
  pose proof (set_lr_returns _ _ _ _ E2) as (_ & Hl2 & _).
  destruct (set_lr_total 2 (fmul (float_of_Z 20) x) o2) as [o3 E3]; [lia|].
  eauto.
Qed.

Lemma fired_assignments init iter d m p opt opt' new_lr :
  fired init iter d m p opt opt' new_lr ->
  (run! set_lr 0 new_lr in
   run! set_lr 1 (fmul (float_of_Z 10) new_lr) in
   set_lr 2 (fmul (float_of_Z 20) new_lr)) opt = (Return tt, opt').
Proof.
  intros (Hd & Hs & Hp & Hr). unfold poly_lr_scheduler in Hr.
  apply Z.eqb_neq in Hd. by rewrite Hd, Hs, Hp in Hr.
Qed.

Lemma poly_lr_returns init iter m p new_lr :
  poly_lr init iter m p = Return new_lr ->
  m ≠ 0 /\
  exists q,
    fpow (fsub (float_of_Z 1) (fdiv (float_of_Z iter) (float_of_Z m))) p
      = Return q /\
    new_lr = fmul init q.
Proof.
  unfold poly_lr. destruct (m =? 0) eqn:Hm; [done|].
  apply Z.eqb_neq in Hm.
  destruct (fpow _ p) as [q|e]; [|done].
  intros [= <-]. eauto.
Qed.

(** C3.  Immediately after a scheduler update that fires, the learning
    rates of the three groups satisfy [group2_lr = 10 * group1_lr] and
    [group3_lr = 20 * group1_lr].  This holds for every float
    arithmetic: the three values are computed from the one [new_lr]. *)
Theorem group_rates_after_update init iter d m p opt opt' new_lr :
  fired init iter d m p opt opt' new_lr ->
  exists group1_lr : F,
    lr_of opt' 0 = Some (VFloat group1_lr) /\
    lr_of opt' 1 = Some (VFloat (fmul (float_of_Z 10) group1_lr)) /\
    lr_of opt' 2 = Some (VFloat (fmul (float_of_Z 20) group1_lr)).
Proof.
  intros Hf. exists new_lr.
  apply (three_assignments new_lr opt opt').
  by apply (fired_assignments init iter d m p).
Qed.

(** C9.  A call of the scheduler, whatever its arguments and whether it
    returns, fires or raises, changes nothing but the ["lr"] entry of the
    first three groups: the number of groups is kept, every other key of
    every group (in particular ["params"], ["weight_decay"] and
    ["momentum"]) reads as before, and the groups after the third are
    untouched. *)
Theorem scheduler_frame init iter d m p opt :
  let opt' := (poly_lr_scheduler init iter d m p opt).2 in
  lr_only opt opt' /\
  length (param_groups opt') = length (param_groups opt) /\
  (forall i g, param_groups opt !! i = Some g ->
     exists g', param_groups opt' !! i = Some g' /\
                g' !! "params" = g !! "params" /\
                g' !! "weight_decay" = g !! "weight_decay" /\
                g' !! "momentum" = g !! "momentum") /\
  (forall i, (3 <= i)%nat ->
     param_groups opt' !! i = param_groups opt !! i).
Proof.
  intros opt'.
  assert (Hlr : lr_only opt opt').
  { subst opt'. unfold poly_lr_scheduler.
    destruct (d =? 0); [apply lr_only_refl|].
    destruct (skips iter d m); [apply lr_only_refl|].
    destruct (poly_lr init iter m p) as [x|e]; [|apply lr_only_refl].
    unfold bind.
    pose proof (set_lr_lr_only 0 x opt) as H1.
    destruct (set_lr 0 x opt) as [[[]|e] o1]; [|exact H1].
    pose proof (set_lr_lr_only 1 (fmul (float_of_Z 10) x) o1) as H2.
    destruct (set_lr 1 _ o1) as [[[]|e] o2];
      [| exact (lr_only_trans _ _ _ H1 H2)].
    pose proof (set_lr_lr_only 2 (fmul (float_of_Z 20) x) o2) as H3.
    exact (lr_only_trans _ _ _ H1 (lr_only_trans _ _ _ H2 H3)). }
  split; [exact Hlr|]. split; [|split].
  - symmetry. by eapply Forall2_length.
  - intros i g Hg.
    destruct (Forall2_lookup_l _ _ _ _ _ Hlr Hg) as (g' & Hg' & Hsame).
    exists g'. split; [done|]. by rewrite !Hsame.
  - intros i Hi. subst opt'. unfold poly_lr_scheduler.
    destruct (d =? 0); [done|]. destruct (skips iter d m); [done|].
    destruct (poly_lr init iter m p) as [x|e]; [|done].
    unfold bind, set_lr.
    destruct (param_groups opt !! 0%nat) as [g0|]; [|done]. simpl.
    destruct (_ !! 1%nat) as [g1|]; [|simpl; by rewrite list_lookup_insert_ne by lia].
    simpl.
    destruct (_ !! 2%nat) as [g2|]; simpl;
      by rewrite ?list_lookup_insert_ne by lia.
Qed.

(** C2, amended.  For a decay interval that is not zero: the scheduler
    returns nothing and leaves the optimizer as it is unless
    [current_iter] is a multiple of the interval and
    [current_iter <= max_iter]; at [current_iter = 0] it fires whenever
    [max_iter > 0] and the optimizer has its three groups; and when it
    fires the base group's rate is
    [base_lr * (1 - current_iter / max_iter) ** power]. *)
Theorem scheduler_guard `{!FloatUnit F} init iter d m p opt :
  d ≠ 0 ->
  (~ ((d | iter) /\ iter <= m) ->
     poly_lr_scheduler init iter d m p opt = (Return tt, opt)) /\
  (iter = 0 -> 0 < m -> (3 <= length (param_groups opt))%nat ->
     exists opt' new_lr, fired init iter d m p opt opt' new_lr) /\
  (forall opt' new_lr, fired init iter d m p opt opt' new_lr ->
     lr_of opt' 0 = Some (VFloat new_lr) /\
     exists q,
       fpow (fsub (float_of_Z 1) (fdiv (float_of_Z iter) (float_of_Z m))) p
         = Return q /\
       new_lr = fmul init q).
Proof.
  intros Hd. split; [|split].
  - intros Hno. unfold poly_lr_scheduler.
    apply Z.eqb_neq in Hd as Hd'. rewrite Hd'.
    destruct (skips iter d m) eqn:Hs; [done|].
    by apply skips_false in Hs.
  - intros -> Hm Hlen.
    assert (Hp : poly_lr init 0 m p = Return (fmul init (float_of_Z 1))).
    { unfold poly_lr. destruct (m =? 0) eqn:E; [lia|].
      rewrite fdiv_zero_l by lia. by rewrite fsub_zero_r, fpow_one_l. }
    assert (Hs : skips 0 d m = false).
    { apply skips_false; [done|]. split; [apply Z.divide_0_r | lia]. }
    destruct (three_assignments_total (fmul init (float_of_Z 1)) opt Hlen)
      as [opt' Hopt'].
    exists opt', (fmul init (float_of_Z 1)). repeat split; try done.
    unfold poly_lr_scheduler. apply Z.eqb_neq in Hd. by rewrite Hd, Hs, Hp.
  - intros opt' new_lr Hf. split.
    + apply (three_assignments new_lr opt opt').
      by apply (fired_assignments init iter d m p).
    + destruct Hf as (_ & _ & Hp & _).
      by apply poly_lr_returns in Hp as (_ & Hq).
Qed.
End SchedulerFacts.

Section Monotone.
Context {F : Type} `{OrderedFloat F}.

Lemma base_anti i j m : 0 < m -> i <= j -> fle (base j m) (base i m).
Proof.
  intros Hm Hij. unfold base.
  apply fsub_anti, fdiv_mono; [done|]. by apply float_of_Z_mono.
Qed.

Lemma base_nonneg j m : 0 < m -> j <= m -> fle (float_of_Z 0) (base j m).
Proof.
  intros Hm Hj. unfold base. rewrite <- fsub_same.
  apply fsub_anti. rewrite <- (fdiv_same m) by done.
  apply fdiv_mono; [done|]. by apply float_of_Z_mono.
Qed.

End Monotone.

(** ** The fixture's arithmetic obeys the laws *)

Module FixtureLaws.
Import Fixture.

Lemma Qpos_monotone (x y : Q) (n : positive) :
  (0 <= x)%Q -> (x <= y)%Q ->
  (Qpower_positive x n <= Qpower_positive y n)%Q.
Proof.
  intros Hx Hxy. induction n as [|n IH] using Pos.peano_ind.
  - exact Hxy.
  - rewrite <- !Pos.add_1_r, !Qpower_plus_positive.
    apply Qmult_le_compat_nonneg; (split; [|done]).
    + by apply Qpower_pos_positive.
    + exact Hx.
Qed.

Lemma Qpos_one (n : positive) : (Qpower_positive 1 n == 1)%Q.
Proof.
  induction n as [|n IH] using Pos.peano_ind; [reflexivity|].
  rewrite <- Pos.add_1_r, Qpower_plus_positive, IH. reflexivity.
Qed.

#[export] Instance Q_unit : FloatUnit Q.
Proof.
  split.
  - intros m Hm. simpl. replace (inject_Z 0) with (Qred 0) at 2 by reflexivity.
    apply Qred_complete. unfold Qdiv. ring.
  - reflexivity.
  - intros p. reflexivity.
Qed.

#[export] Instance Q_exact : ExactArith Q.
Proof.
  split; simpl.
  - intros a b c. apply Qred_complete. rewrite !Qred_correct. ring.
  - intros a b n. apply Qred_complete. rewrite !Qred_correct.
    unfold Qdiv. ring.
  - intros n. replace (inject_Z 0) with (Qred 0) at 2 by reflexivity.
    apply Qred_complete. unfold Qdiv. ring.
Qed.

Lemma Qpow_monotone (x y p a b : Q) :
  (0 <= x)%Q -> (x <= y)%Q -> ~ (p <= 0)%Q ->
  Qpow x p = Return a -> Qpow y p = Return b -> (a <= b)%Q.
Proof.
  intros Hx Hxy Hp%Qnot_le_lt. unfold Qpow.
  assert (Hnum : 0 < Qnum (Qred p)).
  { rewrite <- (Qred_correct p) in Hp. unfold Qlt in Hp. simpl in Hp. lia. }
  destruct (Qeq_bool x 1) eqn:Ex, (Qeq_bool y 1) eqn:Ey.
  - by intros [= <-] [= <-].
  - apply Qeq_bool_eq in Ex. intros [= <-].
    destruct (Qden (Qred p) =? 1)%positive.
    + destruct (Qeq_bool y 0 && _); [done|]. intros [= <-].
      rewrite Qred_correct. apply Qpower_1_le; [|lia]. by rewrite <- Ex.
    + destruct (Qeq_bool y 0) eqn:Ey0; simpl; [|done].
      apply Qeq_bool_eq in Ey0. rewrite Ey0, Ex in Hxy. by compute in Hxy.
  - apply Qeq_bool_eq in Ey.
    destruct (Qden (Qred p) =? 1)%positive.
    + destruct (Qeq_bool x 0 && _); [done|]. intros [= <-] [= <-].
      rewrite Qred_correct.
      destruct (Qnum (Qred p)) as [|n|n] eqn:En; try lia. simpl.
      rewrite <- (Qpos_one n). apply Qpos_monotone; [done|].
      by rewrite <- Ey.
    + destruct (Qeq_bool x 0 && Qle_bool 0 p); [|done].
      by intros [= <-] [= <-].
  - destruct (Qden (Qred p) =? 1)%positive.
    + destruct (Qeq_bool x 0 && _); [done|].
      destruct (Qeq_bool y 0 && _); [done|].
      intros [= <-] [= <-]. apply Qred_le.
      destruct (Qnum (Qred p)) as [|n|n] eqn:En; try lia. simpl.
      by apply Qpos_monotone.
    + destruct (Qeq_bool x 0 && Qle_bool 0 p); [|done].
      destruct (Qeq_bool y 0 && Qle_bool 0 p); [|done].
      by intros [= <-] [= <-].
Qed.

#[export] Instance Q_ordered : OrderedFloat Q.
Proof.
  split; unfold fle, Q_order; simpl.
  - intros a b Hab. by rewrite <- Zle_Qle.
  - intros a b m Hm Hab. rewrite !Qred_correct. unfold Qdiv.
    apply Qmult_le_compat_r; [done|].
    apply Qinv_le_0_compat. replace 0%Q with (inject_Z 0) by done.
    rewrite <- Zle_Qle. lia.
  - intros m Hm. replace (inject_Z 1) with (Qred 1) by reflexivity.
    apply Qred_complete. field.
    intros Hz. unfold Qeq in Hz. simpl in Hz. lia.
  - intros a b c Hab. rewrite !Qred_correct.
    unfold Qminus. apply Qplus_le_compat; [apply Qle_refl|].
    by apply Qopp_le_compat.
  - reflexivity.
  - exact Qpow_monotone.
  - intros c a b Hc Hab. rewrite !Qred_correct.
    rewrite !(Qmult_comm c). by apply Qmult_le_compat_r.
Qed.
End FixtureLaws.

(** ** Running computations *)

Section Monad.
Context {S : Type}.

Lemma bind_returns {A B} (m : M S A) (k : A -> M S B) s b s' :
  bind m k s = (Return b, s') <->
  exists a s1, m s = (Return a, s1) /\ k a s1 = (Return b, s').
Proof.
  unfold bind. destruct (m s) as [[a|e] s1]; split.
  - intros Hk. by exists a, s1.
  - by intros (a' & s1' & [= <- <-] & Hk).
  - done.
  - by intros (a' & s1' & [=] & _).
Qed.

Lemma bind_raises {A B} (m : M S A) (k : A -> M S B) s e s' :
  m s = (Raise e, s') -> bind m k s = (Raise e, s').
Proof. unfold bind. by intros ->. Qed.

Lemma bind_raises_inv {A B} (m : M S A) (k : A -> M S B) s e s' :
  bind m k s = (Raise e, s') ->
  m s = (Raise e, s') \/
  exists a s1, m s = (Return a, s1) /\ k a s1 = (Raise e, s').
Proof.
  unfold bind. destruct (m s) as [[a|e1] s1]; intros Hk.
  - right. eauto.
  - injection Hk as -> ->. by left.
Qed.

Lemma for_each_app {A} (xs ys : list A) (body : A -> M S unit) s :
  for_each (xs ++ ys) body s =
  bind (for_each xs body) (fun _ => for_each ys body) s.
Proof.
  revert s. induction xs as [|x xs IH]; intros s; simpl.
  - done.
  - unfold bind. destruct (body x s) as [[[]|e] s1]; [|done].
    rewrite IH. done.
Qed.

(** An exception leaves the loop at once: the iterations after it do
    not run. *)
Lemma for_each_aborts {A} (pre post : list A) (x : A)
    (body : A -> M S unit) s0 s e s' :
  for_each pre body s0 = (Return tt, s) ->
  body x s = (Raise e, s') ->
  for_each (pre ++ x :: post) body s0 = (Raise e, s').
Proof.
  intros Hpre Hx. rewrite for_each_app. unfold bind. rewrite Hpre.
  simpl. unfold bind. by rewrite Hx.
Qed.

Context (R : S -> S -> Prop) `{!PreOrder R}.

Lemma keeps_ret {A} (a : A) : keeps R (ret a).
Proof. intros s. simpl. reflexivity. Qed.

Lemma keeps_raise {A} e : keeps R (raise (A:=A) e).
Proof. intros s. simpl. reflexivity. Qed.

Lemma keeps_bind {A B} (m : M S A) (k : A -> M S B) :
  keeps R m -> (forall a, keeps R (k a)) -> keeps R (bind m k).
Proof.
  intros Hm Hk s. unfold bind. specialize (Hm s).
  destruct (m s) as [[a|e] s1]; simpl in *; [|done].
  etrans; [exact Hm | apply Hk].
Qed.

Lemma keeps_try_except {A} (m h : M S A) :
  keeps R m -> keeps R h -> keeps R (try_except m h).
Proof.
  intros Hm Hh s. unfold try_except. specialize (Hm s).
  destruct (m s) as [[a|e] s1]; simpl in *; [done|].
  etrans; [exact Hm | apply Hh].
Qed.

Lemma keeps_for_each {A} (xs : list A) (body : A -> M S unit) :
  (forall x, keeps R (body x)) -> keeps R (for_each xs body).
Proof.
  intros Hb. induction xs as [|x xs IH]; simpl.
  - apply keeps_ret.
  - by apply keeps_bind.
Qed.

Lemma keeps_modify (f : S -> S) : (forall s, R s (f s)) -> keeps R (modify f).
Proof. intros Hf s. apply Hf. Qed.
End Monad.

Lemma range1_length n : length (range1 n) = Z.to_nat n.
Proof. unfold range1. by rewrite length_map, length_seq. Qed.

Lemma range1_succ n : 0 <= n -> range1 (n + 1) = range1 n ++ [n + 1].
Proof.
  intros Hn. unfold range1.
  replace (Z.to_nat (n + 1)) with (Z.to_nat n + 1)%nat by lia.
  rewrite seq_app, map_app. simpl. do 3 f_equal. lia.
Qed.

Lemma elem_of_range1 n k : k ∈ range1 n <-> 1 <= k <= n.
Proof.
  unfold range1. rewrite list_elem_of_fmap. split.
  - intros (i & -> & Hi%elem_of_seq). lia.
  - intros Hk. exists (Z.to_nat (k - 1)). split; [lia|].
    apply elem_of_seq. lia.
Qed.

(** ** The data pull *)

Section Pull.
Context {F : Type} `{PyFloat F} `{World F}.
Implicit Types s : state.

Lemma next_batch_frame s r s1 :
  next_batch s = (r, s1) -> s1 = set_loader (loader_iter s1) (epochs s) s.
Proof.
  unfold next_batch. destruct s as [it ? ? ? ? ? ? ? ? ? ? ? ?]; simpl.
  destruct it as [|[b|e] rest]; by intros [= <- <-].
Qed.

Lemma pull_first s b s1 :
  next_batch s = (Return b, s1) -> pull s = (Return b, s1).
Proof. unfold pull, try_except. by intros ->. Qed.

Lemma pull_retry s e s1 :
  next_batch s = (Raise e, s1) -> pull s = next_batch (restarted s1).
Proof. unfold pull, try_except, bind, restart, restarted. by intros ->. Qed.

Lemma pull_frame s r s1 :
  pull s = (r, s1) -> s1 = set_loader (loader_iter s1) (epochs s1) s.
Proof.
  unfold pull, try_except.
  destruct (next_batch s) as [[b|e] s2] eqn:E1.
  - intros [= <- <-]. apply next_batch_frame in E1 as E.
    assert (He : epochs s2 = epochs s) by (by rewrite E).
    by rewrite He.
  - unfold bind, restart. intros E2.
    apply next_batch_frame in E1, E2. simpl in E2.
    assert (He : epochs s1 = S (epochs s2)) by (by rewrite E2).
    rewrite He, E2, E1. by destruct s.
Qed.
Lemma sub_iteration_returns n s s' :
  sub_iteration n s = (Return tt, s') ->
  exists b L ds it e,
    data_times s = Some ds /\
    summed_loss (weights s) b = Return (LTensor L) /\
    s' = after_sub_iteration n it e ds L s.
Proof.
  unfold sub_iteration, bind, time_time, modify. cbn [fst snd].
  destruct (pull _) as [[b|e] s1] eqn:Hpull; [|done].
  apply pull_frame in Hpull. rewrite Hpull. cbn.
  unfold append_data_time, append_to. cbn.
  destruct (data_times s) as [ds|] eqn:Hds; [|done]. cbn.
  unfold lift, bind. cbn.
  destruct (summed_loss (weights s) b) as [[z|L]|e] eqn:Hloss; try done.
  unfold backward, modify, bind. cbn.
  destruct (autograd _) as [[e part]|]; [done|]. cbn. intros [= <-].
  exists b, L, ds, (loader_iter s1), (epochs s1).
  split; [done|]. split; [done|].
  unfold after_sub_iteration. by destruct s.
Qed.
Lemma sub_iterations_return {A} n (xs : list A) s s' :
  for_each xs (fun _ => sub_iteration n) s = (Return tt, s') ->
  exists Ls : list (dual F),
    length Ls = length xs /\
    Forall (fun L => exists b,
              summed_loss (weights s) b = Return (LTensor L)) Ls /\
    grads s' =
      fold_left (fun g L => gadd g (dgrad (ddiv L (float_of_Z n)))) Ls
                (grads s) /\
    iter_loss s' =
      fold_left (fun y L => fadd y (val (ddiv L (float_of_Z n)))) Ls
                (iter_loss s) /\
    outside_inner_loop s s' /\
    (forall ds, data_times s = Some ds ->
       exists ds', data_times s' = Some (ds ++ ds') /\
                   length ds' = length xs) /\
    (xs ≠ [] -> is_Some (start s')).
Proof.
  revert s. induction xs as [|x xs IH]; intros s; simpl.
  - intros [= <-]. exists []. repeat split; try done.
    intros ds Hds. exists []. by rewrite app_nil_r.
  - intros ([] & s1 & Hsub & Hrest)%bind_returns.
    apply sub_iteration_returns in Hsub
      as (b & L & ds & it & e & Hds & HL & Hs1).
    subst s1.
    pose proof Hrest as Hrest'.
    apply IH in Hrest as (Ls & Hlen & HLs & Hg & Hv & Hout & Hdt & Hst).
    exists (L :: Ls). simpl in *.
    destruct Hout as (? & ? & ? & ? & ? & ?).
    split; [by rewrite Hlen|]. split; [by constructor; eauto|].
    split; [done|]. split; [done|]. split; [done|]. split.
    + intros ds0 Hds0. rewrite Hds in Hds0. injection Hds0 as <-.
      destruct (Hdt _ eq_refl) as (ds' & Hds' & Hlen').
      exists (fsub (clock (S (ticks s))) (clock (ticks s)) :: ds').
      split; [by rewrite Hds', <- app_assoc | simpl; by rewrite Hlen'].
    + intros _. destruct xs as [|x' xs'].
      * injection Hrest' as <-. simpl. eauto.
      * by apply Hst.
Qed.
End Pull.

(** ** Gradient accumulation *)

(** The buffers entry by entry, for any arithmetic. *)
Section Buffers.
Context {F : Type} `{PyFloat F}.
Implicit Types (a g : gmap tensor F) (L : dual F) (t : tensor).

Lemma lookup_gadd a g t : gadd a g !! t = grad_add (a !! t) (g !! t).
Proof.
  unfold gadd, grad_add. rewrite lookup_union_with.
  by destruct (a !! t), (g !! t).
Qed.

Lemma lookup_gdiv a n t : gdiv a n !! t = (fun x => fdiv x n) <$> a !! t.
Proof. unfold gdiv. by rewrite lookup_fmap. Qed.

Lemma lookup_accumulated Ls n g t :
  fold_left (fun g L => gadd g (dgrad (ddiv L n))) Ls g !! t =
  fold_left (fun o L => grad_add o ((fun x => fdiv x n) <$> dgrad L !! t))
            Ls (g !! t).
Proof.
  revert g. induction Ls as [|L Ls IH]; intros g; [done|]. simpl.
  by rewrite IH, lookup_gadd, lookup_gdiv.
Qed.

Lemma lookup_summed Ls g t :
  fold_left gadd (map dgrad Ls) g !! t =
  fold_left (fun o L => grad_add o (dgrad L !! t)) Ls (g !! t).
Proof.
  revert g. induction Ls as [|L Ls IH]; intros g; [done|]. simpl.
  by rewrite IH, lookup_gadd.
Qed.

Lemma lookup_dmean Ls n t :
  dgrad (dmean Ls n) !! t =
  (fun x => fdiv x (float_of_Z n))
    <$> fold_left (fun o L => grad_add o (dgrad L !! t)) Ls None.
Proof.
  unfold dmean, dsum. simpl. rewrite lookup_gdiv. f_equal.
  assert (Hd : forall Ls d,
    dgrad (fold_left dadd Ls d) = fold_left gadd (map dgrad Ls) (dgrad d)).
  { clear. intros Ls. induction Ls as [|L Ls IH]; intros d; [done|].
    simpl. by rewrite IH. }
  by rewrite Hd, lookup_summed.
Qed.

Lemma val_dmean Ls n :
  val (dmean Ls n) =
  fdiv (fold_left fadd (map val Ls) (float_of_Z 0)) (float_of_Z n).
Proof.
  unfold dmean, dsum. simpl. f_equal.
  assert (Hv : forall Ls d,
    val (fold_left dadd Ls d) = fold_left fadd (map val Ls) (val d)).
  { clear. intros Ls. induction Ls as [|L Ls IH]; intros d; [done|].
    simpl. by rewrite IH. }
  by rewrite Hv.
Qed.
End Buffers.

(** With exact arithmetic. *)
Section Algebra.
Context {F : Type} `{ExactArith F}.
Implicit Types (a b g : gmap tensor F) (L : dual F).

Lemma gadd_assoc a b c : gadd (gadd a b) c = gadd a (gadd b c).
Proof.
  apply map_eq. intros t. unfold gadd. rewrite !lookup_union_with.
  destruct (a !! t), (b !! t), (c !! t); simpl; try done.
  by rewrite fadd_assoc.
Qed.

Lemma gadd_empty_r a : gadd a ∅ = a.
Proof.
  apply map_eq. intros t. unfold gadd.
  rewrite lookup_union_with, lookup_empty. by destruct (a !! t).
Qed.

Lemma gadd_empty_l a : gadd ∅ a = a.
Proof.
  apply map_eq. intros t. unfold gadd.
  rewrite lookup_union_with, lookup_empty. by destruct (a !! t).
Qed.

Lemma gdiv_gadd a b n : gdiv (gadd a b) n = gadd (gdiv a n) (gdiv b n).
Proof.
  apply map_eq. intros t. unfold gadd, gdiv.
  rewrite lookup_fmap, !lookup_union_with, !lookup_fmap.
  destruct (a !! t), (b !! t); simpl; try done.
  by rewrite fdiv_fadd.
Qed.

Lemma gdiv_empty n : gdiv (∅ : gmap tensor F) n = ∅.
Proof. unfold gdiv. apply fmap_empty. Qed.

Lemma dgrad_fold Ls d :
  dgrad (fold_left dadd Ls d) = fold_left gadd (map dgrad Ls) (dgrad d).
Proof. revert d. induction Ls as [|L Ls IH]; intros d; [done|]. simpl. by rewrite IH. Qed.

Lemma val_fold Ls d :
  val (fold_left dadd Ls d) = fold_left fadd (map val Ls) (val d).
Proof. revert d. induction Ls as [|L Ls IH]; intros d; [done|]. simpl. by rewrite IH. Qed.

(** Adding the gradient of every [L / n] in turn adds the gradient of
    the sum divided by [n]. *)
Lemma grads_accumulate Ls n g a :
  fold_left (fun g L => gadd g (dgrad (ddiv L n))) Ls (gadd g (gdiv a n)) =
  gadd g (gdiv (fold_left gadd (map dgrad Ls) a) n).
Proof.
  revert a. induction Ls as [|L Ls IH]; intros a; [done|]. simpl.
  rewrite gadd_assoc, <- gdiv_gadd. apply IH.
Qed.

Lemma values_accumulate Ls n x :
  fold_left (fun y L => fadd y (val (ddiv L n))) Ls (fdiv x n) =
  fdiv (fold_left fadd (map val Ls) x) n.
Proof.
  revert x. induction Ls as [|L Ls IH]; intros x; [done|]. simpl.
  rewrite <- fdiv_fadd. apply IH.
Qed.

Lemma grads_mean Ls n g :
  fold_left (fun g L => gadd g (dgrad (ddiv L (float_of_Z n)))) Ls g =
  gadd g (dgrad (dmean Ls n)).
Proof.
  unfold dmean, dsum. simpl. rewrite dgrad_fold. simpl.
  rewrite <- grads_accumulate. by rewrite gdiv_empty, gadd_empty_r.
Qed.

Lemma values_mean Ls n :
  fold_left (fun y L => fadd y (val (ddiv L (float_of_Z n)))) Ls
            (float_of_Z 0) =
  val (dmean Ls n).
Proof.
  unfold dmean, dsum. simpl. rewrite val_fold. simpl.
  rewrite <- values_accumulate. by rewrite fdiv_zero.
Qed.

Lemma val_mean Ls n :
  val (dmean Ls n) = fdiv (py_sum (map val Ls)) (float_of_Z n).
Proof. unfold dmean, dsum, py_sum. simpl. by rewrite val_fold. Qed.
End Algebra.

(** ** One outer iteration *)

Section Outer.
Context {F : Type} `{PyFloat F} `{World F}.
Implicit Types s : state.

Lemma accumulate_returns n s sa :
  accumulate n s = (Return tt, sa) ->
  exists (Ls : list (dual F)) (ds : list F),
    length Ls = Z.to_nat n /\
    Forall (fun L => exists b,
              summed_loss (weights s) b = Return (LTensor L)) Ls /\
    grads sa =
      fold_left (fun g L => gadd g (dgrad (ddiv L (float_of_Z n)))) Ls
                (grads s) /\
    iter_loss sa =
      fold_left (fun y L => fadd y (val (ddiv L (float_of_Z n)))) Ls
                (float_of_Z 0) /\
    weights sa = weights s /\ optim sa = optim s /\
    loss_meter sa = loss_meter s /\ tensorboard sa = tensorboard s /\
    writes sa = writes s /\
    compute_times sa = Some [] /\
    data_times sa = Some ds /\ length ds = Z.to_nat n /\
    (1 <= n -> is_Some (start sa)).
Proof.
  unfold accumulate, bind, modify. cbn [fst snd].
  intros Hloop. apply sub_iterations_return in Hloop
    as (Ls & Hlen & HLs & Hg & Hv & Hout & Hdt & Hst).
  rewrite range1_length in Hlen. simpl in *.
  destruct Hout as (? & ? & ? & ? & ? & ?). simpl in *.
  destruct (Hdt [] eq_refl) as (ds & Hds & Hlds).
  rewrite range1_length in Hlds.
  exists Ls, ds. repeat split; try done.
  intros Hn. apply Hst. intros Hnil.
  apply (f_equal length) in Hnil. rewrite range1_length in Hnil.
  simpl in Hnil. lia.
Qed.

Lemma log_lrs_frame i gs k s r s1 :
  log_lrs i gs k s = (r, s1) -> s1 = set_tensorboard (tensorboard s1) s.
Proof.
  revert i s. induction gs as [|g gs IH]; intros i s; simpl.
  - intros [= <- <-]. by destruct s.
  - destruct (g !! "lr") as [v|].
    + unfold bind, modify. cbn [fst snd]. intros Hrest.
      apply IH in Hrest. rewrite Hrest. by destruct s.
    + intros [= <- <-]. by destruct s.
Qed.

Lemma log_scalars_frame k s r s1 :
  log_scalars k s = (r, s1) -> s1 = set_tensorboard (tensorboard s1) s.
Proof.
  unfold log_scalars, bind, modify, get. cbn [fst snd].
  intros Hl. apply log_lrs_frame in Hl. rewrite Hl. by destruct s.
Qed.

Lemma every_n_returns k n body s s' :
  every_n k n body s = (Return tt, s') ->
  n ≠ 0 /\
  (if k mod n =? 0 then body s = (Return tt, s') else s' = s).
Proof.
  unfold every_n. destruct (n =? 0) eqn:Hn; [done|].
  apply Z.eqb_neq in Hn. intros Hbody. split; [done|].
  destruct (k mod n =? 0); [done|]. by injection Hbody.
Qed.

Lemma outer_iteration_returns cfg k s s' :
  outer_iteration cfg k s = (Return tt, s') ->
  exists o1 sa w' t0,
    poly_lr_scheduler (LR cfg) (k - 1) (LR_DECAY cfg) (ITER_MAX cfg)
                      (POLY_POWER cfg) (optim s) = (Return tt, o1) /\
    accumulate (ITER_SIZE cfg) (zeroed (set_optim o1 s)) = (Return tt, sa) /\
    sgd_step (param_groups o1) (weights s) (grads sa) = Return w' /\
    start sa = Some t0 /\
    ITER_TB cfg ≠ 0 /\ ITER_SAVE cfg ≠ 0 /\
    optim s' = o1 /\ weights s' = w' /\ grads s' = grads sa /\
    loss_meter s' = loss_meter s ++ [iter_loss sa] /\
    data_times s' = data_times sa /\
    compute_times s' = Some [fsub (clock (ticks sa)) t0] /\
    start s' = Some t0 /\
    writes s' = writes s ++ saved cfg k w'.
Proof.
  unfold outer_iteration.
  intros ([] & s1 & Hsched & Hk)%bind_returns.
  unfold on_optim in Hsched.
  destruct (poly_lr_scheduler _ _ _ _ _ (optim s)) as [r o1] eqn:Hs.
  injection Hsched as -> <-.
  apply bind_returns in Hk as ([] & s2 & Hz & Hk).
  unfold zero_grad, modify in Hz. injection Hz as <-.
  apply bind_returns in Hk as ([] & sa & Hacc & Hk).
  pose proof (accumulate_returns _ _ _ Hacc)
    as (Ls & ds & _ & _ & _ & _ & Hw & Ho & Hm & Htb & Hwr & Hct & Hdt & _).
  simpl in Hw, Ho, Hm, Htb, Hwr.
  apply bind_returns in Hk as ([] & s4 & Hmeter & Hk).
  unfold modify in Hmeter. injection Hmeter as <-.
  apply bind_returns in Hk as ([] & s5 & Hstep & Hk).
  unfold step in Hstep. simpl in Hstep. rewrite Ho, Hw in Hstep.
  destruct (sgd_step (param_groups o1) (weights s) (grads sa))
    as [w'|e] eqn:Hsgd; [|done].
  injection Hstep as <-.
  apply bind_returns in Hk as (t & s6 & Ht & Hk).
  unfold time_time in Ht. simpl in Ht. injection Ht as <- <-.
  apply bind_returns in Hk as (t0 & s7 & Hst & Hk).
  unfold read_start in Hst. simpl in Hst.
  destruct (start sa) as [t0'|] eqn:Hstart; [|done].
  injection Hst as <- <-.
  apply bind_returns in Hk as ([] & s8 & Hap & Hk).
  unfold append_compute_time in Hap. simpl in Hap. rewrite Hct in Hap.
  simpl in Hap. injection Hap as <-.
  apply bind_returns in Hk as ([] & s9 & Htbw & Hk).
  apply every_n_returns in Htbw as (Htb0 & Htbw).
  assert (Hs9 : s9 = set_tensorboard (tensorboard s9)
            (set_compute_times (Some [fsub (clock (ticks sa)) t0'])
              (set_ticks (S (ticks sa))
                (set_weights w'
                  (set_loss_meter (loss_meter sa ++ [iter_loss sa]) sa))))).
  { destruct (k mod ITER_TB cfg =? 0).
    - apply log_scalars_frame in Htbw. exact Htbw.
    - rewrite Htbw. reflexivity. }
  clear Htbw.
  apply bind_returns in Hk as ([] & s10 & Hsave & Hk).
  apply every_n_returns in Hsave as (Hsv0 & Hsave).
  apply every_n_returns in Hk as (_ & Hcur).
  exists o1, sa, w', t0'.
  unfold saved, save, modify in *.
  destruct (k mod ITER_SAVE cfg =? 0), (k mod 100 =? 0);
    simplify_eq; rewrite Hs9; simpl;
    rewrite ?Hwr, ?Hm, ?Ho, ?app_nil_r, <- ?app_assoc; by repeat split.
Qed.
End Outer.

(** ** File names *)

Section Names.
Implicit Types (a b t : string) (c : ascii).

Lemma app_cons c a b : String c a +:+ b = String c (a +:+ b).
Proof. reflexivity. Qed.

Lemma app_nil a : "" +:+ a = a.
Proof. reflexivity. Qed.

Lemma string_length_app a b :
  String.length (a +:+ b) = (String.length a + String.length b)%nat.
Proof.
  induction a as [|c a IH]; [done|].
  rewrite app_cons. simpl. by rewrite IH.
Qed.

Lemma app_assoc_string a b t : (a +:+ b) +:+ t = a +:+ (b +:+ t).
Proof.
  induction a as [|c a IH]; [done|]. rewrite !app_cons. by f_equal.
Qed.

(** Cancellation on the right. *)
Lemma app_inj_r a b t : a +:+ t = b +:+ t -> a = b.
Proof.
  revert b. induction a as [|c a IH]; intros [|c' b] Heq.
  - done.
  - apply (f_equal String.length) in Heq.
    rewrite !string_length_app in Heq. simpl in Heq. lia.
  - apply (f_equal String.length) in Heq.
    rewrite !string_length_app in Heq. simpl in Heq. lia.
  - rewrite !app_cons in Heq. injection Heq as -> Heq.
    f_equal. by apply IH.
Qed.

Lemma osp_join_relative a b :
  String.prefix "/" b = false -> osp_join a b = dir_prefix a +:+ b.
Proof.
  intros Hb. unfold osp_join, dir_prefix. rewrite Hb.
  destruct (String.eqb a "" || ends_with_slash a); [done|].
  by rewrite app_assoc_string.
Qed.

Lemma digit_not_letter c :
  is_digit c -> c ≠ "c"%char /\ c ≠ "f"%char.
Proof.
  intros [n ->]. unfold pretty_N_char.
  split; repeat case_match; discriminate.
Qed.

(** [pretty] puts digits, and only digits, before what it is given. *)
Lemma pretty_N_go_head (x : N) t :
  (0 < x)%N ->
  exists c rest, pretty_N_go x t = String c rest /\ is_digit c.
Proof.
  revert t. induction (N.lt_wf_0 x) as [x _ IH]. intros t Hx.
  rewrite pretty_N_go_step by done.
  destruct (decide (x `div` 10 = 0)%N) as [Hz|Hnz].
  - rewrite Hz, pretty_N_go_0. eexists _, _. split; [done|]. by eexists.
  - apply IH; [apply N.div_lt; lia | by apply N.neq_0_lt_0].
Qed.

Lemma pretty_Z_head (i : Z) :
  exists c rest, pretty i = String c rest /\ c ≠ "c"%char /\ c ≠ "f"%char.
Proof.
  destruct i as [|p|p].
  - by exists "0"%char, "".
  - destruct (pretty_N_go_head (N.pos p) "") as (c & rest & Hp & Hc); [lia|].
    exists c, rest. split; [|by apply digit_not_letter].
    rewrite <- Hp. reflexivity.
  - exists "-"%char. eexists. split; [reflexivity|done].
Qed.

Lemma checkpoint_name_inj i j : checkpoint_name i = checkpoint_name j -> i = j.
Proof.
  unfold checkpoint_name. intros Heq.
  apply (inj (String.app "checkpoint_")) in Heq.
  apply app_inj_r in Heq. by apply (inj pretty).
Qed.

Lemma checkpoint_name_not_fixed i :
  checkpoint_name i ≠ "checkpoint_current.pth" /\
  checkpoint_name i ≠ "checkpoint_final.pth".
Proof.
  unfold checkpoint_name.
  destruct (pretty_Z_head i) as (c & rest & -> & Hc & Hf).
  split; intros Heq; apply (inj (String.app "checkpoint_")) in Heq;
    rewrite app_cons in Heq; injection Heq; intros; congruence.
Qed.

Lemma checkpoint_name_length i :
  (15 <= String.length (checkpoint_name i))%nat.
Proof.
  unfold checkpoint_name. rewrite !string_length_app.
  destruct (pretty_Z_head i) as (c & rest & -> & _). simpl. lia.
Qed.

Lemma checkpoint_name_relative i :
  String.prefix "/" (checkpoint_name i) = false.
Proof. reflexivity. Qed.
End Names.

(** ** What a run writes *)

Section Writes.
Context {F : Type} `{PyFloat F} `{World F}.
Implicit Types (s : state) (cfg : config F) (k : write_kind).

Lemma path_of_inj cfg k1 k2 : path_of cfg k1 = path_of cfg k2 -> k1 = k2.
Proof.
  assert (Hlogs : forall b, (9 <= String.length b)%nat ->
            "logs.csv" ≠ dir_prefix (SAVE_DIR cfg) +:+ b).
  { intros b Hb Heq. apply (f_equal String.length) in Heq.
    rewrite string_length_app in Heq. simpl in Heq. lia. }
  pose proof checkpoint_name_length as Hlen.
  destruct k1 as [i| | |], k2 as [j| | |]; simpl;
    rewrite ?osp_join_relative by reflexivity; intros Heq;
    try done;
    try (apply (inj (String.app (dir_prefix (SAVE_DIR cfg)))) in Heq);
    try (by apply checkpoint_name_not_fixed in Heq);
    try (symmetry in Heq; by apply checkpoint_name_not_fixed in Heq);
    try (exfalso; by eapply Hlogs; [|exact Heq]; first [apply Hlen | simpl; lia]);
    try (exfalso; symmetry in Heq;
         by eapply Hlogs; [|exact Heq]; first [apply Hlen | simpl; lia]).
  - f_equal. by apply checkpoint_name_inj.
  - discriminate Heq.
  - discriminate Heq.
Qed.

Lemma times_written_path cfg k (ks : list write_kind) :
  times_written (path_of cfg k) (map (path_of cfg) ks) =
  length (filter (fun k' => k' = k) ks).
Proof.
  unfold times_written. induction ks as [|k' ks IH]; [done|].
  simpl. rewrite !filter_cons.
  destruct (decide (path_of cfg k' = path_of cfg k)) as [Hp|Hp],
           (decide (k' = k)) as [Hk|Hk]; simpl; try by rewrite IH.
  - by apply path_of_inj in Hp.
  - by subst.
Qed.

Lemma saved_paths cfg i (w : Weights) :
  map fst (saved cfg i w) = map (path_of cfg) (iteration_writes cfg i).
Proof.
  unfold saved, iteration_writes.
  by destruct (i mod ITER_SAVE cfg =? 0), (i mod 100 =? 0).
Qed.

(** The files a sequence of outer iterations writes, and the timing
    lists its last iteration leaves. *)
Lemma outer_iterations_return cfg (ks : list Z) s s' :
  for_each ks (outer_iteration cfg) s = (Return tt, s') ->
  map fst (writes s') =
    map fst (writes s) ++
    map (path_of cfg) (flat_map (iteration_writes cfg) ks) /\
  (ks ≠ [] ->
   exists ds c, data_times s' = Some ds /\
                length ds = Z.to_nat (ITER_SIZE cfg) /\
                compute_times s' = Some [c]).
Proof.
  revert s. induction ks as [|k ks IH]; intros s; simpl.
  - intros [= <-]. by rewrite app_nil_r.
  - intros ([] & s1 & Hk & Hrest)%bind_returns.
    pose proof Hrest as Hrest'.
    apply IH in Hrest as [Hw Ht].
    apply outer_iteration_returns in Hk
      as (o1 & sa & w' & t0 & _ & Hacc & _ & _ & _ & _ & _ & _ & _ & _
          & Hdt & Hct & _ & Hwr).
    split.
    + rewrite Hw, Hwr, !map_app, saved_paths. by rewrite <- app_assoc.
    + intros _. destruct ks as [|k' ks'].
      * injection Hrest' as <-.
        apply accumulate_returns in Hacc
          as (Ls & ds & _ & _ & _ & _ & _ & _ & _ & _ & _ & _ & Hds & Hl & _).
        exists ds, (fsub (clock (ticks sa)) t0).
        by rewrite Hdt, Hds.
      * by apply Ht.
Qed.

Lemma train_returns cfg s s' :
  train cfg s = (Return tt, s') ->
  exists sl ds cs,
    for_each (range1 (ITER_MAX cfg)) (outer_iteration cfg) s
      = (Return tt, sl) /\
    data_times sl = Some ds /\ compute_times sl = Some cs /\
    writes s' =
      writes sl ++ [("logs.csv", Table (zip ds cs));
                    (path_of cfg Final, Checkpoint (weights sl))].
Proof.
  unfold train.
  intros ([] & sl & Hloop & Hk)%bind_returns.
  apply bind_returns in Hk as ([] & s2 & Hlogs & Hsave).
  unfold write_logs in Hlogs.
  destruct (data_times sl) as [ds|] eqn:Hds; [|done].
  destruct (compute_times sl) as [cs|] eqn:Hcs; [|done].
  injection Hlogs as <-. unfold save, modify in Hsave.
  injection Hsave as <-. exists sl, ds, cs. simpl.
  by rewrite <- app_assoc.
Qed.

Lemma run_paths cfg s s' :
  train cfg s = (Return tt, s') ->
  map fst (writes s') =
    map fst (writes s) ++ map (path_of cfg) (run_writes cfg).
Proof.
  intros (sl & ds & cs & Hloop & _ & _ & ->)%train_returns.
  apply outer_iterations_return in Hloop as [Hw _].
  unfold run_writes. rewrite !map_app, Hw. simpl. by rewrite <- app_assoc.
Qed.

(** The rows of the table: as many as the shorter of the two lists
    the last outer iteration left. *)
Lemma run_rows cfg s s' :
  1 <= ITER_MAX cfg ->
  train cfg s = (Return tt, s') ->
  exists pre rows w,
    writes s' = pre ++ [("logs.csv", Table rows); (path_of cfg Final, w)] /\
    map fst pre = map fst (writes s) ++
      map (path_of cfg)
          (flat_map (iteration_writes cfg) (range1 (ITER_MAX cfg))) /\
    length rows = Nat.min (Z.to_nat (ITER_SIZE cfg)) 1.
Proof.
  intros Hmax (sl & ds & cs & Hloop & Hds & Hcs & ->)%train_returns.
  apply outer_iterations_return in Hloop as [Hw Ht].
  destruct Ht as (ds' & c & Hds' & Hlen & Hcs').
  { intros Hnil. apply (f_equal length) in Hnil.
    rewrite range1_length in Hnil. simpl in Hnil. lia. }
  simplify_eq. eexists _, _, _. split; [done|]. split; [done|].
  rewrite length_zip. simpl. lia.
Qed.

Lemma NoDup_range1 n : NoDup (range1 n).
Proof.
  unfold range1. apply NoDup_fmap_2_strong; [|apply NoDup_seq].
  intros a b _ _ Hab. lia.
Qed.

Lemma count_history_one cfg j i :
  length (filter (fun k => k = History i) (iteration_writes cfg j)) =
  if decide (j = i /\ i mod ITER_SAVE cfg = 0) then 1%nat else 0%nat.
Proof.
  unfold iteration_writes. rewrite filter_app, length_app.
  assert (Hcur : length (filter (fun k => k = History i)
             (if j mod 100 =? 0 then [Current] else [])) = 0%nat).
  { destruct (j mod 100 =? 0); [|done].
    rewrite filter_cons. by rewrite decide_False. }
  rewrite Hcur, Nat.add_0_r. clear Hcur.
  destruct (j mod ITER_SAVE cfg =? 0) eqn:Hsave.
  - apply Z.eqb_eq in Hsave. rewrite filter_cons.
    destruct (decide (j = i)) as [->|Hne].
    + rewrite decide_True by done. by rewrite decide_True.
    + rewrite decide_False by congruence.
      rewrite decide_False; [done|]. by intros [? _].
  - apply Z.eqb_neq in Hsave.
    rewrite decide_False; [done|]. by intros [-> ?].
Qed.

Lemma count_history cfg (ks : list Z) i :
  NoDup ks ->
  length (filter (fun k => k = History i)
                 (flat_map (iteration_writes cfg) ks)) =
  if decide (i ∈ ks /\ i mod ITER_SAVE cfg = 0) then 1%nat else 0%nat.
Proof.
  induction ks as [|j ks IH]; intros Hnd.
  - rewrite decide_False; [done|].
    intros [Hin _]. by apply elem_of_nil in Hin.
  - apply NoDup_cons in Hnd as [Hj Hnd].
    change (flat_map (iteration_writes cfg) (j :: ks))
      with (iteration_writes cfg j ++ flat_map (iteration_writes cfg) ks).
    rewrite filter_app, length_app, (IH Hnd), count_history_one.
    destruct (decide (j = i /\ i mod ITER_SAVE cfg = 0)) as [[-> Hs]|Hhd].
    + rewrite decide_False by (by intros [? _]).
      rewrite decide_True; [done|]. split; [by left|done].
    + destruct (decide (i ∈ ks /\ i mod ITER_SAVE cfg = 0)) as [[Hin Hs]|Htl].
      * rewrite decide_True; [done|]. split; [by right|done].
      * rewrite decide_False; [done|].
        intros [[->|Hin]%elem_of_cons Hs]; [by apply Hhd | by apply Htl].
Qed.

Lemma count_other cfg (ks : list Z) k :
  is_history k = false -> k ≠ Current ->
  filter (fun k' => k' = k) (flat_map (iteration_writes cfg) ks) = [].
Proof.
  intros Hk Hc. induction ks as [|j ks IH]; [done|]. simpl.
  rewrite filter_app, IH, app_nil_r. unfold iteration_writes.
  rewrite filter_app.
  destruct (j mod ITER_SAVE cfg =? 0), (j mod 100 =? 0);
    rewrite ?filter_cons, ?filter_nil;
    repeat (rewrite decide_False; [|by intros <-]); done.
Qed.

Lemma count_current cfg (ks : list Z) :
  length (filter (fun k => k = Current)
                 (flat_map (iteration_writes cfg) ks)) =
  length (filter (fun i => i mod 100 = 0) ks).
Proof.
  induction ks as [|j ks IH]; [done|]. simpl.
  rewrite filter_app, length_app, IH, filter_cons.
  unfold iteration_writes. rewrite filter_app, length_app.
  assert (Hh : length (filter (fun k => k = Current)
             (if j mod ITER_SAVE cfg =? 0 then [History j] else [])) = 0%nat).
  { destruct (j mod ITER_SAVE cfg =? 0); [|done].
    rewrite filter_cons. by rewrite decide_False. }
  rewrite Hh. clear Hh. simpl.
  destruct (j mod 100 =? 0) eqn:Hc.
  - apply Z.eqb_eq in Hc. rewrite decide_True by done.
    rewrite filter_cons. by rewrite decide_True.
  - apply Z.eqb_neq in Hc. by rewrite decide_False.
Qed.

Lemma history_writes cfg (ks : list Z) :
  filter (fun k => is_history k = true)
         (flat_map (iteration_writes cfg) ks) =
  map History (filter (fun i => i mod ITER_SAVE cfg = 0) ks).
Proof.
  induction ks as [|j ks IH]; [done|]. simpl.
  rewrite filter_app, IH, filter_cons. unfold iteration_writes.
  rewrite filter_app.
  assert (Hc : filter (fun k => is_history k = true)
             (if j mod 100 =? 0 then [Current] else []) = []).
  { by destruct (j mod 100 =? 0). }
  rewrite Hc, app_nil_r. clear Hc.
  destruct (j mod ITER_SAVE cfg =? 0) eqn:Hs.
  - apply Z.eqb_eq in Hs. by rewrite decide_True.
  - apply Z.eqb_neq in Hs. by rewrite decide_False.
Qed.
End Writes.

(** ** The optimizer along a run *)

Section Frame.
Context {F : Type} `{PyFloat F} `{World F}.
Implicit Types (s : state) (cfg : config F).

#[local] Instance groups_kept_preorder : PreOrder groups_kept.
Proof.
  split.
  - intros s. apply lr_only_refl.
  - intros s1 s2 s3. apply lr_only_trans.
Qed.

Lemma keeps_same_optim {A} (m : M state A) :
  (forall s, optim (m s).2 = optim s) -> keeps groups_kept m.
Proof. intros Hm s. unfold groups_kept. rewrite Hm. apply lr_only_refl. Qed.

Lemma keeps_scheduler init iter d mx p :
  keeps groups_kept (on_optim (poly_lr_scheduler init iter d mx p)).
Proof.
  intros s. unfold groups_kept, on_optim.
  pose proof (scheduler_frame init iter d mx p (optim s)) as [Hf _].
  by destruct (poly_lr_scheduler init iter d mx p (optim s)).
Qed.

Lemma keeps_pull : keeps groups_kept pull.
Proof.
  apply keeps_same_optim. intros s.
  destruct (pull s) as [r s1] eqn:Hp. apply pull_frame in Hp.
  simpl. by rewrite Hp.
Qed.

Lemma keeps_log_scalars k : keeps groups_kept (log_scalars k).
Proof.
  apply keeps_same_optim. intros s.
  destruct (log_scalars k s) as [r s1] eqn:Hp. apply log_scalars_frame in Hp.
  simpl. by rewrite Hp.
Qed.

(** The relation is a preorder: the side condition of the [keeps]
    lemmas. *)
Ltac preorder := try exact groups_kept_preorder.

Lemma keeps_every_n k n body :
  keeps groups_kept body -> keeps groups_kept (every_n k n body).
Proof.
  intros Hb. unfold every_n.
  destruct (n =? 0); [apply keeps_raise; preorder|].
  destruct (k mod n =? 0); [exact Hb | apply keeps_ret; preorder].
Qed.

Lemma keeps_append_data_time x : keeps groups_kept (append_data_time x).
Proof.
  apply keeps_same_optim. intros s. unfold append_data_time.
  by destruct (append_to _ _).
Qed.

Lemma keeps_append_compute_time x :
  keeps groups_kept (append_compute_time x).
Proof.
  apply keeps_same_optim. intros s. unfold append_compute_time.
  by destruct (append_to _ _).
Qed.

Lemma keeps_step : keeps groups_kept step.
Proof.
  apply keeps_same_optim. intros s. unfold step.
  by destruct (sgd_step _ _ _).
Qed.

Lemma keeps_read_start : keeps groups_kept read_start.
Proof.
  apply keeps_same_optim. intros s. unfold read_start.
  by destruct (start s).
Qed.

Lemma keeps_write_logs : keeps groups_kept write_logs.
Proof.
  apply keeps_same_optim. intros s. unfold write_logs.
  by destruct (data_times s), (compute_times s).
Qed.

Lemma keeps_backward d : keeps groups_kept (backward d).
Proof.
  apply keeps_same_optim. intros s. unfold backward.
  by destruct (autograd d) as [[e part]|].
Qed.

Lemma keeps_sub_iteration n : keeps groups_kept (sub_iteration n).
Proof.
  unfold sub_iteration.
  apply keeps_bind; preorder; [by apply keeps_same_optim | intros t0].
  apply keeps_bind; preorder; [by apply keeps_same_optim | intros _].
  apply keeps_bind; preorder; [apply keeps_pull | intros b].
  apply keeps_bind; preorder; [by apply keeps_same_optim | intros t1].
  apply keeps_bind; preorder; [apply keeps_append_data_time | intros _].
  apply keeps_bind; preorder; [by apply keeps_same_optim | intros t2].
  apply keeps_bind; preorder; [by apply keeps_same_optim | intros _].
  apply keeps_bind; preorder; [by apply keeps_same_optim | intros w].
  apply keeps_bind; preorder; [by apply keeps_same_optim | intros loss].
  destruct loss as [z|d]; [by apply keeps_same_optim|].
  apply keeps_bind; preorder; [apply keeps_backward | intros _].
  by apply keeps_same_optim.
Qed.

Lemma keeps_accumulate n : keeps groups_kept (accumulate n).
Proof.
  unfold accumulate.
  apply keeps_bind; preorder; [by apply keeps_same_optim | intros _].
  apply keeps_bind; preorder; [by apply keeps_same_optim | intros _].
  apply keeps_bind; preorder; [by apply keeps_same_optim | intros _].
  apply keeps_for_each; preorder. intros _. apply keeps_sub_iteration.
Qed.

Lemma keeps_outer_iteration cfg k : keeps groups_kept (outer_iteration cfg k).
Proof.
  unfold outer_iteration.
  apply keeps_bind; preorder; [apply keeps_scheduler | intros _].
  apply keeps_bind; preorder; [by apply keeps_same_optim | intros _].
  apply keeps_bind; preorder; [apply keeps_accumulate | intros _].
  apply keeps_bind; preorder; [by apply keeps_same_optim | intros _].
  apply keeps_bind; preorder; [apply keeps_step | intros _].
  apply keeps_bind; preorder; [by apply keeps_same_optim | intros t].
  apply keeps_bind; preorder; [apply keeps_read_start | intros t0].
  apply keeps_bind; preorder; [apply keeps_append_compute_time | intros _].
  apply keeps_bind; preorder;
    [apply keeps_every_n, keeps_log_scalars | intros _].
  apply keeps_bind; preorder;
    [apply keeps_every_n; by apply keeps_same_optim | intros _].
  apply keeps_every_n. by apply keeps_same_optim.
Qed.

Lemma keeps_train cfg : keeps groups_kept (train cfg).
Proof.
  unfold train.
  apply keeps_bind; preorder; [|intros _].
  { apply keeps_for_each; preorder. apply keeps_outer_iteration. }
  apply keeps_bind; preorder; [apply keeps_write_logs | intros _].
  by apply keeps_same_optim.
Qed.

Lemma weight_decay_kept (opt opt' : optimizer F) i :
  lr_only opt opt' -> weight_decay_of opt' i = weight_decay_of opt i.
Proof.
  unfold lr_only, weight_decay_of. intros Hlr.
  destruct (param_groups opt !! i) as [g|] eqn:Hg.
  - destruct (Forall2_lookup_l _ _ _ _ _ Hlr Hg) as (g' & -> & Hsame).
    simpl. by apply Hsame.
  - apply Forall2_length in Hlr.
    apply lookup_ge_None in Hg. rewrite Hlr in Hg.
    apply lookup_ge_None in Hg. by rewrite Hg.
Qed.
End Frame.

(** ** The constructor of the optimizer *)

Section Constructor.
Context {F : Type} `{PyFloat F}.
Implicit Types (g : param_group F) (gs : list (param_group F))
  (cfg : config F) (mdl : model) (opt : optimizer F).

Lemma group_params_setdefault (x : pyval F) g :
  group_params (setdefault "momentum" x g) = group_params g.
Proof.
  unfold group_params, setdefault.
  destruct (g !! "momentum"); [done|]. by rewrite lookup_insert_ne.
Qed.

Lemma add_param_group_returns m added g gs' :
  add_param_group m added g = Return gs' <->
  exists ps, g !! "params" = Some (VParams ps) /\ (None ∉ ps) /\
    (forall p, p ∈ ps -> p ∉ flat_map group_params added) /\
    gs' = added ++ [setdefault "momentum" (VFloat m) g].
Proof.
  unfold add_param_group. split.
  - destruct (g !! "params") as [[x|ps]|]; try done.
    case_bool_decide as Hn; [done|]. case_bool_decide as Hd; [done|].
    intros [= <-]. exists ps. repeat split; try done.
    intros p Hp Hin. apply Hd. apply Exists_exists. eauto.
  - intros (ps & -> & Hn & Hd & ->).
    rewrite bool_decide_eq_false_2 by done.
    rewrite bool_decide_eq_false_2; [done|].
    intros (p & Hp & Hin)%Exists_exists. by apply (Hd p).
Qed.

(** When the constructor returns: the momentum is not negative, every
    ASPP convolution has a bias, and no tensor is in two groups. *)
Lemma make_optimizer_returns cfg mdl opt :
  make_optimizer cfg mdl = Return opt <->
  opt = Optimizer (built_groups cfg mdl) /\
  flt (MOMENTUM cfg) (float_of_Z 0) = false /\
  (None ∉ get_params mdl "20x") /\
  (forall p, p ∈ get_params mdl "10x" -> p ∉ get_params mdl "1x") /\
  (forall p, p ∈ get_params mdl "20x" ->
     (p ∉ get_params mdl "1x") /\ (p ∉ get_params mdl "10x")).
Proof.
  unfold make_optimizer, SGD, built_groups.
  destruct (flt (MOMENTUM cfg) (float_of_Z 0)) eqn:Hm.
  { split; [done | by intros (_ & ? & _)]. }
  cbn [add_param_groups].
  set (d := setdefault "momentum" (VFloat (MOMENTUM cfg))).
  destruct (add_param_group (MOMENTUM cfg) [] (group_1x cfg mdl))
    as [gs1|e1] eqn:H1.
  2:{ split; [done|]. intros _. exfalso.
      assert (Hex : exists gs, add_param_group (MOMENTUM cfg) []
                                 (group_1x cfg mdl) = Return gs).
      { eexists. apply add_param_group_returns.
        exists (get_params mdl "1x"). split; [reflexivity|].
        split; [|split; [|reflexivity]].
        - rewrite get_params_1x.
          intros (name & [w [b|]|] & _ & _ & _ & Hx)%elem_of_yield_from_name;
            simpl in Hx.
          + apply elem_of_cons in Hx as [?|Hx]; [done|].
            by apply list_elem_of_singleton in Hx.
          + by apply list_elem_of_singleton in Hx.
          + by apply elem_of_nil in Hx.
        - intros p _ Hin. simpl in Hin. by apply elem_of_nil in Hin. }
      destruct Hex as [gs Hex]. congruence. }
  apply add_param_group_returns in H1 as (ps1 & Hp1 & _ & _ & ->).
  assert (ps1 = get_params mdl "1x") as ->.
  { change (group_1x cfg mdl !! "params")
      with (Some (VParams (F:=F) (get_params mdl "1x"))) in Hp1. congruence. }
  cbn [app]. fold d.
  assert (Hfl1 : flat_map group_params [d (group_1x cfg mdl)]
                 = get_params mdl "1x").
  { simpl. unfold d. rewrite group_params_setdefault, app_nil_r.
    reflexivity. }
  destruct (add_param_group (MOMENTUM cfg) [d (group_1x cfg mdl)]
              (group_10x cfg mdl)) as [gs2|e2] eqn:H2.
  2:{ split; [done|]. intros (_ & _ & _ & H10 & _). exfalso.
      assert (Hex : exists gs, add_param_group (MOMENTUM cfg)
                [d (group_1x cfg mdl)] (group_10x cfg mdl) = Return gs).
      { eexists. apply add_param_group_returns.
        exists (get_params mdl "10x"). split; [reflexivity|].
        split; [|split; [|reflexivity]].
        - rewrite get_params_10x.
          intros (name & [w b|] & _ & _ & _ & Hx)%elem_of_yield_from_name;
            simpl in Hx.
          + by apply list_elem_of_singleton in Hx.
          + by apply elem_of_nil in Hx.
        - intros p Hp. rewrite Hfl1. by apply H10. }
      destruct Hex as [gs Hex]. congruence. }
  apply add_param_group_returns in H2 as (ps2 & Hp2 & _ & Hd2 & ->).
  assert (ps2 = get_params mdl "10x") as ->.
  { change (group_10x cfg mdl !! "params")
      with (Some (VParams (F:=F) (get_params mdl "10x"))) in Hp2.
    congruence. }
  rewrite Hfl1 in Hd2. cbn [app]. fold d.
  assert (Hfl2 : flat_map group_params
                   [d (group_1x cfg mdl); d (group_10x cfg mdl)]
                 = get_params mdl "1x" ++ get_params mdl "10x").
  { simpl. unfold d. rewrite !group_params_setdefault, app_nil_r.
    reflexivity. }
  destruct (add_param_group (MOMENTUM cfg)
              [d (group_1x cfg mdl); d (group_10x cfg mdl)]
              (group_20x cfg mdl)) as [gs3|e3] eqn:H3.
  2:{ split; [done|]. intros (_ & _ & Hn & _ & H20). exfalso.
      assert (Hex : exists gs, add_param_group (MOMENTUM cfg)
                [d (group_1x cfg mdl); d (group_10x cfg mdl)]
                (group_20x cfg mdl) = Return gs).
      { eexists. apply add_param_group_returns.
        exists (get_params mdl "20x"). split; [reflexivity|].
        split; [done|]. split; [|reflexivity].
        intros p Hp. rewrite Hfl2, elem_of_app.
        intros [?|?]; by destruct (H20 p Hp). }
      destruct Hex as [gs Hex]. congruence. }
  apply add_param_group_returns in H3 as (ps3 & Hp3 & Hn3 & Hd3 & ->).
  assert (ps3 = get_params mdl "20x") as ->.
  { change (group_20x cfg mdl !! "params")
      with (Some (VParams (F:=F) (get_params mdl "20x"))) in Hp3.
    congruence. }
  rewrite Hfl2 in Hd3. cbn [app]. fold d. split.
  - intros [= <-]. split; [done|]. split; [done|]. split; [done|].
    split; [done|]. intros p Hp. specialize (Hd3 p Hp).
    rewrite elem_of_app in Hd3. tauto.
  - by intros (-> & _).
Qed.

Lemma params_kept opt opt' i :
  lr_only opt opt' -> params_of opt' i = params_of opt i.
Proof.
  unfold lr_only, params_of. intros Hlr.
  destruct (param_groups opt !! i) as [g|] eqn:Hg.
  - destruct (Forall2_lookup_l _ _ _ _ _ Hlr Hg) as (g' & -> & Hsame).
    simpl. by apply Hsame.
  - apply Forall2_length in Hlr.
    apply lookup_ge_None in Hg. rewrite Hlr in Hg.
    apply lookup_ge_None in Hg. by rewrite Hg.
Qed.

Lemma undecayed_kept opt opt' t :
  lr_only opt opt' -> undecayed opt t -> undecayed opt' t.
Proof.
  intros Hlr Hu i (ps & Hps & Hin).
  rewrite (weight_decay_kept opt opt') by done. apply Hu.
  exists ps. by rewrite <- (params_kept opt opt').
Qed.

(** In the optimizer as built, every ASPP bias is held by the third
    group and by no other. *)
Lemma aspp_bias_group cfg mdl opt t :
  make_optimizer cfg mdl = Return opt -> aspp_bias mdl t ->
  holds opt 2 t /\ forall i, holds opt i t -> i = 2%nat.
Proof.
  intros (-> & _ & _ & _ & H20)%make_optimizer_returns Hb.
  apply aspp_bias_20x in Hb. rewrite <- get_params_20x in Hb.
  destruct (H20 _ Hb) as [Hn1 Hn10]. split.
  - exists (get_params mdl "20x"). split; [|done].
    unfold params_of, built_groups. simpl. unfold setdefault. simpl.
    reflexivity.
  - intros [|[|[|i]]] (ps & Hps & Hin); [exfalso..| done | exfalso].
    + unfold params_of, built_groups in Hps. simpl in Hps.
      unfold setdefault in Hps. simpl in Hps.
      change (group_1x cfg mdl !! "params")
        with (Some (VParams (F:=F) (get_params mdl "1x"))) in Hps.
      injection Hps as <-. done.
    + unfold params_of, built_groups in Hps. simpl in Hps.
      unfold setdefault in Hps. simpl in Hps.
      change (group_10x cfg mdl !! "params")
        with (Some (VParams (F:=F) (get_params mdl "10x"))) in Hps.
      injection Hps as <-. done.
    + unfold params_of, built_groups in Hps. simpl in Hps. done.
Qed.
End Constructor.

(** ** Failures *)

Section Failures.
Context {F : Type} `{PyFloat F} `{World F}.
Implicit Types (s : state) (cfg : config F).

Lemma pull_recovers s e s1 b rest :
  next_batch s = (Raise e, s1) ->
  loader (epochs s1) = Return b :: rest ->
  pull s = (Return b, set_loader rest (S (epochs s1)) s1).
Proof.
  intros Hn Hl. rewrite (pull_retry _ _ _ Hn).
  unfold next_batch, restarted. simpl. rewrite Hl. by destruct s1.
Qed.

Lemma pull_surfaces s e s1 :
  next_batch s = (Raise e, s1) ->
  loader (epochs s1) = [] ->
  pull s = (Raise StopIteration, restarted s1).
Proof.
  intros Hn Hl. rewrite (pull_retry _ _ _ Hn).
  unfold next_batch, restarted. simpl. by rewrite Hl.
Qed.

Lemma forward_error_fatal n s ds b s1 e :
  data_times s = Some ds ->
  pull (ticked s) = (Return b, s1) ->
  summed_loss (weights s) b = Raise e ->
  exists s', sub_iteration n s = (Raise e, s').
Proof.
  intros Hds Hpull Hloss.
  unfold sub_iteration, bind, time_time, modify. cbn [fst snd].
  unfold ticked in Hpull. rewrite Hpull.
  apply pull_frame in Hpull. rewrite Hpull. cbn.
  unfold append_data_time, append_to. cbn. rewrite Hds. cbn.
  unfold lift. rewrite Hloss. eauto.
Qed.

Lemma pull_raises s e s1 e' rest :
  next_batch s = (Raise e, s1) ->
  loader (epochs s1) = Raise e' :: rest ->
  pull s = (Raise e', set_loader rest (S (epochs s1)) s1).
Proof.
  intros Hn Hl. rewrite (pull_retry _ _ _ Hn).
  unfold next_batch, restarted. simpl. rewrite Hl. by destruct s1.
Qed.

Lemma pull_error_fatal n s e s1 :
  pull (ticked s) = (Raise e, s1) -> sub_iteration n s = (Raise e, s1).
Proof.
  intros Hpull.
  unfold sub_iteration, bind, time_time, modify. cbn [fst snd].
  unfold ticked in Hpull. by rewrite Hpull.
Qed.

Lemma backward_error_fatal n s ds b s1 L e part :
  data_times s = Some ds ->
  pull (ticked s) = (Return b, s1) ->
  summed_loss (weights s) b = Return (LTensor L) ->
  autograd (ddiv L (float_of_Z n)) = Some (e, part) ->
  exists s', sub_iteration n s = (Raise e, s').
Proof.
  intros Hds Hpull Hloss Hback.
  unfold sub_iteration, bind, time_time, modify. cbn [fst snd].
  unfold ticked in Hpull. rewrite Hpull.
  apply pull_frame in Hpull. rewrite Hpull. cbn.
  unfold append_data_time, append_to. cbn. rewrite Hds. cbn.
  unfold lift. rewrite Hloss. unfold backward. rewrite Hback. eauto.
Qed.

Lemma step_error_fatal s e :
  sgd_step (param_groups (optim s)) (weights s) (grads s) = Raise e ->
  step s = (Raise e, s).
Proof. unfold step. by intros ->. Qed.

(** An exception of the optimizer step leaves the outer iteration. *)
Lemma step_error_aborts cfg k s o1 sa e :
  poly_lr_scheduler (LR cfg) (k - 1) (LR_DECAY cfg) (ITER_MAX cfg)
                    (POLY_POWER cfg) (optim s) = (Return tt, o1) ->
  accumulate (ITER_SIZE cfg) (zeroed (set_optim o1 s)) = (Return tt, sa) ->
  sgd_step (param_groups (optim sa)) (weights sa) (grads sa) = Raise e ->
  outer_iteration cfg k s =
    (Raise e, set_loss_meter (loss_meter sa ++ [iter_loss sa]) sa).
Proof.
  intros Hs Hacc Hsgd. unfold outer_iteration.
  unfold bind at 1. unfold on_optim. rewrite Hs.
  unfold bind at 1. unfold zero_grad, modify.
  unfold bind at 1. unfold zeroed in Hacc. rewrite Hacc.
  unfold bind at 1. unfold modify.
  apply bind_raises. by apply step_error_fatal.
Qed.

Lemma sub_iteration_error_fatal cfg k s o1 (pre post : list Z) x sj e s' :
  poly_lr_scheduler (LR cfg) (k - 1) (LR_DECAY cfg) (ITER_MAX cfg)
                    (POLY_POWER cfg) (optim s) = (Return tt, o1) ->
  range1 (ITER_SIZE cfg) = pre ++ x :: post ->
  for_each pre (fun _ => sub_iteration (ITER_SIZE cfg))
           (reset (zeroed (set_optim o1 s))) = (Return tt, sj) ->
  sub_iteration (ITER_SIZE cfg) sj = (Raise e, s') ->
  outer_iteration cfg k s = (Raise e, s').
Proof.
  intros Hs Hr Hpre Hx. unfold outer_iteration.
  unfold bind at 1. unfold on_optim. rewrite Hs.
  unfold bind at 1. unfold zero_grad, modify.
  apply bind_raises. unfold accumulate, bind, modify. cbn [fst snd].
  rewrite Hr.
  exact (for_each_aborts pre post x _ _ sj e s' Hpre Hx).
Qed.

Lemma outer_iteration_error_fatal cfg (pre post : list Z) k s0 s e s' :
  range1 (ITER_MAX cfg) = pre ++ k :: post ->
  for_each pre (outer_iteration cfg) s0 = (Return tt, s) ->
  outer_iteration cfg k s = (Raise e, s') ->
  train cfg s0 = (Raise e, s').
Proof.
  intros Hr Hpre Hk. unfold train. apply bind_raises. rewrite Hr.
  by apply (for_each_aborts pre post k _ s0 s).
Qed.

#[local] Instance same_writes_preorder : PreOrder same_writes.
Proof.
  split.
  - by intros s.
  - intros s1 s2 s3 H12 H23. unfold same_writes in *. congruence.
Qed.

Ltac writes := try exact same_writes_preorder.

Lemma writes_pull : keeps same_writes pull.
Proof.
  intros s. unfold same_writes.
  destruct (pull s) as [r s1] eqn:Hp. apply pull_frame in Hp.
  simpl. by rewrite Hp.
Qed.

Lemma writes_sub_iteration n : keeps same_writes (sub_iteration n).
Proof.
  unfold sub_iteration.
  apply keeps_bind; writes; [done | intros t0].
  apply keeps_bind; writes; [done | intros _].
  apply keeps_bind; writes; [apply writes_pull | intros b].
  apply keeps_bind; writes; [done | intros t1].
  apply keeps_bind; writes; [|intros _].
  { intros s. unfold same_writes, append_data_time.
    by destruct (append_to _ _). }
  apply keeps_bind; writes; [done | intros t2].
  apply keeps_bind; writes; [done | intros _].
  apply keeps_bind; writes; [done | intros w].
  apply keeps_bind; writes; [done | intros loss].
  destruct loss as [z|d]; [done|].
  apply keeps_bind; writes; [|by intros _].
  intros s. unfold same_writes, backward.
  by destruct (autograd _) as [[e part]|].
Qed.

Lemma writes_accumulate n : keeps same_writes (accumulate n).
Proof.
  unfold accumulate.
  apply keeps_bind; writes; [done | intros _].
  apply keeps_bind; writes; [done | intros _].
  apply keeps_bind; writes; [done | intros _].
  apply keeps_for_each; writes. intros _. apply writes_sub_iteration.
Qed.

Lemma raises_quietly {A B} (m : M state A) (k : A -> M state B) :
  keeps same_writes m ->
  (forall a s e s', k a s = (Raise e, s') -> writes s' = writes s) ->
  forall s e s', bind m k s = (Raise e, s') -> writes s' = writes s.
Proof.
  intros Hm Hk s e s' [Hr | (a & s1 & Hr & Hka)]%bind_raises_inv.
  - specialize (Hm s). by rewrite Hr in Hm.
  - specialize (Hm s). rewrite Hr in Hm. simpl in Hm.
    rewrite (Hk _ _ _ _ Hka). exact Hm.
Qed.

(** An outer iteration that raises has written nothing. *)
Lemma outer_iteration_raises cfg k s e s' :
  outer_iteration cfg k s = (Raise e, s') -> writes s' = writes s.
Proof.
  revert s e s'. unfold outer_iteration.
  apply raises_quietly; [|intros _].
  { intros s. unfold same_writes, on_optim.
    by destruct (poly_lr_scheduler _ _ _ _ _ (optim s)). }
  apply raises_quietly; [done | intros _].
  apply raises_quietly; [apply writes_accumulate | intros _].
  apply raises_quietly; [done | intros _].
  apply raises_quietly; [|intros _].
  { intros s. unfold same_writes, step. by destruct (sgd_step _ _ _). }
  apply raises_quietly; [done | intros t].
  apply raises_quietly; [|intros t0].
  { intros s. unfold same_writes, read_start. by destruct (start s). }
  apply raises_quietly; [|intros _].
  { intros s. unfold same_writes, append_compute_time.
    by destruct (append_to _ _). }
  apply raises_quietly; [|intros _].
  { intros s. unfold same_writes, every_n.
    destruct (ITER_TB cfg =? 0); [done|].
    destruct (k mod ITER_TB cfg =? 0); [|done].
    destruct (log_scalars k s) as [r s1] eqn:Hp.
    apply log_scalars_frame in Hp. simpl. by rewrite Hp. }
  intros s e s'. unfold bind, every_n, save, modify.
  destruct (ITER_SAVE cfg =? 0); [by intros [= _ <-]|].
  destruct (k mod ITER_SAVE cfg =? 0); simpl;
    by destruct (k mod 100 =? 0).
Qed.

(** A run that ends in an outer iteration has written the checkpoints
    of the iterations before it, and nothing else. *)
Lemma train_aborts cfg (pre post : list Z) k s0 s e s' :
  range1 (ITER_MAX cfg) = pre ++ k :: post ->
  for_each pre (outer_iteration cfg) s0 = (Return tt, s) ->
  outer_iteration cfg k s = (Raise e, s') ->
  train cfg s0 = (Raise e, s') /\
  map fst (writes s') =
    map fst (writes s0) ++
    map (path_of cfg) (flat_map (iteration_writes cfg) pre).
Proof.
  intros Hr Hpre Hk. split.
  - by apply (outer_iteration_error_fatal cfg pre post k s0 s).
  - rewrite (outer_iteration_raises _ _ _ _ _ Hk).
    by apply outer_iterations_return in Hpre as [Hw _].
Qed.

Lemma accumulate_skipped n s sa :
  n < 1 -> accumulate n s = (Return tt, sa) -> start sa = start s.
Proof.
  intros Hn. unfold accumulate, bind, modify, range1. cbn [fst snd].
  replace (Z.to_nat n) with 0%nat by lia. simpl. by intros [= <-].
Qed.

Lemma not_logs cfg (ks : list write_kind) :
  Forall (fun k => k ≠ Logs) ks ->
  filter (fun p => p = "logs.csv") (map (path_of cfg) ks) = [].
Proof.
  induction 1 as [|k ks Hk _ IH]; [done|]. simpl.
  rewrite filter_cons, IH. rewrite decide_False; [done|].
  intros Hp. apply Hk. by apply (path_of_inj cfg k Logs).
Qed.

Lemma iteration_writes_not_logs cfg (ks : list Z) :
  Forall (fun k => k ≠ Logs) (flat_map (iteration_writes cfg) ks).
Proof.
  induction ks as [|j ks IH]; [done|]. simpl.
  apply Forall_app. split; [|done]. unfold iteration_writes.
  destruct (j mod ITER_SAVE cfg =? 0), (j mod 100 =? 0);
    repeat constructor; done.
Qed.

Lemma filter_fst (l : list (string * file)) :
  filter (fun p => p = "logs.csv") (map fst l) = [] ->
  filter (fun w => w.1 = "logs.csv") l = [].
Proof.
  induction l as [|[a b] l IH]; [done|]. simpl.
  rewrite !filter_cons. simpl.
  destruct (decide (a = "logs.csv")); [done|]. exact IH.
Qed.
End Failures.

(** ** The claims on the loop *)

Section Claims.
Context {F : Type} `{PyFloat F} `{World F}.
Implicit Types s : state.


(** C5.  A run that completes writes, in this order: at every
    iteration [1 .. ITER_MAX] the history file of that iteration when it
    is a multiple of [ITER_SAVE], then the "current" file when it is a
    multiple of 100; then [logs.csv] and the "final" file.  So every
    history file is written once, at its iteration, and never again; the
    "current" file is written once per multiple of 100; the "final" file
    once, last.  With [ITER_SAVE = 1000] and [ITER_MAX = 2500] the
    history files are those of iterations 1000 and 2000. *)
Theorem checkpoint_cadence cfg s s' :
  train cfg s = (Return tt, s') ->
  let written := map (path_of cfg) (run_writes cfg) in
  map fst (writes s') = map fst (writes s) ++ written /\
  (forall i,
     times_written (path_of cfg (History i)) written =
     if decide (i ∈ range1 (ITER_MAX cfg) /\ i mod ITER_SAVE cfg = 0)
     then 1%nat else 0%nat) /\
  times_written (path_of cfg Current) written =
    length (filter (fun i => i mod 100 = 0) (range1 (ITER_MAX cfg))) /\
  times_written (path_of cfg Final) written = 1%nat /\
  last (map fst (writes s')) = Some (path_of cfg Final) /\
  (ITER_SAVE cfg = 1000 -> ITER_MAX cfg = 2500 ->
   filter (fun k => is_history k = true) (run_writes cfg) =
   [History 1000; History 2000]).
Proof.
  intros Hrun written. pose proof (run_paths _ _ _ Hrun) as Hpaths.
  split; [exact Hpaths|]. subst written.
  split; [|split; [|split; [|split]]].
  - intros i. rewrite times_written_path. unfold run_writes.
    rewrite filter_app, length_app, count_history by apply NoDup_range1.
    rewrite !filter_cons, filter_nil.
    destruct (decide (Logs = History i)) as [|_]; [done|].
    destruct (decide (Final = History i)) as [|_]; [done|].
    simpl. lia.
  - rewrite times_written_path. unfold run_writes.
    rewrite filter_app, length_app, count_current.
    rewrite !filter_cons, filter_nil.
    destruct (decide (Logs = Current)) as [|_]; [done|].
    destruct (decide (Final = Current)) as [|_]; [done|].
    simpl. lia.
  - rewrite times_written_path. unfold run_writes.
    rewrite filter_app, count_other by done.
    rewrite !filter_cons, filter_nil.
    destruct (decide (Logs = Final)) as [|_]; [done|].
    by rewrite decide_True.
  - rewrite Hpaths. unfold run_writes.
    rewrite map_app.
    change (map (path_of cfg) [Logs; Final])
      with (["logs.csv"] ++ [path_of cfg Final]).
    rewrite !app_assoc. apply last_snoc.
  - intros Hsave Hmax. unfold run_writes.
    rewrite filter_app, history_writes, Hsave, Hmax.
    by vm_compute.
Qed.

(** C10.  When the constructor of the optimizer returns, the groups
    hold the ["1x"], ["10x"] and ["20x"] sequences of the grouper, with
    weight decay [WEIGHT_DECAY], [WEIGHT_DECAY] and [0.0]; every ASPP bias
    is held by the third group and by no other (the constructor refuses a
    tensor that is in two groups, and a bias that is [None]); the
    parameters and the weight decay of every group are the same after any
    number of outer iterations and after the whole of [main], however the
    run ends; so no group that holds an ASPP bias ever has a weight decay
    other than [0.0], and every optimizer step of the run reads groups of
    which this is true.  When the constructor raises, [main] ends with
    its exception before the loop: no step is taken. *)
Theorem aspp_bias_never_decayed cfg mdl (w0 : Weights) :
  (forall opt0, make_optimizer cfg mdl = Return opt0 ->
     (params_of opt0 0 = Some (VParams (get_params mdl "1x")) /\
      params_of opt0 1 = Some (VParams (get_params mdl "10x")) /\
      params_of opt0 2 = Some (VParams (get_params mdl "20x"))) /\
     (weight_decay_of opt0 0 = Some (VFloat (WEIGHT_DECAY cfg)) /\
      weight_decay_of opt0 1 = Some (VFloat (WEIGHT_DECAY cfg)) /\
      weight_decay_of opt0 2 = Some (VFloat (float_of_Z 0))) /\
     (forall b, aspp_bias mdl b ->
        holds opt0 2 b /\ forall i, holds opt0 i b -> i = 2%nat) /\
     (forall (ks : list Z) i,
        params_of
          (optim (for_each ks (outer_iteration cfg) (init_state opt0 w0)).2)
          i = params_of opt0 i /\
        weight_decay_of
          (optim (for_each ks (outer_iteration cfg) (init_state opt0 w0)).2)
          i = weight_decay_of opt0 i) /\
     (forall i,
        params_of (optim (main cfg mdl w0).2) i = params_of opt0 i /\
        weight_decay_of (optim (main cfg mdl w0).2) i
          = weight_decay_of opt0 i) /\
     (forall b (ks : list Z), aspp_bias mdl b ->
        undecayed
          (optim (for_each ks (outer_iteration cfg) (init_state opt0 w0)).2)
          b) /\
     (forall b, aspp_bias mdl b -> undecayed (optim (main cfg mdl w0).2) b) /\
     (forall b (ks : list Z) k s', aspp_bias mdl b ->
        outer_iteration cfg k
          (for_each ks (outer_iteration cfg) (init_state opt0 w0)).2
          = (Return tt, s') ->
        exists gs w g,
          sgd_step gs w g = Return (weights s') /\
          gs = param_groups (optim s') /\ undecayed (optim s') b)) /\
  (forall e, make_optimizer cfg mdl = Raise e ->
     main cfg mdl w0 = (Raise e, init_state (Optimizer []) w0)).
Proof.
  split.
  2:{ intros e He. unfold main. by rewrite He. }
  intros opt0 Hopt.
  assert (Hloop : forall ks : list Z,
    lr_only opt0
      (optim (for_each ks (outer_iteration cfg) (init_state opt0 w0)).2)).
  { intros ks.
    assert (Hk : keeps groups_kept (for_each ks (outer_iteration cfg))).
    { apply keeps_for_each; [exact groups_kept_preorder|].
      apply keeps_outer_iteration. }
    apply (Hk (init_state opt0 w0)). }
  assert (Hmain : lr_only opt0 (optim (main cfg mdl w0).2)).
  { unfold main. rewrite Hopt.
    apply (keeps_train cfg (init_state opt0 w0)). }
  assert (Hbias : forall b, aspp_bias mdl b -> undecayed opt0 b).
  { intros b Hb i Hi.
    destruct (aspp_bias_group cfg mdl opt0 b Hopt Hb) as [_ Honly].
    rewrite (Honly i Hi).
    apply make_optimizer_returns in Hopt as (-> & _). reflexivity. }
  split; [|split; [|split; [|split; [|split; [|split; [|split]]]]]].
  - apply make_optimizer_returns in Hopt as (-> & _). by repeat split.
  - apply make_optimizer_returns in Hopt as (-> & _). by repeat split.
  - intros b Hb. by apply (aspp_bias_group cfg mdl).
  - intros ks i. split; [apply params_kept | apply weight_decay_kept];
      apply Hloop.
  - intros i. by split; [apply params_kept | apply weight_decay_kept].
  - intros b ks Hb. apply (undecayed_kept opt0); [apply Hloop | by apply Hbias].
  - intros b Hb. apply (undecayed_kept opt0); [done | by apply Hbias].
  - intros b ks k s' Hb Hret.
    pose proof (keeps_outer_iteration cfg k
      (for_each ks (outer_iteration cfg) (init_state opt0 w0)).2) as Hkeep.
    rewrite Hret in Hkeep. unfold groups_kept in Hkeep. simpl in Hkeep.
    apply outer_iteration_returns in Hret
      as (o1 & sa & w' & t0 & _ & _ & Hsgd & _ & _ & _ & Ho & Hw & _).
    exists (param_groups o1),
      (weights (for_each ks (outer_iteration cfg) (init_state opt0 w0)).2),
      (grads sa).
    rewrite Hw, Ho. split; [exact Hsgd|]. split; [done|].
    apply (undecayed_kept opt0); [|by apply Hbias].
    rewrite <- Ho. eapply lr_only_trans; [apply Hloop | exact Hkeep].
Qed.

(** C4, amended.  In the pull of a sub-iteration every exception of the
    first [next] - exhaustion or any other - is caught: a new iterator is
    made from the loader and [next] is called once more, outside the
    [try]; its batch is the result, and if it raises in turn that
    exception leaves the pull.  An exception that leaves the pull, an
    exception of the forward pass or of the loss, and an exception of the
    backward pass end the sub-iteration; an exception of a sub-iteration
    and an exception of the optimizer step end the outer iteration; an
    outer iteration that raises has written nothing, and ends the run:
    the run raises the same exception in the same state, with the
    checkpoints of the iterations before it written and nothing else - no
    retry, no later iteration, no [logs.csv], no final checkpoint. *)
Theorem pull_and_failures cfg :
  (forall s b s1, next_batch s = (Return b, s1) -> pull s = (Return b, s1)) /\
  (forall s e s1, next_batch s = (Raise e, s1) ->
     pull s = next_batch (restarted s1)) /\
  (forall s e s1 b rest, next_batch s = (Raise e, s1) ->
     loader (epochs s1) = Return b :: rest ->
     pull s = (Return b, set_loader rest (S (epochs s1)) s1)) /\
  (forall s e s1 e' rest, next_batch s = (Raise e, s1) ->
     loader (epochs s1) = Raise e' :: rest ->
     pull s = (Raise e', set_loader rest (S (epochs s1)) s1)) /\
  (forall s e s1, next_batch s = (Raise e, s1) ->
     loader (epochs s1) = [] ->
     pull s = (Raise StopIteration, restarted s1)) /\
  (forall n s e s1, pull (ticked s) = (Raise e, s1) ->
     sub_iteration n s = (Raise e, s1)) /\
  (forall n s ds b s1 e, data_times s = Some ds ->
     pull (ticked s) = (Return b, s1) ->
     summed_loss (weights s) b = Raise e ->
     exists s', sub_iteration n s = (Raise e, s')) /\
  (forall n s ds b s1 L e part, data_times s = Some ds ->
     pull (ticked s) = (Return b, s1) ->
     summed_loss (weights s) b = Return (LTensor L) ->
     autograd (ddiv L (float_of_Z n)) = Some (e, part) ->
     exists s', sub_iteration n s = (Raise e, s')) /\
  (forall k s o1 (pre post : list Z) x sj e s',
     poly_lr_scheduler (LR cfg) (k - 1) (LR_DECAY cfg) (ITER_MAX cfg)
                       (POLY_POWER cfg) (optim s) = (Return tt, o1) ->
     range1 (ITER_SIZE cfg) = pre ++ x :: post ->
     for_each pre (fun _ => sub_iteration (ITER_SIZE cfg))
              (reset (zeroed (set_optim o1 s))) = (Return tt, sj) ->
     sub_iteration (ITER_SIZE cfg) sj = (Raise e, s') ->
     outer_iteration cfg k s = (Raise e, s')) /\
  (forall k s o1 sa e,
     poly_lr_scheduler (LR cfg) (k - 1) (LR_DECAY cfg) (ITER_MAX cfg)
                       (POLY_POWER cfg) (optim s) = (Return tt, o1) ->
     accumulate (ITER_SIZE cfg) (zeroed (set_optim o1 s)) = (Return tt, sa) ->
     sgd_step (param_groups (optim sa)) (weights sa) (grads sa) = Raise e ->
     outer_iteration cfg k s =
       (Raise e, set_loss_meter (loss_meter sa ++ [iter_loss sa]) sa)) /\
  (forall k s e s',
     outer_iteration cfg k s = (Raise e, s') -> writes s' = writes s) /\
  (forall (pre post : list Z) k s0 s e s',
     range1 (ITER_MAX cfg) = pre ++ k :: post ->
     for_each pre (outer_iteration cfg) s0 = (Return tt, s) ->
     outer_iteration cfg k s = (Raise e, s') ->
     train cfg s0 = (Raise e, s') /\
     map fst (writes s') =
       map fst (writes s0) ++
       map (path_of cfg) (flat_map (iteration_writes cfg) pre)) /\
  (forall (pre post : list Z) k s0 s o1 sa e,
     range1 (ITER_MAX cfg) = pre ++ k :: post ->
     for_each pre (outer_iteration cfg) s0 = (Return tt, s) ->
     poly_lr_scheduler (LR cfg) (k - 1) (LR_DECAY cfg) (ITER_MAX cfg)
                       (POLY_POWER cfg) (optim s) = (Return tt, o1) ->
     accumulate (ITER_SIZE cfg) (zeroed (set_optim o1 s)) = (Return tt, sa) ->
     sgd_step (param_groups (optim sa)) (weights sa) (grads sa) = Raise e ->
     exists s',
       train cfg s0 = (Raise e, s') /\ weights s' = weights s /\
       map fst (writes s') =
         map fst (writes s0) ++
         map (path_of cfg) (flat_map (iteration_writes cfg) pre)).
Proof.
  split; [apply pull_first|]. split; [apply pull_retry|].
  split; [apply pull_recovers|]. split; [apply pull_raises|].
  split; [apply pull_surfaces|]. split; [apply pull_error_fatal|].
  split; [apply forward_error_fatal|]. split; [apply backward_error_fatal|].
  split; [apply sub_iteration_error_fatal|].
  split; [apply step_error_aborts|].
  split; [apply outer_iteration_raises|].
  split; [apply train_aborts|].
  intros pre post k s0 s o1 sa e Hr Hpre Hs Hacc Hsgd.
  pose proof (step_error_aborts cfg k s o1 sa e Hs Hacc Hsgd) as Hk.
  destruct (train_aborts cfg pre post k s0 s e _ Hr Hpre Hk) as [Ht Hw].
  eexists. split; [exact Ht|]. split; [|exact Hw].
  apply accumulate_returns in Hacc as (_ & _ & _ & _ & _ & _ & Hws & _).
  simpl. by rewrite Hws.
Qed.

(** X14.  What [main] leaves in [logs.csv], for every run that
    completes: one row. *)
Theorem main_rows cfg mdl (w0 : Weights) s' :
  main cfg mdl w0 = (Return tt, s') ->
  1 <= ITER_MAX cfg /\ 1 <= ITER_SIZE cfg /\
  exists rows, logged_rows s' = Some rows /\ length rows = 1%nat.
Proof.
  unfold main. destruct (make_optimizer cfg mdl) as [opt0|e0]; [|done].
  intros Hrun.
  assert (Hmax : 1 <= ITER_MAX cfg).
  { destruct (Z_lt_le_dec (ITER_MAX cfg) 1) as [Hlt|]; [|done]. exfalso.
    unfold train, range1 in Hrun.
    replace (Z.to_nat (ITER_MAX cfg)) with 0%nat in Hrun by lia.
    simpl in Hrun. unfold bind, ret, write_logs in Hrun. simpl in Hrun.
    discriminate Hrun. }
  assert (Hsize : 1 <= ITER_SIZE cfg).
  { destruct (Z_lt_le_dec (ITER_SIZE cfg) 1) as [Hlt|]; [|done]. exfalso.
    apply train_returns in Hrun as (sl & _ & _ & Hloop & _).
    unfold range1 in Hloop.
    destruct (Z.to_nat (ITER_MAX cfg)) as [|m] eqn:Hm; [lia|].
    simpl in Hloop. apply bind_returns in Hloop as ([] & s1 & Hk & _).
    apply outer_iteration_returns in Hk
      as (o1 & sa & w' & t0 & _ & Hacc & _ & Hst & _).
    apply accumulate_skipped in Hacc; [|done].
    simpl in Hacc. congruence. }
  split; [done|]. split; [done|].
  destruct (run_rows cfg _ _ Hmax Hrun) as (pre & rows & w & Hw & Hpre & Hlen).
  exists rows. split; [|lia].
  unfold logged_rows. rewrite Hw, filter_app.
  rewrite (filter_fst pre).
  - done.
  - rewrite Hpre. simpl. apply not_logs, iteration_writes_not_logs.
Qed.
End Claims.

(** ** The claims at the fixture *)

Module Examples.
Import Fixture FixtureLaws.

(** A computation is the pair of its outcome and its final state. *)
Lemma ran {S A} (r : outcome A * S) (a : A) :
  r.1 = Return a -> r = (Return a, r.2).
Proof. destruct r as [o s]. simpl. by intros ->. Defined.

Lemma raised {S A} (r : outcome A * S) (e : exn) :
  r.1 = Raise e -> r = (Raise e, r.2).
Proof. destruct r as [o s]. simpl. by intros ->. Defined.

(** C8, counterexample.  A model whose one convolution is named
    ["layer5.aspp.c0"], with distinct weight and bias: its weight is in
    the "1x" group and in the "10x" group. *)
Lemma get_params_overlap :
  NoDup (conv_tensors overlapping) /\
  Some 1%positive ∈ get_params overlapping "1x" /\
  Some 1%positive ∈ get_params overlapping "10x".
Proof.
  split; [|split].
  - apply (bool_decide_unpack _). by vm_compute.
  - apply (bool_decide_unpack _). by vm_compute.
  - apply (bool_decide_unpack _). by vm_compute.
Qed.

Lemma names_apart_net : names_apart net.
Proof.
  intros name m Hin Hconv Hl Ha.
  repeat (apply elem_of_cons in Hin as [Heq|Hin];
          [injection Heq as -> ->; by vm_compute in Hl, Ha |]).
  by apply elem_of_nil in Hin.
Defined.

Lemma no_aspp_backbone : no_match "aspp" backbone.
Proof.
  intros name m Hin Ha.
  repeat (apply elem_of_cons in Hin as [Heq|Hin];
          [injection Heq as -> ->; by vm_compute in Ha |]).
  by apply elem_of_nil in Hin.
Defined.

(** C8, witness: the fixture network, and a network without ASPP
    module. *)
Lemma get_params_disjoint_witness :
  (forall t,
     ~ (Some t ∈ get_params net "1x" /\ Some t ∈ get_params net "10x") /\
     ~ (Some t ∈ get_params net "1x" /\ Some t ∈ get_params net "20x") /\
     ~ (Some t ∈ get_params net "10x" /\ Some t ∈ get_params net "20x")) /\
  get_params backbone "10x" = [] /\ get_params backbone "20x" = [].
Proof.
  split.
  - apply (proj1 (get_params_disjoint net)).
    + exact names_apart_net.
    + apply (bool_decide_unpack _). by vm_compute.
  - apply (proj2 (proj2 (get_params_disjoint backbone))).
    exact no_aspp_backbone.
Defined.

(** C2, counterexample.  At [current_iter = 0] the scheduler does not
    fire when the interval is 0 (the modulo raises [ZeroDivisionError])
    nor when [max_iter] is negative (the guard skips the update). *)
Lemma scheduler_at_zero_does_not_fire :
  poly_lr_scheduler (1 # 10)%Q 0 0 10 1%Q sgd
    = (Raise ZeroDivisionError, sgd) /\
  poly_lr_scheduler (1 # 10)%Q 0 1 (-1) 1%Q sgd = (Return tt, sgd).
Proof. split; reflexivity. Qed.

(** The first call of a run of two iterations. *)
Lemma first_call_fired :
  fired (1 # 10)%Q 0 1 2 1%Q sgd
        (poly_lr_scheduler (1 # 10)%Q 0 1 2 1%Q sgd).2 (1 # 10)%Q.
Proof.
  split; [lia|]. split; [reflexivity|]. split; [reflexivity|].
  apply ran. reflexivity.
Defined.

Lemma second_call_fired :
  fired (1 # 10)%Q 1 1 2 1%Q sgd
        (poly_lr_scheduler (1 # 10)%Q 1 1 2 1%Q sgd).2 (1 # 20)%Q.
Proof.
  split; [lia|]. split; [reflexivity|]. split; [reflexivity|].
  apply ran. reflexivity.
Defined.

(** C2, witness: iteration 3 with interval 2 is skipped; the first call
    of a run of two iterations fires. *)
Lemma scheduler_guard_witness :
  1 ≠ 0 /\
  poly_lr_scheduler (1 # 10)%Q 3 2 10 1%Q sgd = (Return tt, sgd) /\
  (exists opt' new_lr,
     fired (1 # 10)%Q 0 1 2 1%Q sgd opt' new_lr /\
     lr_of opt' 0 = Some (VFloat new_lr)).
Proof.
  split; [lia|]. split.
  - apply (proj1 (scheduler_guard (1 # 10)%Q 3 2 10 1%Q sgd ltac:(lia))).
    intros [[k Hk] _]. lia.
  - destruct (scheduler_guard (1 # 10)%Q 0 1 2 1%Q sgd ltac:(lia))
      as (_ & Hfires & Hsets).
    destruct Hfires as (opt' & new_lr & Hf);
      [reflexivity | lia | vm_compute; lia |].
    exists opt', new_lr. split; [exact Hf|]. by apply Hsets.
Defined.

(** C3, witness: the first call of a run of two iterations. *)
Lemma group_rates_after_update_witness :
  fired (1 # 10)%Q 0 1 2 1%Q sgd
        (poly_lr_scheduler (1 # 10)%Q 0 1 2 1%Q sgd).2 (1 # 10)%Q /\
  exists group1_lr : Q,
    lr_of (poly_lr_scheduler (1 # 10)%Q 0 1 2 1%Q sgd).2 0
      = Some (VFloat group1_lr) /\
    lr_of (poly_lr_scheduler (1 # 10)%Q 0 1 2 1%Q sgd).2 1
      = Some (VFloat (fmul (float_of_Z 10) group1_lr)) /\
    lr_of (poly_lr_scheduler (1 # 10)%Q 0 1 2 1%Q sgd).2 2
      = Some (VFloat (fmul (float_of_Z 20) group1_lr)).
Proof.
  split; [exact first_call_fired|].
  exact (group_rates_after_update _ _ _ _ _ _ _ _ first_call_fired).
Defined.



Lemma first_iteration_returns :
  @outer_iteration Q Q_float (world two_samples) (cfg 2 2) 1 s0
    = (Return tt, s1).
Proof.
  apply (ran (@outer_iteration Q Q_float (world two_samples) (cfg 2 2) 1 s0)
             tt).
  by vm_compute.
Defined.

(** The optimizer of the fixture is the one the constructor returns,
    for both configurations. *)
Lemma sgd_built : make_optimizer (cfg 2 2) net = Return sgd.
Proof. reflexivity. Defined.

Lemma sgd_built_long : make_optimizer long_cfg net = Return sgd.
Proof. reflexivity. Defined.


(** The gradient and the loss of that iteration: the mean [-7] of
    [-1] and [-13], not their sum, and the mean [21/4] of [1/4] and
    [41/4]. *)
Example first_iteration_values :
  grads s1 !! 1%positive = Some (-7)%Q /\ loss_meter s1 = [(21 # 4)%Q].
Proof. split; reflexivity. Qed.


(** C4, counterexample.  A first fetch that fails with an error that is
    not exhaustion (a corrupt image) is swallowed by the bare [except:]:
    the pull delivers the first batch of a new iterator and the run
    completes. *)
Lemma fetch_error_swallowed :
  (@next_batch Q (world corrupt_first)
     (ticked (@init_state Q Q_float (world corrupt_first) sgd (1 # 2)%Q))).1
    = Raise (DataError "corrupt image") /\
  (@pull Q (world corrupt_first)
     (ticked (@init_state Q Q_float (world corrupt_first) sgd (1 # 2)%Q))).1
    = Return 1%Q /\
  (run corrupt_first 2 2).1 = Return tt.
Proof. repeat split; by vm_compute. Qed.

(** C4, witness: the pull recovers from a failed first fetch; a batch
    the network rejects, a backward pass that fails and an optimizer step
    that fails each end the run with their exception, in the first outer
    iteration, with nothing written. *)
Lemma pull_and_failures_witness :
  (@pull Q (world corrupt_first)
     (ticked (@init_state Q Q_float (world corrupt_first) sgd (1 # 2)%Q))).1
    = Return 1%Q /\
  (run bad_batch 2 2).1 = Raise (ModelError "shape mismatch") /\
  writes (run bad_batch 2 2).2 = [] /\
  (@main Q Q_float failing_backward (cfg 2 2) net (1 # 2)%Q).1
    = Raise (ModelError "size mismatch in backward") /\
  (exists s',
     @train Q Q_float failing_step (cfg 2 2)
       (@init_state Q Q_float failing_step sgd (1 # 2)%Q)
       = (Raise (ModelError "size mismatch in step"), s') /\
     weights s' = (1 # 2)%Q /\ map fst (writes s') = []).
Proof.
  split; [|split; [|split; [|split]]].
  - set (s := ticked (@init_state Q Q_float (world corrupt_first) sgd
                        (1 # 2)%Q)).
    destruct (@pull_and_failures Q Q_float (world corrupt_first) (cfg 2 2))
      as (_ & _ & Hrec & _).
    rewrite (Hrec s (DataError "corrupt image")
               (@next_batch Q (world corrupt_first) s).2 1%Q [Return 3%Q]);
      [reflexivity | by vm_compute | by vm_compute].
  - destruct (@pull_and_failures Q Q_float (world bad_batch) (cfg 2 2))
      as (_ & _ & _ & _ & _ & _ & _ & _ & _ & _ & _ & Habort & _).
    unfold run, main. rewrite sgd_built.
    set (i0 := @init_state Q Q_float (world bad_batch) sgd (1 # 2)%Q).
    destruct (Habort [] [2] 1 i0 i0 (ModelError "shape mismatch")
               (@outer_iteration Q Q_float (world bad_batch) (cfg 2 2) 1
                  i0).2) as [Ht _];
      [reflexivity | by vm_compute | | by rewrite Ht].
    apply (raised (@outer_iteration Q Q_float (world bad_batch) (cfg 2 2) 1
                     i0)).
    by vm_compute.
  - by vm_compute.
  - destruct (@pull_and_failures Q Q_float failing_backward (cfg 2 2))
      as (_ & _ & _ & _ & _ & _ & _ & _ & _ & _ & _ & Habort & _).
    unfold main. rewrite sgd_built.
    set (i0 := @init_state Q Q_float failing_backward sgd (1 # 2)%Q).
    destruct (Habort [] [2] 1 i0 i0 (ModelError "size mismatch in backward")
               (@outer_iteration Q Q_float failing_backward (cfg 2 2) 1
                  i0).2) as [Ht _];
      [reflexivity | by vm_compute | | by rewrite Ht].
    apply (raised (@outer_iteration Q Q_float failing_backward (cfg 2 2) 1
                     i0)).
    by vm_compute.
  - destruct (@pull_and_failures Q Q_float failing_step (cfg 2 2))
      as (_ & _ & _ & _ & _ & _ & _ & _ & _ & _ & _ & _ & Hstep).
    set (i0 := @init_state Q Q_float failing_step sgd (1 # 2)%Q).
    set (o1 := (poly_lr_scheduler (LR (cfg 2 2)) (1 - 1) (LR_DECAY (cfg 2 2))
                  (ITER_MAX (cfg 2 2)) (POLY_POWER (cfg 2 2)) (optim i0)).2).
    set (sa := (@accumulate Q Q_float failing_step (ITER_SIZE (cfg 2 2))
                  (zeroed (set_optim o1 i0))).2).
    destruct (Hstep [] [2] 1 i0 i0 o1 sa
                (ModelError "size mismatch in step"))
      as (s' & Ht & Hw & Hwr).
    + reflexivity.
    + by vm_compute.
    + apply (ran (poly_lr_scheduler (LR (cfg 2 2)) (1 - 1)
                    (LR_DECAY (cfg 2 2)) (ITER_MAX (cfg 2 2))
                    (POLY_POWER (cfg 2 2)) (optim i0)) tt).
      by vm_compute.
    + apply (ran (@accumulate Q Q_float failing_step (ITER_SIZE (cfg 2 2))
                    (zeroed (set_optim o1 i0))) tt).
      by vm_compute.
    + by vm_compute.
    + exists s'. split; [exact Ht|]. split; [exact Hw | exact Hwr].
Defined.

(** C10, witness: the fixture network.  Its ASPP bias is tensor 3,
    held by the third group only, whose weight decay is [0.0] at the end
    of the run. *)
Lemma aspp_bias_never_decayed_witness :
  make_optimizer (cfg 2 2) net = Return sgd /\
  aspp_bias net 3%positive /\
  holds sgd 2 3%positive /\
  (forall i, holds sgd i 3%positive -> i = 2%nat) /\
  undecayed (optim (run two_samples 2 2).2) 3%positive /\
  weight_decay_of (optim (run two_samples 2 2).2) 2
    = Some (VFloat (float_of_Z 0)).
Proof.
  assert (Hb : aspp_bias net 3%positive).
  { exists "scale.aspp.stages.c0", 2%positive. split; [|reflexivity].
    do 4 (apply elem_of_cons; right). apply elem_of_cons. by left. }
  destruct (@aspp_bias_never_decayed Q Q_float (world two_samples) (cfg 2 2)
              net (1 # 2)%Q) as [Hok _].
  destruct (Hok sgd sgd_built)
    as (_ & (_ & _ & Hwd) & Hgroup & _ & Hmain & _ & Hund & _).
  destruct (Hgroup 3%positive Hb) as [Hholds Honly].
  split; [exact sgd_built|]. split; [exact Hb|]. split; [exact Hholds|].
  split; [exact Honly|]. split; [exact (Hund 3%positive Hb)|].
  unfold run. destruct (Hmain 2%nat) as [_ Hd]. rewrite Hd. exact Hwd.
Defined.

(** The constructor refuses the model whose one convolution is named
    as a backbone layer and as an ASPP layer at once (its weight is in
    two groups), and a model one of whose ASPP convolutions has no
    bias. *)
Example constructor_refuses :
  make_optimizer (cfg 2 2) overlapping = Raise ValueError /\
  make_optimizer (cfg 2 2)
    [("aspp.c0", Conv2d 1%positive None)] = Raise TypeError /\
  (@main Q Q_float (world two_samples) (cfg 2 2) overlapping (1 # 2)%Q).1
    = Raise ValueError.
Proof. repeat split; reflexivity. Qed.

(** C5, witness: a run of 2500 iterations with [ITER_SAVE = 1000]. *)
Lemma checkpoint_cadence_witness :
  long_run.1 = Return tt /\
  map fst (writes long_run.2) =
    [] ++ map (path_of long_cfg) (run_writes long_cfg) /\
  (forall i,
     times_written (path_of long_cfg (History i))
                   (map (path_of long_cfg) (run_writes long_cfg)) =
     if decide (i ∈ range1 (ITER_MAX long_cfg) /\ i mod ITER_SAVE long_cfg = 0)
     then 1%nat else 0%nat) /\
  times_written (path_of long_cfg Current)
                (map (path_of long_cfg) (run_writes long_cfg)) =
    length (filter (fun i => i mod 100 = 0) (range1 (ITER_MAX long_cfg))) /\
  times_written (path_of long_cfg Final)
                (map (path_of long_cfg) (run_writes long_cfg)) = 1%nat /\
  last (map fst (writes long_run.2)) = Some (path_of long_cfg Final) /\
  filter (fun k => is_history k = true) (run_writes long_cfg) =
    [History 1000; History 2000].
Proof.
  unfold long_run, main. rewrite sgd_built_long.
  set (start := @init_state Q Q_float frozen sgd (1 # 2)%Q).
  assert (Hret : (@train Q Q_float frozen long_cfg start).1 = Return tt)
    by (by vm_compute).
  split; [exact Hret|].
  pose proof (@checkpoint_cadence Q Q_float frozen long_cfg start
                (@train Q Q_float frozen long_cfg start).2
                (ran (@train Q Q_float frozen long_cfg start) tt Hret))
    as (Hpaths & Hhist & Hcur & Hfin & Hlast & Hcad).
  split; [exact Hpaths|]. split; [exact Hhist|].
  split; [exact Hcur|]. split; [exact Hfin|].
  split; [exact Hlast|]. apply Hcad; reflexivity.
Defined.

(** C6, at the failing input.  A run of two outer iterations of two
    sub-iterations each completes and leaves one row in [logs.csv], not
    the four rows of its four sub-iterations: the two lists are emptied
    at every outer iteration, and [compute_times] receives one entry per
    outer iteration. *)
Theorem logs_table_has_one_row :
  (run two_samples 2 2).1 = Return tt /\
  logged_rows (run two_samples 2 2).2 = Some [(1%Q, 1%Q)] /\
  length [(1%Q, 1%Q)] ≠ Z.to_nat (2 * 2).
Proof. split; [by vm_compute|]. split; [by vm_compute|]. by vm_compute. Qed.

(** The same, by the general statement. *)
Lemma main_rows_witness :
  (run two_samples 2 2).1 = Return tt /\
  1 <= ITER_MAX (cfg 2 2) /\ 1 <= ITER_SIZE (cfg 2 2) /\
  exists rows, logged_rows (run two_samples 2 2).2 = Some rows /\
               length rows = 1%nat.
Proof.
  unfold run.
  assert (Hret : (@main Q Q_float (world two_samples) (cfg 2 2) net (1 # 2)%Q).1
                 = Return tt) by (by vm_compute).
  split; [exact Hret|].
  apply (@main_rows Q Q_float (world two_samples) (cfg 2 2) net (1 # 2)%Q).
  apply (ran (@main Q Q_float (world two_samples) (cfg 2 2) net (1 # 2)%Q) tt).
  exact Hret.
Defined.
End Examples.

(** * Further properties *)

(** ** The grouper *)

Section GrouperMore.
Implicit Types (mdl : model) (x : option tensor).

(** X1.  What each key yields: for ["1x"] the parameters of the
    convolutions whose name contains ["layer"], for ["10x"] the weights
    and for ["20x"] the biases of the convolutions whose name contains
    ["aspp"]; any other key yields nothing.  So a tensor that is yielded
    is a parameter of a convolution: the parameters of every other kind of
    module (batch normalisation, ...) are in no group. *)
Theorem get_params_membership mdl key x :
  (x ∈ get_params mdl key <->
   (key = "1x" /\
    exists name m, (name, m) ∈ mdl /\ str_in "layer" name = true /\
                   is_conv2d m = true /\ x ∈ parameters m) \/
   (key = "10x" /\
    exists name m, (name, m) ∈ mdl /\ str_in "aspp" name = true /\
                   is_conv2d m = true /\ x ∈ weight_of m) \/
   (key = "20x" /\
    exists name m, (name, m) ∈ mdl /\ str_in "aspp" name = true /\
                   is_conv2d m = true /\ x ∈ bias_of m)) /\
  (forall t, Some t ∈ get_params mdl key -> Some t ∈ conv_tensors mdl).
Proof.
  assert (Hiff : x ∈ get_params mdl key <->
   (key = "1x" /\
    exists name m, (name, m) ∈ mdl /\ str_in "layer" name = true /\
                   is_conv2d m = true /\ x ∈ parameters m) \/
   (key = "10x" /\
    exists name m, (name, m) ∈ mdl /\ str_in "aspp" name = true /\
                   is_conv2d m = true /\ x ∈ weight_of m) \/
   (key = "20x" /\
    exists name m, (name, m) ∈ mdl /\ str_in "aspp" name = true /\
                   is_conv2d m = true /\ x ∈ bias_of m)).
  { destruct (decide (key = "1x")) as [->|H1].
    { rewrite get_params_1x, elem_of_yield_from_name. split.
      - intros Hx. left. by split.
      - by intros [[_ Hx]|[[? _]|[? _]]]. }
    destruct (decide (key = "10x")) as [->|H2].
    { rewrite get_params_10x, elem_of_yield_from_name. split.
      - intros Hx. right. left. by split.
      - by intros [[? _]|[[_ Hx]|[? _]]]. }
    destruct (decide (key = "20x")) as [->|H3].
    { rewrite get_params_20x, elem_of_yield_from_name. split.
      - intros Hx. right. right. by split.
      - by intros [[? _]|[[? _]|[_ Hx]]]. }
    rewrite get_params_other by done. split.
    - intros Hx. by apply elem_of_nil in Hx.
    - by intros [[? _]|[[? _]|[? _]]]. }
  split; [exact Hiff|]. clear Hiff x.
  intros t Ht.
  assert (Hconv : exists name m, (name, m) ∈ mdl /\ Some t ∈ parameters m).
  { destruct (decide (key = "1x")) as [->|H1].
    { rewrite get_params_1x in Ht.
      apply elem_of_yield_from_name in Ht as (name & m & ? & _ & _ & ?).
      by exists name, m. }
    destruct (decide (key = "10x")) as [->|H2].
    { rewrite get_params_10x in Ht.
      apply elem_of_yield_from_name in Ht as (name & m & ? & _ & _ & ?).
      exists name, m. split; [done|]. by apply weight_is_parameter. }
    destruct (decide (key = "20x")) as [->|H3].
    { rewrite get_params_20x in Ht.
      apply elem_of_yield_from_name in Ht as (name & m & ? & _ & _ & ?).
      exists name, m. split; [done|]. by apply bias_is_parameter. }
    rewrite get_params_other in Ht by done. by apply elem_of_nil in Ht. }
  destruct Hconv as (name & m & Hin & Hp).
  apply list_elem_of_lookup_1 in Hin as [i Hi].
  by eapply elem_of_conv_tensors.
Qed.

Lemma yield_from_length tag (p q : module -> list (option tensor)) mdl :
  (forall m, is_conv2d m = true -> length (p m) = length (q m)) ->
  length (yield_from tag p mdl) = length (yield_from tag q mdl).
Proof.
  intros Hpq. unfold yield_from. induction mdl as [|[name m] mdl IH]; [done|].
  simpl. rewrite !length_app, IH. f_equal.
  destruct (str_in tag name), (is_conv2d m) eqn:Hc; simpl; try done.
  by apply Hpq.
Qed.

(** X2.  The ["10x"] and ["20x"] sequences have one element for every
    ASPP convolution, in the same order; a convolution built without bias
    contributes [None] to the ["20x"] sequence, and only such a
    convolution does; the ["1x"] and ["10x"] sequences never hold
    [None]. *)
Theorem aspp_groups_aligned mdl :
  length (get_params mdl "10x") = length (get_params mdl "20x") /\
  (None ∈ get_params mdl "20x" <->
   exists name w, (name, Conv2d w None) ∈ mdl /\ str_in "aspp" name = true) /\
  (None ∉ get_params mdl "1x") /\
  (None ∉ get_params mdl "10x").
Proof.
  rewrite get_params_1x, get_params_10x, get_params_20x.
  split; [|split; [|split]].
  - apply yield_from_length. by intros [w b|].
  - rewrite elem_of_yield_from_name. split.
    + intros (name & [w [b|]|] & Hin & Ha & _ & Hx); simpl in Hx.
      * by apply list_elem_of_singleton in Hx.
      * by exists name, w.
      * by apply elem_of_nil in Hx.
    + intros (name & w & Hin & Ha). exists name, (Conv2d w None).
      repeat split; try done. simpl. by apply list_elem_of_singleton.
  - intros (name & [w [b|]|] & _ & _ & _ & Hx)%elem_of_yield_from_name;
      simpl in Hx.
    + apply elem_of_cons in Hx as [?|Hx]; [done|].
      by apply list_elem_of_singleton in Hx.
    + by apply list_elem_of_singleton in Hx.
    + by apply elem_of_nil in Hx.
  - intros (name & [w b|] & _ & _ & _ & Hx)%elem_of_yield_from_name;
      simpl in Hx.
    + by apply list_elem_of_singleton in Hx.
    + by apply elem_of_nil in Hx.
Qed.
End GrouperMore.

(** ** The scheduler *)

Section SchedulerMore.
Context {F : Type} `{PyFloat F}.
Implicit Types (opt : optimizer F).

Lemma scheduler_passes init iter d m p x opt :
  d ≠ 0 -> skips iter d m = false -> poly_lr init iter m p = Return x ->
  poly_lr_scheduler init iter d m p opt = assign_rates x opt.
Proof.
  intros Hd Hs Hp. unfold poly_lr_scheduler.
  apply Z.eqb_neq in Hd. by rewrite Hd, Hs, Hp.
Qed.

(** X3.  With fewer than three groups, a call that passes the guard
    raises [IndexError] - after it has assigned the new rate to the
    groups there are: the optimizer is left half updated. *)
Theorem scheduler_too_few_groups init iter d m p x opt :
  d ≠ 0 -> skips iter d m = false -> poly_lr init iter m p = Return x ->
  (length (param_groups opt) < 3)%nat ->
  let r := poly_lr_scheduler init iter d m p opt in
  r.1 = Raise IndexError /\
  ((0 < length (param_groups opt))%nat -> lr_of r.2 0 = Some (VFloat x)) /\
  ((1 < length (param_groups opt))%nat ->
     lr_of r.2 1 = Some (VFloat (fmul (float_of_Z 10) x))).
Proof.
  intros Hd Hs Hp Hlen r. subst r.
  rewrite (scheduler_passes init iter d m p x) by done.
  unfold assign_rates, bind, set_lr, lr_of.
  destruct opt as [[|g0 [|g1 [|g2 rest]]]]; simpl in *; try lia.
  - repeat split; intros; lia.
  - repeat split; intros; try lia. by rewrite lookup_insert_eq.
  - repeat split; intros; by rewrite lookup_insert_eq.
Qed.

(** X4.  With [max_iter = 0] a call that passes the guard raises
    [ZeroDivisionError] (the float division by the int 0) and leaves the
    optimizer as it was. *)
Theorem scheduler_zero_max_iter init iter d p opt :
  d ≠ 0 -> (d | iter) -> iter <= 0 ->
  poly_lr_scheduler init iter d 0 p opt = (Raise ZeroDivisionError, opt).
Proof.
  intros Hd Hdiv Hle. unfold poly_lr_scheduler.
  apply Z.eqb_neq in Hd as Hd'. rewrite Hd'.
  assert (Hs : skips iter d 0 = false) by (by apply skips_false).
  by rewrite Hs.
Qed.

(** X5.  The scheduler is idempotent: a second call with the same
    arguments has the same outcome and leaves the optimizer as the first
    call left it, whatever the outcome. *)
Theorem scheduler_idempotent init iter d m p opt :
  poly_lr_scheduler init iter d m p (poly_lr_scheduler init iter d m p opt).2
  = poly_lr_scheduler init iter d m p opt.
Proof.
  unfold poly_lr_scheduler.
  destruct (d =? 0); [done|]. destruct (skips iter d m); [done|].
  destruct (poly_lr init iter m p) as [x|e]; [|done].
  unfold bind, set_lr.
  destruct opt as [[|g0 [|g1 [|g2 rest]]]]; simpl;
    by rewrite ?insert_insert_eq.
Qed.
End SchedulerMore.

(** ** The optimizer in the loop *)

Section OptimMore.
Context {F : Type} `{PyFloat F} `{World F}.
Implicit Types (s : state) (cfg : config F) (opt : optimizer F).

#[local] Instance same_optim_preorder : PreOrder same_optim.
Proof.
  split.
  - by intros s.
  - intros s1 s2 s3 H12 H23. unfold same_optim in *. congruence.
Qed.

Ltac same := try exact same_optim_preorder.

Lemma same_every_n k n body :
  keeps same_optim body -> keeps same_optim (every_n k n body).
Proof.
  intros Hb. unfold every_n.
  destruct (n =? 0); [apply keeps_raise; same|].
  destruct (k mod n =? 0); [exact Hb | apply keeps_ret; same].
Qed.

Lemma same_pull : keeps same_optim pull.
Proof.
  intros s. unfold same_optim.
  destruct (pull s) as [r s1] eqn:Hp. apply pull_frame in Hp.
  simpl. by rewrite Hp.
Qed.

Lemma same_log_scalars k : keeps same_optim (log_scalars k).
Proof.
  intros s. unfold same_optim.
  destruct (log_scalars k s) as [r s1] eqn:Hp. apply log_scalars_frame in Hp.
  simpl. by rewrite Hp.
Qed.

Lemma same_sub_iteration n : keeps same_optim (sub_iteration n).
Proof.
  unfold sub_iteration.
  apply keeps_bind; same; [done | intros t0].
  apply keeps_bind; same; [done | intros _].
  apply keeps_bind; same; [apply same_pull | intros b].
  apply keeps_bind; same; [done | intros t1].
  apply keeps_bind; same; [|intros _].
  { intros s. unfold same_optim, append_data_time.
    by destruct (append_to _ _). }
  apply keeps_bind; same; [done | intros t2].
  apply keeps_bind; same; [done | intros _].
  apply keeps_bind; same; [done | intros w].
  apply keeps_bind; same; [done | intros loss].
  destruct loss as [z|d]; [done|].
  apply keeps_bind; same; [|by intros _].
  intros s. unfold same_optim, backward.
  by destruct (autograd _) as [[e part]|].
Qed.

Lemma same_accumulate n : keeps same_optim (accumulate n).
Proof.
  unfold accumulate.
  apply keeps_bind; same; [done | intros _].
  apply keeps_bind; same; [done | intros _].
  apply keeps_bind; same; [done | intros _].
  apply keeps_for_each; same. intros _. apply same_sub_iteration.
Qed.

(** What follows the scheduler in an outer iteration. *)
Lemma same_after_scheduler cfg k s :
  forall rest : M state unit,
  outer_iteration cfg k =
    bind (on_optim (poly_lr_scheduler (LR cfg) (k - 1) (LR_DECAY cfg)
                                      (ITER_MAX cfg) (POLY_POWER cfg)))
         (fun _ => rest) ->
  keeps same_optim rest ->
  optim (outer_iteration cfg k s).2 =
  (poly_lr_scheduler (LR cfg) (k - 1) (LR_DECAY cfg) (ITER_MAX cfg)
                     (POLY_POWER cfg) (optim s)).2.
Proof.
  intros rest -> Hrest. unfold bind, on_optim.
  destruct (poly_lr_scheduler _ _ _ _ _ (optim s)) as [[[]|e] o1]; [|done].
  simpl. by rewrite (Hrest (set_optim o1 s)).
Qed.

(** In an outer iteration only the scheduler touches the optimizer. *)
Lemma outer_iteration_optim cfg k s :
  optim (outer_iteration cfg k s).2 =
  (poly_lr_scheduler (LR cfg) (k - 1) (LR_DECAY cfg) (ITER_MAX cfg)
                     (POLY_POWER cfg) (optim s)).2.
Proof.
  eapply same_after_scheduler; [reflexivity|].
  apply keeps_bind; same; [done | intros _].
  apply keeps_bind; same; [apply same_accumulate | intros _].
  apply keeps_bind; same; [done | intros _].
  apply keeps_bind; same; [|intros _].
  { intros s0. unfold same_optim, step. by destruct (sgd_step _ _ _). }
  apply keeps_bind; same; [done | intros t].
  apply keeps_bind; same; [|intros t0].
  { intros s0. unfold same_optim, read_start. by destruct (start s0). }
  apply keeps_bind; same; [|intros _].
  { intros s0. unfold same_optim, append_compute_time.
    by destruct (append_to _ _). }
  apply keeps_bind; same; [apply same_every_n, same_log_scalars | intros _].
  apply keeps_bind; same; [by apply same_every_n | intros _].
  by apply same_every_n.
Qed.

Lemma scheduler_keeps_ratio init iter d m p opt :
  rates_in_ratio opt ->
  rates_in_ratio (poly_lr_scheduler init iter d m p opt).2.
Proof.
  intros [Hlen Hr]. pose proof (scheduler_frame init iter d m p opt) as Hf.
  simpl in Hf. destruct Hf as (_ & Hlen' & _).
  split; [congruence|].
  unfold poly_lr_scheduler in *.
  destruct (d =? 0); [done|]. destruct (skips iter d m); [done|].
  destruct (poly_lr init iter m p) as [x|e]; [|done].
  destruct (three_assignments_total x opt) as [opt' Ho]; [lia|].
  rewrite Ho. exists x. exact (three_assignments x opt opt' Ho).
Qed.

Lemma make_optimizer_ratio cfg mdl opt :
  make_optimizer cfg mdl = Return opt -> rates_in_ratio opt.
Proof.
  intros (-> & _)%make_optimizer_returns.
  split; [done|]. exists (LR cfg). by vm_compute.
Qed.

(** X6.  When the constructor returns, the learning rates of the three
    groups are in the ratio 1 : 10 : 20 in the optimizer it built, after
    any number of outer iterations and at the end of [main], however the
    run ends. *)
Theorem rates_always_in_ratio cfg mdl (w0 : Weights) opt0 :
  make_optimizer cfg mdl = Return opt0 ->
  rates_in_ratio opt0 /\
  (forall ks : list Z,
     rates_in_ratio
       (optim (for_each ks (outer_iteration cfg) (init_state opt0 w0)).2)) /\
  rates_in_ratio (optim (main cfg mdl w0).2).
Proof.
  intros Hopt. pose proof (make_optimizer_ratio cfg mdl opt0 Hopt) as H0'.
  split; [exact H0'|].
  set (R := fun s s' => rates_in_ratio (optim s) -> rates_in_ratio (optim s')).
  assert (HR : PreOrder R).
  { split; [intros s Hs; exact Hs | intros s1 s2 s3 H12 H23 H1; by apply H23, H12]. }
  assert (Hloop : forall ks, keeps R (for_each ks (outer_iteration cfg))).
  { intros ks. apply keeps_for_each; [exact HR|]. intros k s Hs.
    rewrite outer_iteration_optim. by apply scheduler_keeps_ratio. }
  split.
  - intros ks. by apply (Hloop ks).
  - unfold main. rewrite Hopt.
    assert (Hmain : keeps R (train cfg)).
    { unfold train. apply keeps_bind; [exact HR | apply Hloop | intros _].
      apply keeps_bind; [exact HR | | intros _].
      - intros s Hs. unfold write_logs.
        by destruct (data_times s), (compute_times s).
      - by intros s Hs. }
    by apply (Hmain (init_state opt0 w0)).
Qed.
End OptimMore.

(** ** Outer iterations and runs *)

Section RunMore.
Context {F : Type} `{PyFloat F} `{World F}.
Implicit Types (s : state) (cfg : config F).

(** X7.  The learning rates in effect after outer iteration [k] (the
    scheduler is called with [iter = k - 1]): when [LR_DECAY] divides
    [k - 1] they are [LR * (1 - (k-1)/ITER_MAX) ** POLY_POWER] and its
    tenfold and twentyfold; otherwise the optimizer is as the iteration
    found it. *)
Theorem rate_after_iteration cfg k s s' :
  k - 1 <= ITER_MAX cfg ->
  outer_iteration cfg k s = (Return tt, s') ->
  ((LR_DECAY cfg | k - 1) ->
   exists q,
     fpow (base (k - 1) (ITER_MAX cfg)) (POLY_POWER cfg) = Return q /\
     lr_of (optim s') 0 = Some (VFloat (fmul (LR cfg) q)) /\
     lr_of (optim s') 1 =
       Some (VFloat (fmul (float_of_Z 10) (fmul (LR cfg) q))) /\
     lr_of (optim s') 2 =
       Some (VFloat (fmul (float_of_Z 20) (fmul (LR cfg) q)))) /\
  (~ (LR_DECAY cfg | k - 1) -> optim s' = optim s).
Proof.
  intros Hk Hret.
  apply outer_iteration_returns in Hret
    as (o1 & sa & w' & t0 & Hs & _ & _ & _ & _ & _ & Ho & _).
  rewrite Ho. clear Ho.
  assert (Hd : LR_DECAY cfg ≠ 0).
  { intros Hz. unfold poly_lr_scheduler in Hs. rewrite Hz in Hs.
    simpl in Hs. discriminate Hs. }
  split.
  - intros Hdiv.
    assert (Hskip : skips (k - 1) (LR_DECAY cfg) (ITER_MAX cfg) = false)
      by (by apply skips_false).
    destruct (poly_lr (LR cfg) (k - 1) (ITER_MAX cfg) (POLY_POWER cfg))
      as [x|e] eqn:Hp.
    + rewrite (scheduler_passes _ _ _ _ _ x) in Hs by done.
      apply poly_lr_returns in Hp as (_ & q & Hq & ->).
      exists q. split; [exact Hq|]. by apply (three_assignments _ (optim s)).
    + unfold poly_lr_scheduler in Hs. apply Z.eqb_neq in Hd.
      rewrite Hd, Hskip, Hp in Hs. discriminate Hs.
  - intros Hndiv. unfold poly_lr_scheduler in Hs.
    apply Z.eqb_neq in Hd as Hd'. rewrite Hd' in Hs.
    destruct (skips (k - 1) (LR_DECAY cfg) (ITER_MAX cfg)) eqn:Hskip.
    + by injection Hs.
    + apply skips_false in Hskip as [Hdiv _]; done.
Qed.


Lemma last_two {A} (l : list A) (a b : A) :
  last (l ++ [a; b]) = Some b /\
  last (removelast (l ++ [a; b])) = Some a.
Proof.
  change [a; b] with ([a] ++ [b]). rewrite app_assoc.
  split; [apply last_snoc|]. rewrite removelast_last. apply last_snoc.
Qed.

Lemma train_final_state cfg s s' :
  train cfg s = (Return tt, s') ->
  exists sl ds cs,
    for_each (range1 (ITER_MAX cfg)) (outer_iteration cfg) s
      = (Return tt, sl) /\
    data_times sl = Some ds /\ compute_times sl = Some cs /\
    s' = set_writes
           (writes sl ++ [("logs.csv", Table (zip ds cs));
                          (path_of cfg Final, Checkpoint (weights sl))]) sl.
Proof.
  unfold train.
  intros ([] & sl & Hloop & Hk)%bind_returns.
  apply bind_returns in Hk as ([] & s2 & Hlogs & Hsave).
  unfold write_logs in Hlogs.
  destruct (data_times sl) as [ds|] eqn:Hds; [|done].
  destruct (compute_times sl) as [cs|] eqn:Hcs; [|done].
  injection Hlogs as <-. unfold save, modify in Hsave.
  injection Hsave as <-. exists sl, ds, cs. simpl.
  repeat split; try done. by rewrite <- app_assoc.
Qed.

(** X9.  When a run completes, the last file written is the final
    checkpoint and it holds the weights the loop ended with; the file
    before it is [logs.csv]. *)
Theorem final_checkpoint_holds_final_weights cfg s s' :
  train cfg s = (Return tt, s') ->
  last (writes s') = Some (path_of cfg Final, Checkpoint (weights s')) /\
  exists rows, last (removelast (writes s')) = Some ("logs.csv", Table rows).
Proof.
  intros (sl & ds & cs & _ & _ & _ & ->)%train_final_state.
  destruct (last_two (writes sl) ("logs.csv", Table (zip ds cs))
              (path_of cfg Final, Checkpoint (weights sl))) as [Hl Hr].
  split; [exact Hl|]. exists (zip ds cs). exact Hr.
Qed.

(** X10.  A batch for which the network returns no logits makes the
    sub-iteration raise [AttributeError]: [loss] is still the number 0
    when [backward] is called on it.  Nothing has been added to the
    gradients. *)
Theorem no_logits_no_backward n s ds b s1 :
  data_times s = Some ds ->
  pull (ticked s) = (Return b, s1) ->
  forward (weights s) b = Return [] ->
  exists s', sub_iteration n s = (Raise AttributeError, s') /\
             grads s' = grads s /\ weights s' = weights s.
Proof.
  intros Hds Hpull Hfwd.
  unfold sub_iteration, bind, time_time, modify. cbn [fst snd].
  unfold ticked in Hpull. rewrite Hpull.
  apply pull_frame in Hpull. rewrite Hpull. cbn.
  unfold append_data_time, append_to. cbn. rewrite Hds. cbn.
  unfold lift, summed_loss. rewrite Hfwd. simpl. eauto.
Qed.

(** X11.  With [ITER_MAX < 1], once the optimizer is built, the loop
    body never runs and [main] raises [UnboundLocalError] when it reads
    [data_times]: [logs.csv] has been created, empty, and no checkpoint
    is written. *)
Theorem no_iterations_no_checkpoint cfg mdl (w0 : Weights) opt0 :
  make_optimizer cfg mdl = Return opt0 ->
  ITER_MAX cfg < 1 ->
  (main cfg mdl w0).1 = Raise UnboundLocalError /\
  writes (main cfg mdl w0).2 = [("logs.csv", Table [])].
Proof.
  intros Hopt Hmax. unfold main. rewrite Hopt. unfold train, range1.
  replace (Z.to_nat (ITER_MAX cfg)) with 0%nat by lia.
  by split.
Qed.

Lemma no_iterations cfg (opt : optimizer F) (w0 : Weights) :
  ITER_MAX cfg < 1 ->
  (train cfg (init_state opt w0)).1 = Raise UnboundLocalError.
Proof.
  intros Hmax. unfold train, range1.
  by replace (Z.to_nat (ITER_MAX cfg)) with 0%nat by lia.
Qed.

(** X12.  What a run that completes has needed: of the model and the
    momentum, what the constructor of the optimizer asks for (a bias for
    every ASPP convolution, no tensor in two groups, a momentum that is
    not negative); of the configuration, at least one outer iteration, at
    least one sub-iteration, and non-zero [LR_DECAY], [ITER_TB] and
    [ITER_SAVE] (each is the divisor of a modulo). *)
Theorem completion_needs cfg mdl (w0 : Weights) s' :
  main cfg mdl w0 = (Return tt, s') ->
  groups_accepted cfg mdl /\
  1 <= ITER_MAX cfg /\ 1 <= ITER_SIZE cfg /\
  LR_DECAY cfg ≠ 0 /\ ITER_TB cfg ≠ 0 /\ ITER_SAVE cfg ≠ 0.
Proof.
  unfold main.
  destruct (make_optimizer cfg mdl) as [opt0|e0] eqn:Hopt; [|done].
  intros Hrun. split.
  { by apply make_optimizer_returns in Hopt as [_ Hacc]. }
  assert (Hmax : 1 <= ITER_MAX cfg).
  { destruct (Z_lt_le_dec (ITER_MAX cfg) 1) as [Hlt|]; [|done].
    pose proof (no_iterations cfg opt0 w0 Hlt) as Hr.
    rewrite Hrun in Hr. discriminate Hr. }
  apply train_returns in Hrun as (sl & _ & _ & Hloop & _).
  unfold range1 in Hloop.
  destruct (Z.to_nat (ITER_MAX cfg)) as [|m] eqn:Hm; [lia|].
  simpl in Hloop. apply bind_returns in Hloop as ([] & s1 & Hk & _).
  apply outer_iteration_returns in Hk
    as (o1 & sa & w' & t0 & Hs & Hacc & _ & Hst & Htb & Hsv & _).
  split; [done|]. repeat split; try done.
  - destruct (Z_lt_le_dec (ITER_SIZE cfg) 1) as [Hlt|]; [|done]. exfalso.
    apply accumulate_skipped in Hacc; [|done]. simpl in Hacc. congruence.
  - intros Hz. unfold poly_lr_scheduler in Hs. rewrite Hz in Hs.
    simpl in Hs. discriminate Hs.
Qed.

(** X13.  No two files of a run share a path, whatever [SAVE_DIR] is:
    the history checkpoints of different iterations, the "current" and
    the "final" checkpoint and [logs.csv] are pairwise distinct files. *)
Theorem checkpoint_files_distinct cfg (k1 k2 : write_kind) :
  k1 ≠ k2 -> path_of cfg k1 ≠ path_of cfg k2.
Proof. intros Hne Hp. by apply Hne, (path_of_inj cfg). Qed.
End RunMore.

(** ** The order of the batches *)

Section PullMore.
Context {F : Type} `{PyFloat F} `{World F}.
Implicit Types (s : state) (cfg : config F).

Lemma pulls_app n m s :
  pulls (n + m) s =
  (let! bs := pulls n in let! bs' := pulls m in ret (bs ++ bs')) s.
Proof.
  revert s. induction n as [|n IH]; intros s; simpl.
  - unfold bind, ret. simpl. by destruct (pulls m s) as [[bs|e] s1].
  - unfold bind, ret. destruct (pull s) as [[b|e] s1]; [|done].
    rewrite IH. unfold bind, ret.
    destruct (pulls n s1) as [[bs|e] s2]; [|done].
    by destruct (pulls m s2) as [[bs'|e] s3].
Qed.

Lemma pulls_in_order (bs : list Batch) rest s :
  loader_iter s = map Return bs ++ rest ->
  pulls (length bs) s = (Return bs, set_loader rest (epochs s) s).
Proof.
  revert s. induction bs as [|b bs IH]; intros s Hs; simpl in *.
  - unfold ret. rewrite <- Hs. by destruct s.
  - unfold bind, pull, try_except, next_batch. rewrite Hs.
    rewrite (IH (set_loader (map Return bs ++ rest) (epochs s) s)) by done.
    unfold ret. by destruct s.
Qed.

(** X15.  Pulls deliver the batches of an iterator in its order, each
    once, and do not restart it before it is exhausted; the pull after
    the last batch makes the next iterator and goes on with its first
    batch.  So through an epoch boundary the sub-iterations see every
    batch of both epochs, in order. *)
Theorem batches_in_order (bs : list Batch) s :
  (forall rest, loader_iter s = map Return bs ++ rest ->
     pulls (length bs) s = (Return bs, set_loader rest (epochs s) s)) /\
  (forall bs' : list Batch,
     loader_iter s = map Return bs ->
     loader (epochs s) = map Return bs' -> bs' ≠ [] ->
     pulls (length bs + length bs') s =
     (Return (bs ++ bs'), set_loader [] (S (epochs s)) s)).
Proof.
  split; [intros rest; apply pulls_in_order|].
  intros bs' Hs Hl Hne. rewrite pulls_app. unfold bind at 1.
  rewrite (pulls_in_order bs [] s) by (by rewrite app_nil_r).
  destruct bs' as [|b' bs']; [done|].
  change (length (b' :: bs')) with (S (length bs')).
  cbn [pulls]. unfold bind at 1 2.
  assert (Hpull : pull (set_loader [] (epochs s) s) =
            (Return b', set_loader (map Return bs') (S (epochs s)) s)).
  { unfold pull, try_except, next_batch, bind, restart. simpl.
    rewrite Hl. simpl. by destruct s. }
  rewrite Hpull. unfold bind at 1.
  rewrite (pulls_in_order bs' []
             (set_loader (map Return bs') (S (epochs s)) s))
    by (simpl; by rewrite app_nil_r).
  unfold ret. simpl. by destruct s.
Qed.
End PullMore.

(** ** The scalars of TensorBoard *)

Section BoardMore.
Context {F : Type} `{PyFloat F} `{World F}.
Implicit Types (s : state) (cfg : config F).

Lemma log_scalars_three k s x :
  length (param_groups (optim s)) = 3%nat ->
  lr_of (optim s) 0 = Some (VFloat x) ->
  lr_of (optim s) 1 = Some (VFloat (fmul (float_of_Z 10) x)) ->
  lr_of (optim s) 2 = Some (VFloat (fmul (float_of_Z 20) x)) ->
  log_scalars k s =
  (Return tt,
   set_tensorboard
     (tensorboard s ++ scalars k (meter_value (loss_meter s)) x) s).
Proof.
  unfold lr_of, log_scalars, bind, modify, get. cbn [fst snd].
  cbn [optim set_tensorboard].
  destruct (optim s) as [[|g0 [|g1 [|g2 [|g3 rest]]]]] eqn:Ho;
    simpl; try lia.
  intros _ Ha Hb Hc. rewrite Ha. unfold bind, modify. cbn.
  rewrite Hb. cbn. rewrite Hc. cbn. unfold ret, scalars.
  rewrite <- !app_assoc. simpl. by destruct s.
Qed.

(** X17.  An outer iteration that returns has given the loss meter one
    value; when the iteration is a multiple of [ITER_TB] it has logged
    four scalars, in this order: the meter's value after that addition
    and the rates of the three groups as the scheduler left them; and
    otherwise it has logged nothing. *)
Theorem scalars_logged cfg k s s' :
  rates_in_ratio (optim s) ->
  outer_iteration cfg k s = (Return tt, s') ->
  exists x v,
    lr_of (optim s') 0 = Some (VFloat x) /\
    loss_meter s' = loss_meter s ++ [v] /\
    tensorboard s' =
      tensorboard s ++
      (if k mod ITER_TB cfg =? 0
       then scalars k (meter_value (loss_meter s')) x else []).
Proof.
  intros Hratio Hrun. pose proof Hrun as Hfacts.
  apply outer_iteration_returns in Hfacts
    as (o1 & sa & w' & t0 & Hsch & Hacc' & Hsgd' & Hst' & _ & _ & Hopt & _
        & _ & Hmeter & _).
  assert (Hr1 : rates_in_ratio o1).
  { pose proof (scheduler_keeps_ratio (LR cfg) (k - 1) (LR_DECAY cfg)
                  (ITER_MAX cfg) (POLY_POWER cfg) (optim s) Hratio) as Hk.
    by rewrite Hsch in Hk. }
  destruct Hr1 as (Hlen & x & Hx0 & Hx1 & Hx2).
  exists x, (iter_loss sa). rewrite Hopt, Hmeter.
  split; [exact Hx0|]. split; [done|].
  revert Hrun. unfold outer_iteration.
  intros ([] & s1 & Hsched & Hk)%bind_returns.
  unfold on_optim in Hsched. rewrite Hsch in Hsched.
  injection Hsched as <-.
  apply bind_returns in Hk as ([] & s2 & Hz & Hk).
  unfold zero_grad, modify in Hz. injection Hz as <-.
  apply bind_returns in Hk as ([] & sa' & Hacc & Hk).
  assert (sa' = sa) as ->.
  { assert (E : (Return tt, sa') = (Return tt, sa))
      by (rewrite <- Hacc; exact Hacc').
    by injection E. }
  pose proof (accumulate_returns _ _ _ Hacc)
    as (Ls & ds & _ & _ & _ & _ & Hw & Ho & Hm & Htb & Hwr & Hct & Hdt & _).
  simpl in Hw, Ho, Hm, Htb, Hwr.
  apply bind_returns in Hk as ([] & s4 & Hmet & Hk).
  unfold modify in Hmet. injection Hmet as <-.
  apply bind_returns in Hk as ([] & s5 & Hstep & Hk).
  unfold step in Hstep. simpl in Hstep. rewrite Ho, Hw, Hsgd' in Hstep.
  injection Hstep as <-.
  apply bind_returns in Hk as (t & s6 & Ht & Hk).
  unfold time_time in Ht. simpl in Ht. injection Ht as <- <-.
  apply bind_returns in Hk as (t1 & s7 & Hst & Hk).
  unfold read_start in Hst. simpl in Hst. rewrite Hst' in Hst.
  injection Hst as <- <-.
  apply bind_returns in Hk as ([] & s8 & Hap & Hk).
  unfold append_compute_time in Hap. simpl in Hap. rewrite Hct in Hap.
  simpl in Hap. injection Hap as <-.
  apply bind_returns in Hk as ([] & s9 & Htbw & Hk).
  apply every_n_returns in Htbw as (_ & Htbw).
  apply bind_returns in Hk as ([] & s10 & Hsave & Hk).
  apply every_n_returns in Hsave as (_ & Hsave).
  apply every_n_returns in Hk as (_ & Hcur).
  assert (Hboard : tensorboard s' = tensorboard s9).
  { unfold save, modify in *.
    destruct (k mod ITER_SAVE cfg =? 0), (k mod 100 =? 0); by simplify_eq. }
  rewrite Hboard.
  destruct (k mod ITER_TB cfg =? 0).
  - rewrite (log_scalars_three k _ x) in Htbw; simpl; rewrite ?Ho; try done.
    injection Htbw as <-. simpl. by rewrite Htb, Hm.
  - subst s9. simpl. by rewrite Htb, app_nil_r.
Qed.
End BoardMore.

(** ** Runs that complete *)

Section Completion.
Context {F : Type} `{PyFloat F} `{World F}.
Implicit Types (s : state) (cfg : config F).

Lemma bind_return_eq {S A B} (m : M S A) (k : A -> M S B) (st : S) a
    (st1 : S) :
  m st = (Return a, st1) -> bind m k st = k a st1.
Proof. unfold bind. by intros ->. Qed.

Lemma loader_good k :
  well_behaved ->
  Forall (fun o => exists k b, o = Return b /\ Return b ∈ loader k)
         (loader k).
Proof.
  intros (_ & Hret & _). apply Forall_forall. intros o Ho.
  destruct (Hret k o Ho) as [b ->]. by exists k, b.
Qed.

Lemma pull_total s :
  well_behaved -> good_iter s ->
  exists b s1, pull s = (Return b, s1) /\
               (exists k, Return b ∈ loader k) /\ good_iter s1.
Proof.
  intros Hwb Hgood. unfold good_iter in *.
  destruct (loader_iter s) as [|o rest] eqn:Hit.
  - pose proof Hwb as (Hne & _).
    pose proof (loader_good (epochs s) Hwb) as Hl.
    destruct (loader (epochs s)) as [|o rest] eqn:Hld;
      [by destruct (Hne (epochs s))|].
    apply Forall_cons in Hl as [(k & b & -> & Hb) Hrest].
    exists b, (set_loader rest (S (epochs s)) s).
    split; [|split; [by exists k | exact Hrest]].
    unfold pull, try_except, next_batch, bind, restart.
    rewrite Hit. simpl. rewrite Hld. by destruct s.
  - apply Forall_cons in Hgood as [(k & b & -> & Hb) Hrest].
    exists b, (set_loader rest (epochs s) s).
    split; [|split; [by exists k | exact Hrest]].
    unfold pull, try_except, next_batch. by rewrite Hit.
Qed.

Lemma sum_scales_total (logits : list Logit) loss b :
  well_behaved ->
  logits ≠ [] \/ (exists d, loss = LTensor d) ->
  exists d, sum_scales loss logits b = Return (LTensor d).
Proof.
  intros Hwb. pose proof Hwb as (_ & _ & _ & Hcrit & _).
  revert loss. induction logits as [|l logits IH]; intros loss Hor.
  - destruct Hor as [?|[d ->]]; [done|]. by exists d.
  - simpl. destruct (Hcrit l b) as [t ->].
    apply IH. right. destruct loss as [z|d]; simpl; eauto.
Qed.

Lemma sub_iteration_total n s :
  well_behaved -> good_iter s -> is_Some (data_times s) ->
  exists s', sub_iteration n s = (Return tt, s') /\ good_iter s'.
Proof.
  intros Hwb Hgood [ds Hds].
  destruct (pull_total (ticked s) Hwb) as (b & s1 & Hpull & [k Hb] & Hg1);
    [exact Hgood|].
  pose proof Hwb as (_ & _ & Hfwd & _).
  destruct (Hfwd k b (weights s) Hb) as (l & ls & Hf).
  destruct (sum_scales_total (l :: ls) (LInt 0) b Hwb) as [d Hd];
    [by left|].
  unfold sub_iteration, bind, time_time, modify. cbn [fst snd].
  unfold ticked in Hpull. rewrite Hpull.
  apply pull_frame in Hpull as Hfr. rewrite Hfr. cbn.
  unfold append_data_time, append_to. cbn. rewrite Hds. cbn.
  unfold lift, summed_loss. rewrite Hf, Hd.
  pose proof Hwb as (_ & _ & _ & _ & Hback & _).
  unfold backward, modify, bind. cbn. rewrite Hback. cbn.
  eexists. split; [reflexivity|]. unfold good_iter. cbn. exact Hg1.
Qed.

Lemma sub_iterations_total {A} n (xs : list A) s :
  well_behaved -> good_iter s -> is_Some (data_times s) ->
  exists s', for_each xs (fun _ => sub_iteration n) s = (Return tt, s') /\
             good_iter s'.
Proof.
  intros Hwb. revert s. induction xs as [|x xs IH]; intros s Hg Hd.
  - by exists s.
  - destruct (sub_iteration_total n s Hwb Hg Hd) as (s1 & Hs1 & Hg1).
    simpl. rewrite (bind_return_eq _ _ _ _ _ Hs1).
    apply IH; [exact Hg1|].
    apply sub_iteration_returns in Hs1 as (? & ? & ? & ? & ? & _ & _ & ->).
    by eexists.
Qed.

Lemma accumulate_total n s :
  well_behaved -> good_iter s ->
  exists sa, accumulate n s = (Return tt, sa) /\ good_iter sa.
Proof.
  intros Hwb Hg. unfold accumulate, bind, modify. cbn [fst snd].
  apply sub_iterations_total; [done | exact Hg | by eexists].
Qed.

Lemma scheduler_total init iter d m p (opt : optimizer F) :
  (3 <= length (param_groups opt))%nat -> d ≠ 0 -> m ≠ 0 ->
  ((d | iter) -> iter <= m -> exists q, fpow (base iter m) p = Return q) ->
  exists o1, poly_lr_scheduler init iter d m p opt = (Return tt, o1).
Proof.
  intros Hlen Hd Hm Hpow. unfold poly_lr_scheduler.
  apply Z.eqb_neq in Hd as Hd'. rewrite Hd'.
  destruct (skips iter d m) eqn:Hs; [by eexists|].
  apply skips_false in Hs as [Hdiv Hle]; [|done].
  destruct (Hpow Hdiv Hle) as [q Hq].
  unfold poly_lr. apply Z.eqb_neq in Hm. rewrite Hm.
  unfold base in Hq. rewrite Hq.
  apply three_assignments_total. exact Hlen.
Qed.

Lemma outer_iteration_total cfg k s :
  well_behaved -> sane cfg -> powers_defined cfg ->
  1 <= k <= ITER_MAX cfg ->
  good_iter s -> rates_in_ratio (optim s) ->
  exists s', outer_iteration cfg k s = (Return tt, s') /\
             good_iter s' /\ rates_in_ratio (optim s').
Proof.
  intros Hwb (Hmax & Hsize & Hdecay & Htb & Hsave) Hpow Hk Hg Hratio.
  pose proof Hratio as [Hlen _].
  destruct (scheduler_total (LR cfg) (k - 1) (LR_DECAY cfg) (ITER_MAX cfg)
              (POLY_POWER cfg) (optim s)) as [o1 Hsch];
    [lia | done | lia | |].
  { intros Hdiv _. apply Hpow; [lia | done]. }
  assert (Hr1 : rates_in_ratio o1).
  { pose proof (scheduler_keeps_ratio (LR cfg) (k - 1) (LR_DECAY cfg)
                  (ITER_MAX cfg) (POLY_POWER cfg) (optim s) Hratio) as Hkr.
    by rewrite Hsch in Hkr. }
  destruct (accumulate_total (ITER_SIZE cfg) (zeroed (set_optim o1 s)) Hwb)
    as (sa & Hacc & Hga); [exact Hg|].
  pose proof (accumulate_returns _ _ _ Hacc)
    as (Ls & ds & _ & _ & _ & _ & Hw & Ho & Hm & Htbd & Hwr & Hct & Hdt & _
        & Hst).
  simpl in Hw, Ho, Hm, Htbd, Hwr.
  destruct (Hst Hsize) as [t0 Ht0].
  pose proof Hwb as (_ & _ & _ & _ & _ & Hstep).
  destruct (Hstep (param_groups o1) (weights s) (grads sa)) as [w' Hw'].
  destruct Hr1 as (Hlen1 & x & Hx0 & Hx1 & Hx2).
  unfold outer_iteration.
  rewrite (bind_return_eq _ _ _ tt (set_optim o1 s))
    by (unfold on_optim; by rewrite Hsch).
  rewrite (bind_return_eq _ _ _ tt (zeroed (set_optim o1 s))) by done.
  rewrite (bind_return_eq _ _ _ tt sa) by exact Hacc.
  unfold bind at 1. unfold modify at 1. cbn [fst snd].
  unfold bind at 1. unfold step at 1. cbn [optim weights grads set_loss_meter].
  rewrite Ho, Hw, Hw'.
  unfold bind at 1. unfold time_time at 1.
  unfold bind at 1. unfold read_start at 1. cbn. rewrite Ht0.
  unfold bind at 1. unfold append_compute_time at 1. cbn. rewrite Hct. cbn.
  apply Z.eqb_neq in Htb, Hsave.
  unfold every_n. rewrite Htb, Hsave. simpl (100 =? 0).
  set (s8 := set_compute_times _ _).
  assert (Hlog : exists s9, (if k mod ITER_TB cfg =? 0
                             then log_scalars k else ret tt) s8
                            = (Return tt, s9) /\
                            loader_iter s9 = loader_iter sa /\
                            optim s9 = o1).
  { destruct (k mod ITER_TB cfg =? 0).
    - eexists. split.
      + apply (log_scalars_three k s8 x); subst s8; simpl; by rewrite Ho.
      + subst s8. simpl. by rewrite Ho.
    - exists s8. subst s8. simpl. by rewrite Ho. }
  destruct Hlog as (s9 & Hlog & Hit9 & Ho9).
  unfold bind at 1. rewrite Hlog.
  unfold bind, save, modify, ret.
  destruct (k mod ITER_SAVE cfg =? 0), (k mod 100 =? 0);
    (eexists; split; [reflexivity|]); unfold good_iter; simpl;
    rewrite Hit9, Ho9; (split; [exact Hga|]);
    (split; [exact Hlen1 | by exists x]).
Qed.

Lemma outer_iterations_total cfg (ks : list Z) s :
  well_behaved -> sane cfg -> powers_defined cfg ->
  Forall (fun k => 1 <= k <= ITER_MAX cfg) ks ->
  good_iter s -> rates_in_ratio (optim s) ->
  exists s', for_each ks (outer_iteration cfg) s = (Return tt, s').
Proof.
  intros Hwb Hsane Hpow Hks. revert s.
  induction Hks as [|k ks Hk _ IH]; intros s Hg Hr.
  - by exists s.
  - destruct (outer_iteration_total cfg k s) as (s1 & Hs1 & Hg1 & Hr1);
      try done.
    simpl. rewrite (bind_return_eq _ _ _ _ _ Hs1). by apply IH.
Qed.

End Completion.

(** ** The constructor of the optimizer, as [main] meets it *)

Section ConstructorMore.
Context {F : Type} `{PyFloat F} `{World F}.
Implicit Types (cfg : config F) (mdl : model).

Lemma add_param_group_raises m (added : list (param_group F)) g ps e :
  g !! "params" = Some (VParams ps) ->
  add_param_group m added g = Raise e -> e = ValueError \/ e = TypeError.
Proof.
  unfold add_param_group. intros ->.
  case_bool_decide; [intros [= <-]; by right|].
  case_bool_decide; [intros [= <-]; by left | done].
Qed.

(** X18.  The constructor of the optimizer returns exactly when the
    momentum is not negative, every ASPP convolution has a bias and no
    tensor is in two of the three sequences of the grouper; the optimizer
    then has the three groups in order, each with the momentum of the
    configuration.  Otherwise it raises [ValueError] or [TypeError], and
    [main] ends with that exception before the loop, with nothing
    written. *)
Theorem constructor_outcome cfg mdl (w0 : Weights) :
  (groups_accepted cfg mdl <->
   make_optimizer cfg mdl = Return (Optimizer (built_groups cfg mdl))) /\
  (forall opt, make_optimizer cfg mdl = Return opt ->
     opt = Optimizer (built_groups cfg mdl) /\
     length (param_groups opt) = 3%nat /\
     forall i g, param_groups opt !! i = Some g ->
       g !! "momentum" = Some (VFloat (MOMENTUM cfg))) /\
  (forall e, make_optimizer cfg mdl = Raise e ->
     (e = ValueError \/ e = TypeError) /\
     (main cfg mdl w0).1 = Raise e /\ writes (main cfg mdl w0).2 = []).
Proof.
  split; [|split].
  - split.
    + intros Hacc. by apply make_optimizer_returns.
    + by intros [_ Hacc]%make_optimizer_returns.
  - intros opt (-> & _)%make_optimizer_returns.
    split; [done|]. split; [done|].
    intros [|[|[|i]]] g Hg; simpl in Hg; [| | |done];
      injection Hg as <-; reflexivity.
  - intros e He. split; [|unfold main; rewrite He; split; reflexivity].
    revert He. unfold make_optimizer, SGD.
    destruct (flt _ _); [intros [= <-]; by left|].
    cbn [add_param_groups].
    destruct (add_param_group _ [] (group_1x cfg mdl)) as [gs1|e1] eqn:H1.
    2:{ intros [= <-].
        eapply add_param_group_raises; [|exact H1]. reflexivity. }
    destruct (add_param_group _ gs1 (group_10x cfg mdl)) as [gs2|e2] eqn:H2.
    2:{ intros [= <-].
        eapply add_param_group_raises; [|exact H2]. reflexivity. }
    destruct (add_param_group _ gs2 (group_20x cfg mdl)) as [gs3|e3] eqn:H3.
    2:{ intros [= <-].
        eapply add_param_group_raises; [|exact H3]. reflexivity. }
    done.
Qed.
End ConstructorMore.

(** ** The further properties at the fixture *)

Module MoreExamples.
Import Fixture FixtureLaws Fixture2 Examples.

(** X3, witness: the base group alone. *)
Lemma scheduler_too_few_groups_witness :
  (poly_lr_scheduler (1 # 10)%Q 0 1 2 1%Q one_group).1 = Raise IndexError /\
  lr_of (poly_lr_scheduler (1 # 10)%Q 0 1 2 1%Q one_group).2 0
    = Some (VFloat (1 # 10)%Q).
Proof.
  destruct (scheduler_too_few_groups (1 # 10)%Q 0 1 2 1%Q (1 # 10)%Q one_group)
    as (Hr & Hl & _); [lia | reflexivity | reflexivity | vm_compute; lia |].
  split; [exact Hr|]. apply Hl. vm_compute. lia.
Defined.

(** X4, witness. *)
Lemma scheduler_zero_max_iter_witness :
  poly_lr_scheduler (1 # 10)%Q 0 1 0 1%Q sgd = (Raise ZeroDivisionError, sgd).
Proof.
  apply (scheduler_zero_max_iter (1 # 10)%Q 0 1 1%Q sgd);
    [lia | apply Z.divide_0_r | lia].
Defined.

Lemma whole_returns :
  @train Q Q_float (world two_samples) (cfg 2 2) s0 = (Return tt, whole.2).
Proof.
  apply (ran (@train Q Q_float (world two_samples) (cfg 2 2) s0) tt).
  by vm_compute.
Defined.

(** X6, witness: the optimizer of the fixture. *)
Lemma rates_always_in_ratio_witness :
  make_optimizer (cfg 2 2) net = Return sgd /\
  rates_in_ratio sgd /\
  rates_in_ratio (optim (run two_samples 2 2).2).
Proof.
  split; [exact sgd_built|].
  destruct (@rates_always_in_ratio Q Q_float (world two_samples) (cfg 2 2)
              net (1 # 2)%Q sgd sgd_built) as (H0 & _ & Hmain).
  split; [exact H0 | exact Hmain].
Defined.

(** X7, witness: the first iteration sets the initial rate. *)
Lemma rate_after_iteration_witness :
  exists q,
    fpow (base (1 - 1) (ITER_MAX (cfg 2 2))) (POLY_POWER (cfg 2 2))
      = Return q /\
    lr_of (optim s1) 0
      = Some (VFloat (fmul (LR (cfg 2 2)) q)) /\
    lr_of (optim s1) 1
      = Some (VFloat (fmul (float_of_Z 10) (fmul (LR (cfg 2 2)) q))) /\
    lr_of (optim s1) 2
      = Some (VFloat (fmul (float_of_Z 20) (fmul (LR (cfg 2 2)) q))).
Proof.
  apply (proj1 (rate_after_iteration (cfg 2 2) 1 s0 s1
                  ltac:(vm_compute; discriminate) first_iteration_returns)).
  apply Z.divide_0_r.
Defined.


(** X9, witness. *)
Lemma final_checkpoint_witness :
  last (writes whole.2)
    = Some (path_of (cfg 2 2) Final, Checkpoint (weights whole.2)).
Proof.
  exact (proj1 (final_checkpoint_holds_final_weights (cfg 2 2) s0
                  whole.2 whole_returns)).
Defined.

(** X10, witness: the network without logits. *)
Lemma no_logits_no_backward_witness :
  exists s',
    @sub_iteration Q Q_float silent 2
       (reset (@init_state Q Q_float silent sgd (1 # 2)%Q))
      = (Raise AttributeError, s').
Proof.
  set (s := reset (@init_state Q Q_float silent sgd (1 # 2)%Q)).
  destruct (@no_logits_no_backward Q Q_float silent 2 s [] 1%Q
              (@pull Q silent (ticked s)).2)
    as (s' & Hs' & _); [reflexivity | by vm_compute | reflexivity |].
  by exists s'.
Defined.

(** X11, witness: [ITER_MAX = 0]. *)
Lemma no_iterations_no_checkpoint_witness :
  (run two_samples 0 2).1 = Raise UnboundLocalError /\
  writes (run two_samples 0 2).2 = [("logs.csv", Table [])].
Proof.
  unfold run.
  apply (@no_iterations_no_checkpoint Q Q_float (world two_samples) (cfg 0 2)
           net (1 # 2)%Q sgd); [reflexivity | by vm_compute].
Defined.

(** X12, witness. *)
Lemma completion_needs_witness :
  run two_samples 2 2 = (Return tt, whole.2) /\
  groups_accepted (cfg 2 2) net /\
  1 <= ITER_MAX (cfg 2 2) /\ 1 <= ITER_SIZE (cfg 2 2) /\
  LR_DECAY (cfg 2 2) ≠ 0 /\ ITER_TB (cfg 2 2) ≠ 0 /\ ITER_SAVE (cfg 2 2) ≠ 0.
Proof.
  assert (Hrun : @main Q Q_float (world two_samples) (cfg 2 2) net (1 # 2)%Q
                 = (Return tt, whole.2)).
  { unfold main. rewrite sgd_built. exact whole_returns. }
  split; [exact Hrun|].
  exact (@completion_needs Q Q_float (world two_samples) (cfg 2 2) net
           (1 # 2)%Q whole.2 Hrun).
Defined.

(** X13, witness. *)
Lemma checkpoint_files_distinct_witness :
  path_of (cfg 2 2) (History 100) ≠ path_of (cfg 2 2) Current.
Proof. by apply checkpoint_files_distinct. Defined.

(** X15, witness: the two samples, then the first of the next epoch. *)
Lemma batches_in_order_witness :
  @pulls Q (world two_samples) (2 + 2) s0
  = (Return ([1%Q; 3%Q] ++ [1%Q; 3%Q]), set_loader [] 2 s0).
Proof.
  exact (proj2 (@batches_in_order Q (world two_samples) [1%Q; 3%Q] s0)
               [1%Q; 3%Q] eq_refl eq_refl ltac:(discriminate)).
Defined.

Lemma two_samples_behave : @well_behaved Q (world two_samples).
Proof.
  assert (Hin : forall k b, Return b ∈ two_samples k -> b = 1%Q \/ b = 3%Q).
  { intros k b Hb. unfold two_samples in Hb.
    apply elem_of_cons in Hb as [[= ->]|Hb]; [by left|].
    apply list_elem_of_singleton in Hb as [= ->]. by right. }
  split; [done|]. split; [|split; [|split; [|split]]].
  - intros k o Ho. unfold loader, world, two_samples in Ho.
    apply elem_of_cons in Ho as [->|Ho]; [by eexists|].
    apply list_elem_of_singleton in Ho as ->. by eexists.
  - intros k b w Hb. destruct (Hin k b Hb) as [-> | ->]; by eexists _, _.
  - intros l b. by eexists.
  - done.
  - intros gs w g. simpl.
    destruct (gs !! 0%nat ≫= _) as [[lr|]|], (g !! 1%positive);
      by eexists.
Defined.

Lemma fixture_powers : powers_defined (cfg 2 2).
Proof.
  intros k Hk _. simpl in Hk.
  assert (k = 1 \/ k = 2) as [-> | ->] by lia; by eexists.
Defined.

Lemma net_accepted : groups_accepted (cfg 2 2) net.
Proof.
  by apply (make_optimizer_returns (cfg 2 2) net sgd), sgd_built.
Defined.


(** X17, witness. *)
Lemma scalars_logged_witness :
  exists x v,
    lr_of (optim s1) 0 = Some (VFloat x) /\
    loss_meter s1 = loss_meter s0 ++ [v] /\
    tensorboard s1 =
      tensorboard s0 ++
      (if 1 mod ITER_TB (cfg 2 2) =? 0
       then scalars 1 (@meter_value Q (world two_samples) (loss_meter s1)) x
       else []).
Proof.
  apply (@scalars_logged Q Q_float (world two_samples) (cfg 2 2) 1 s0 s1);
    [exact (make_optimizer_ratio (cfg 2 2) net sgd sgd_built)
    | exact first_iteration_returns].
Defined.
End MoreExamples.
